(** * ImagineVideo: the batch pipeline of [ImagineVideo.py]

    A shallow embedding of the file-watch and batch-processing core of
    [VideoEditorUI] (output-name allocation, media probing, the stability
    gate, the two batch workers and their front-end entry points), and the
    properties of that code.

    Conventions of the embedding.
    - A Python [str] is a [string]; the characters are ASCII.  The functions
      of the runtime are embedded for ASCII text: [int()] accepts decimal
      digits of other scripts, which a [string] here cannot hold.
    - A Python exception is a value of [pyexn]; a call that may raise returns
      an [outcome].
    - A Python [float] is a binary64 [float] of the kernel. *)

From Stdlib Require Import String Ascii List ZArith Lia Bool Arith.
From Stdlib Require Import DecimalString DecimalPos.
From Stdlib Require Import Floats.
Import ListNotations.

Local Open Scope string_scope.
Local Open Scope Z_scope.

(** ** Exceptions and outcomes *)

Inductive pyexn : Type :=
| ValueError
| KeyError
| IndexError
| NameError
| ZeroDivisionError
| FileNotFoundError
| PermissionError
| OSError
| TimeoutExpired
| CalledProcessError
| JSONDecodeError
| PlainException (msg : string).

Inductive outcome (A : Type) : Type :=
| Ret (a : A)
| Raise (e : pyexn).

Arguments Ret {A} a.
Arguments Raise {A} e.

(** ** Strings, as the runtime treats them *)

(** [s[n:]] *)
Fixpoint drop (n : nat) (s : string) : string :=
  match n, s with
  | O, _ => s
  | S n', String _ s' => drop n' s'
  | S _, EmptyString => EmptyString
  end.

(** [s[:n]] *)
Fixpoint take (n : nat) (s : string) : string :=
  match n, s with
  | O, _ => EmptyString
  | S n', String c s' => String c (take n' s')
  | S _, EmptyString => EmptyString
  end.

(** [pattern in s]: [pattern] occurs in [s] as a substring. *)
Fixpoint contains (pattern s : string) : bool :=
  prefix pattern s ||
  match s with
  | EmptyString => false
  | String _ s' => contains pattern s'
  end.

(** The split of [s] at the rightmost occurrence of [sep], when there is
    one: the text before it and the text after it. *)
Fixpoint rsplit_last (sep s : string) : option (string * string) :=
  match s with
  | EmptyString => if prefix sep EmptyString then Some (EmptyString, EmptyString) else None
  | String c s' =>
      match rsplit_last sep s' with
      | Some (a, b) => Some (String c a, b)
      | None =>
          if prefix sep s then Some (EmptyString, drop (String.length sep) s)
          else None
      end
  end.

(** [s.rsplit(sep, 1)]: [ValueError] on the empty separator, else at most
    one split, at the rightmost occurrence. *)
Definition rsplit1 (s sep : string) : outcome (list string) :=
  match sep with
  | EmptyString => Raise ValueError
  | _ =>
      match rsplit_last sep s with
      | Some (a, b) => Ret [a; b]
      | None => Ret [s]
      end
  end.

(** [s.rfind(c)] for a one-character [c]: the greatest index, or [-1]. *)
Fixpoint rfind_from (c : ascii) (s : string) (i : Z) (found : Z) : Z :=
  match s with
  | EmptyString => found
  | String a s' => rfind_from c s' (i + 1) (if Ascii.eqb a c then i else found)
  end.

Definition rfind (c : ascii) (s : string) : Z := rfind_from c s 0 (-1).

(** [s[i:i+1]] *)
Definition char_at (s : string) (i : Z) : string :=
  take 1 (drop (Z.to_nat i) s).

(** The loop of [genericpath._splitext] that skips the leading dots of the
    last path component: [true] when a character other than a dot stands in
    [p[filenameIndex:dotIndex]]. *)
Fixpoint splitext_scan (fuel : nat) (p : string) (filenameIndex dotIndex : Z) : bool :=
  match fuel with
  | O => false
  | S fuel' =>
      if filenameIndex <? dotIndex then
        if negb (String.eqb (char_at p filenameIndex) ".") then true
        else splitext_scan fuel' p (filenameIndex + 1) dotIndex
      else false
  end.

(** [os.path.splitext(p)] of [posixpath]: the extension starts at the last
    dot of the last component, unless only dots precede it there. *)
Definition splitext (p : string) : string * string :=
  let sepIndex := rfind "/"%char p in
  let dotIndex := rfind "."%char p in
  if dotIndex >? sepIndex then
    if splitext_scan (String.length p) p (sepIndex + 1) dotIndex
    then (take (Z.to_nat dotIndex) p, drop (Z.to_nat dotIndex) p)
    else (p, EmptyString)
  else (p, EmptyString).

(** ** [int(str)] *)

(** [Py_ISSPACE]: space, and the controls [\t \n \v \f \r]. *)
Definition is_space (c : ascii) : bool :=
  let n := nat_of_ascii c in
  (n =? 32)%nat || ((9 <=? n)%nat && (n <=? 13)%nat).

Definition digit_value (c : ascii) : option Z :=
  let n := nat_of_ascii c in
  if ((48 <=? n)%nat && (n <=? 57)%nat)%bool then Some (Z.of_nat n - 48) else None.

Fixpoint lstrip (s : string) : string :=
  match s with
  | String c s' => if is_space c then lstrip s' else s
  | EmptyString => EmptyString
  end.

Fixpoint all_space (s : string) : bool :=
  match s with
  | EmptyString => true
  | String c s' => is_space c && all_space s'
  end.

(** The digits of a decimal literal after its first digit: a single
    underscore may stand between two digits; after the last digit only
    white space may follow.  [acc] is the value read so far and [prev_us]
    tells that the previous character was an underscore. *)
Fixpoint int_digits (s : string) (acc : Z) (prev_us : bool) : option Z :=
  match s with
  | EmptyString => if prev_us then None else Some acc
  | String c s' =>
      match digit_value c with
      | Some d => int_digits s' (10 * acc + d) false
      | None =>
          if Ascii.eqb c "_" then
            if prev_us then None else int_digits s' acc true
          else if prev_us then None
          else if all_space s then Some acc else None
      end
  end.

(** [int(s)], base ten: [None] stands for [ValueError]. *)
Definition py_int (s : string) : option Z :=
  let s1 := lstrip s in
  let '(neg, s2) :=
    match s1 with
    | String "+" r => (false, r)
    | String "-" r => (true, r)
    | _ => (false, s1)
    end in
  match s2 with
  | String c r =>
      match digit_value c with
      | Some d =>
          match int_digits r d false with
          | Some n => Some (if neg then - n else n)
          | None => None
          end
      | None => None
      end
  | EmptyString => None
  end.

(** [str(n)] of an [int]. *)
Definition str_of_Z (n : Z) : string := NilZero.string_of_int (Z.to_int n).

(** [s.lower()] *)
Definition lower_char (c : ascii) : ascii :=
  let n := nat_of_ascii c in
  if ((65 <=? n)%nat && (n <=? 90)%nat)%bool then ascii_of_nat (n + 32) else c.

Fixpoint lower (s : string) : string :=
  match s with
  | EmptyString => EmptyString
  | String c s' => String (lower_char c) (lower s')
  end.

(** [s.split(sep)] for a one-character [sep]. *)
Fixpoint split_char (sep : ascii) (s : string) : list string :=
  match s with
  | EmptyString => [EmptyString]
  | String c s' =>
      if Ascii.eqb c sep then EmptyString :: split_char sep s'
      else
        match split_char sep s' with
        | part :: parts => String c part :: parts
        | [] => [String c EmptyString]
        end
  end.

(** ** Paths ([posixpath] and [pathlib.PurePosixPath]) *)

Fixpoint ends_with_slash (s : string) : bool :=
  match s with
  | EmptyString => false
  | String c EmptyString => Ascii.eqb c "/"
  | String _ s' => ends_with_slash s'
  end.

(** [os.path.join(a, b)] *)
Definition path_join (a b : string) : string :=
  if prefix "/" b then b
  else if String.eqb a EmptyString || ends_with_slash a then a ++ b
  else a ++ "/" ++ b.

(** [Path(p).name]: the last component, empty and [.] components dropped. *)
Definition path_name (p : string) : string :=
  last (filter (fun c => negb (String.eqb c EmptyString || String.eqb c "."))
               (split_char "/" p)) EmptyString.

(** [Path(p).suffix] *)
Definition path_suffix (p : string) : string :=
  let name := path_name p in
  let i := rfind "."%char name in
  if (0 <? i) && (i <? Z.of_nat (String.length name) - 1)
  then drop (Z.to_nat i) name else EmptyString.

(** [Path(p).stem] *)
Definition path_stem (p : string) : string :=
  let name := path_name p in
  let i := rfind "."%char name in
  if (0 <? i) && (i <? Z.of_nat (String.length name) - 1)
  then take (Z.to_nat i) name else name.

(** ** The application object and the world around it *)

(** A reference to a list object of the interpreter. *)
Definition loc : Type := nat.

(** A [messagebox] call. *)
Inductive dialog : Type :=
| ShowWarning (title message : string)
| ShowError (title message : string)
| ShowInfo (title message : string)
| ShowErrorOf (title message : string) (e : pyexn).

(** A callable handed to [root.after(0, ...)], to run on the front end. *)
Inductive callback : Type :=
| ExtractionComplete (success_count : Z) (output_dir : string) (total_videos : Z)
| TrimmingComplete (success_count : Z) (output_dir : string) (total_videos : Z)
| FailureBox (message : string) (e : pyexn).

(** A started [threading.Thread], by its target and argument. *)
Inductive thread : Type :=
| ExtractThread (videos : loc)
| TrimThread (videos : loc).

(** A [print] call: the text, and the exception formatted into it. *)
Inductive log_line : Type :=
| Printed (text : string) (e : option pyexn).

(** The fields of [VideoEditorUI] that the pipeline reads or writes (the
    widgets other than the two Tk variables are left out), the heap that
    holds its lists, the directories it lists and writes to, and a record
    of what it did to its collaborators. *)
Record App : Type := mkApp {
  video_dir : string;
  videos : loc;
  selection : list nat;
  progress_var : float;
  status_var : string;
  is_processing : bool;
  auto_process_var : bool;
  observer : option string;
  watching : bool;
  heap : list (list string);
  fs : list (string * list string);
  dialogs : list dialog;
  after_queue : list callback;
  tool_log : list (list string);
  threads : list thread;
  printed : list log_line
}.

Definition set_video_dir (v : string) (a : App) : App :=
  mkApp v (videos a) (selection a) (progress_var a) (status_var a)
        (is_processing a) (auto_process_var a) (observer a) (watching a)
        (heap a) (fs a) (dialogs a) (after_queue a) (tool_log a) (threads a)
        (printed a).

Definition set_videos (v : loc) (a : App) : App :=
  mkApp (video_dir a) v (selection a) (progress_var a) (status_var a)
        (is_processing a) (auto_process_var a) (observer a) (watching a)
        (heap a) (fs a) (dialogs a) (after_queue a) (tool_log a) (threads a)
        (printed a).

Definition set_progress_var (v : float) (a : App) : App :=
  mkApp (video_dir a) (videos a) (selection a) v (status_var a)
        (is_processing a) (auto_process_var a) (observer a) (watching a)
        (heap a) (fs a) (dialogs a) (after_queue a) (tool_log a) (threads a)
        (printed a).

Definition set_status_var (v : string) (a : App) : App :=
  mkApp (video_dir a) (videos a) (selection a) (progress_var a) v
        (is_processing a) (auto_process_var a) (observer a) (watching a)
        (heap a) (fs a) (dialogs a) (after_queue a) (tool_log a) (threads a)
        (printed a).

Definition set_is_processing (v : bool) (a : App) : App :=
  mkApp (video_dir a) (videos a) (selection a) (progress_var a) (status_var a)
        v (auto_process_var a) (observer a) (watching a)
        (heap a) (fs a) (dialogs a) (after_queue a) (tool_log a) (threads a)
        (printed a).

Definition set_observer (v : option string) (a : App) : App :=
  mkApp (video_dir a) (videos a) (selection a) (progress_var a) (status_var a)
        (is_processing a) (auto_process_var a) v (watching a)
        (heap a) (fs a) (dialogs a) (after_queue a) (tool_log a) (threads a)
        (printed a).

Definition set_watching (v : bool) (a : App) : App :=
  mkApp (video_dir a) (videos a) (selection a) (progress_var a) (status_var a)
        (is_processing a) (auto_process_var a) (observer a) v
        (heap a) (fs a) (dialogs a) (after_queue a) (tool_log a) (threads a)
        (printed a).

Definition set_heap (v : list (list string)) (a : App) : App :=
  mkApp (video_dir a) (videos a) (selection a) (progress_var a) (status_var a)
        (is_processing a) (auto_process_var a) (observer a) (watching a)
        v (fs a) (dialogs a) (after_queue a) (tool_log a) (threads a)
        (printed a).

Definition set_fs (v : list (string * list string)) (a : App) : App :=
  mkApp (video_dir a) (videos a) (selection a) (progress_var a) (status_var a)
        (is_processing a) (auto_process_var a) (observer a) (watching a)
        (heap a) v (dialogs a) (after_queue a) (tool_log a) (threads a)
        (printed a).

Definition set_dialogs (v : list dialog) (a : App) : App :=
  mkApp (video_dir a) (videos a) (selection a) (progress_var a) (status_var a)
        (is_processing a) (auto_process_var a) (observer a) (watching a)
        (heap a) (fs a) v (after_queue a) (tool_log a) (threads a)
        (printed a).

Definition set_after_queue (v : list callback) (a : App) : App :=
  mkApp (video_dir a) (videos a) (selection a) (progress_var a) (status_var a)
        (is_processing a) (auto_process_var a) (observer a) (watching a)
        (heap a) (fs a) (dialogs a) v (tool_log a) (threads a)
        (printed a).

Definition set_tool_log (v : list (list string)) (a : App) : App :=
  mkApp (video_dir a) (videos a) (selection a) (progress_var a) (status_var a)
        (is_processing a) (auto_process_var a) (observer a) (watching a)
        (heap a) (fs a) (dialogs a) (after_queue a) v (threads a)
        (printed a).

Definition set_threads (v : list thread) (a : App) : App :=
  mkApp (video_dir a) (videos a) (selection a) (progress_var a) (status_var a)
        (is_processing a) (auto_process_var a) (observer a) (watching a)
        (heap a) (fs a) (dialogs a) (after_queue a) (tool_log a) v
        (printed a).

Definition set_printed (v : list log_line) (a : App) : App :=
  mkApp (video_dir a) (videos a) (selection a) (progress_var a) (status_var a)
        (is_processing a) (auto_process_var a) (observer a) (watching a)
        (heap a) (fs a) (dialogs a) (after_queue a) (tool_log a) (threads a)
        v.

(** *** Statements that read and write the application: a state and
    exception monad *)

Definition M (A : Type) : Type := App -> outcome A * App.

Definition ret {A : Type} (a : A) : M A := fun s => (Ret a, s).

Definition bind {A B : Type} (m : M A) (k : A -> M B) : M B :=
  fun s =>
    match m s with
    | (Ret a, s') => k a s'
    | (Raise e, s') => (Raise e, s')
    end.

Definition raise {A : Type} (e : pyexn) : M A := fun s => (Raise e, s).

Definition gets {A : Type} (f : App -> A) : M A := fun s => (Ret (f s), s).

Definition modify (f : App -> App) : M unit := fun s => (Ret tt, f s).

Definition lift {A : Type} (o : outcome A) : M A := fun s => (o, s).

(** [try: body  except Exception as e: handler(e)] *)
Definition try_except {A : Type} (body : M A) (handler : pyexn -> M A) : M A :=
  fun s =>
    match body s with
    | (Ret a, s') => (Ret a, s')
    | (Raise e, s') => handler e s'
    end.

(** [try: body  finally: final] *)
Definition try_finally {A : Type} (body : M A) (final : M unit) : M A :=
  fun s =>
    match body s with
    | (r, s') =>
        match final s' with
        | (Ret _, s'') => (r, s'')
        | (Raise e, s'') => (Raise e, s'')
        end
    end.

Declare Scope py_scope.
Delimit Scope py_scope with py.
Notation "x <- m ;; k" := (bind m (fun x => k))
  (at level 61, m at next level, right associativity) : py_scope.
Notation "m ;; k" := (bind m (fun _ => k))
  (at level 61, right associativity) : py_scope.
Local Open Scope py_scope.

(** The calls that end in the record of effects. *)
Definition messagebox (d : dialog) : M unit :=
  modify (fun s => set_dialogs (dialogs s ++ [d]) s).

Definition root_after (c : callback) : M unit :=
  modify (fun s => set_after_queue (after_queue s ++ [c]) s).

Definition print (text : string) (e : option pyexn) : M unit :=
  modify (fun s => set_printed (printed s ++ [Printed text e]) s).

Definition thread_start (t : thread) : M unit :=
  modify (fun s => set_threads (threads s ++ [t]) s).

(** *** Directories *)

Fixpoint lookup_dir (d : string) (dirs : list (string * list string)) : option (list string) :=
  match dirs with
  | [] => None
  | (d', entries) :: rest => if String.eqb d d' then Some entries else lookup_dir d rest
  end.

Fixpoint update_dir (d : string) (entries : list string) (dirs : list (string * list string))
  : list (string * list string) :=
  match dirs with
  | [] => [(d, entries)]
  | (d', old) :: rest =>
      if String.eqb d d' then (d, entries) :: rest
      else (d', old) :: update_dir d entries rest
  end.

Definition mem_string (x : string) (l : list string) : bool :=
  existsb (String.eqb x) l.

(** [os.listdir(d)] *)
Definition listdir (d : string) : M (list string) :=
  fun s =>
    match lookup_dir d (fs s) with
    | Some entries => (Ret entries, s)
    | None => (Raise FileNotFoundError, s)
    end.

(** [open(os.path.join(d, name), 'a').close()]: the file is created when
    it is not there, and left as it is when it is. *)
Definition touch (d name : string) : M unit :=
  fun s =>
    match lookup_dir d (fs s) with
    | Some entries =>
        if mem_string name entries then (Ret tt, s)
        else (Ret tt, set_fs (update_dir d (entries ++ [name]) (fs s)) s)
    | None => (Raise FileNotFoundError, s)
    end.

(** ** OutputNamer: [get_max_counter] and the reservation of a name *)

(** One turn of the loop of [get_max_counter] over the entry [file], from
    the greatest number found so far.  [rsplit] is outside the [try]: its
    [ValueError] on an empty pattern leaves the function. *)
Definition scan_entry (pattern file : string) (max_num : Z) : outcome Z :=
  if contains pattern file then
    match rsplit1 file pattern with
    | Raise e => Raise e
    | Ret parts =>
        if (1 <? Z.of_nat (List.length parts)) then
          let '(num_str, _) := splitext (nth 1 parts EmptyString) in
          match py_int num_str with
          | Some num => if num >? max_num then Ret num else Ret max_num
          | None => Ret max_num
          end
        else Ret max_num
    end
  else Ret max_num.

Fixpoint scan_entries (pattern : string) (files : list string) (max_num : Z) : outcome Z :=
  match files with
  | [] => Ret max_num
  | file :: rest =>
      match scan_entry pattern file max_num with
      | Ret m => scan_entries pattern rest m
      | Raise e => Raise e
      end
  end.

(** [get_max_counter(output_dir, pattern)] *)
Definition get_max_counter (output_dir pattern : string) : M Z :=
  files <- listdir output_dir ;;
  lift (scan_entries pattern files 0).

(** The counter every caller computes from it: [counter = current_max + 1]. *)
Definition next_counter (output_dir tag : string) : M Z :=
  current_max <- get_max_counter output_dir tag ;;
  ret (current_max + 1).

(** The block every caller runs under [self.lock]: the counter, the name
    built from it, and the placeholder file.  The result is the counter and
    the path of the placeholder. *)
Definition reserve_output (output_dir filename tag ext : string) : M (Z * string) :=
  current_max <- get_max_counter output_dir tag ;;
  let counter := current_max + 1 in
  let name := filename ++ tag ++ str_of_Z counter ++ ext in
  touch output_dir name ;;
  ret (counter, path_join output_dir name).

(** The contract in the words of the specification: the number an entry
    carries is the integer parsed from the remainder after the last
    occurrence of the tag, its extension stripped; entries without the tag
    and remainders that do not parse carry none. *)
Definition parsed_counter (tag file : string) : option Z :=
  match rsplit_last tag file with
  | Some (_, remainder) => py_int (fst (splitext remainder))
  | None => None
  end.

Definition parsed_counters (tag : string) (entries : list string) : list Z :=
  flat_map (fun file => match parsed_counter tag file with
                        | Some n => [n]
                        | None => []
                        end) entries.

(** [max(parsed values) + 1], or [1] if none is found. *)
Definition spec_next_counter (tag : string) (entries : list string) : Z :=
  match parsed_counters tag entries with
  | [] => 1
  | n :: ns => fold_right Z.max n ns + 1
  end.

(** ** The collaborators: the runtime, the tools, the user

    What the pipeline asks of them is answered by an environment: [float()]
    and [str()] of the runtime, the outcome of each run of the external
    tools, what exists on disk, and the front-end events that other threads
    of the process run between two turns of a worker's loop. *)

(** What [get_video_info] reads of the JSON that ffprobe prints; an absent
    key is [None].  The values have the types ffprobe prints them with:
    strings for [codec_type], [r_frame_rate] and [duration], an object for
    [format], a list of objects for [streams].  JSON of another shape is
    not represented. *)
Record stream : Type := mkStream {
  codec_type : option string;
  r_frame_rate : option string
}.

Record format_section : Type := mkFormat {
  duration : option string
}.

Record probe_data : Type := mkProbe {
  format : option format_section;
  streams : option (list stream)
}.

(** Something the front end does while a worker runs. *)
Inductive front_event : Type :=
| EvLoadVideos
| EvBrowse (directory : string)
| EvAssignVideos (new_videos : list string)
| EvExtract (selected : bool)
| EvTrim (selected : bool).

Record Env : Type := mkEnv {
  (** [float(s)]; [None] is [ValueError] *)
  float_of_string : string -> option float;
  (** [str(x)] and [f"{x}"] of a float *)
  string_of_float : float -> string;
  (** [WATCHDOG_AVAILABLE] *)
  watchdog_available : bool;
  (** [subprocess.run(['ffmpeg', '-version'], check=True, timeout=10)] *)
  ffmpeg_version : outcome unit;
  (** [subprocess.run(['ffprobe', ...], check=True, timeout=30)] on a video,
      followed by [json.loads] of what it printed *)
  ffprobe_json : string -> outcome probe_data;
  (** [subprocess.run(cmd, check=True, timeout=300)] of an ffmpeg command *)
  ffmpeg_run : list string -> outcome unit;
  (** [os.path.exists] of a video path *)
  path_exists : string -> bool;
  (** the exception [os.makedirs(d, exist_ok=True)] raises, if any *)
  makedirs_raises : string -> option pyexn;
  (** the answer to [messagebox.askyesno] *)
  askyesno : bool;
  (** the front-end events that run before turn [i] of a worker's loop *)
  others : nat -> list front_event
}.

Definition with_others (o : nat -> list front_event) (E : Env) : Env :=
  mkEnv (float_of_string E) (string_of_float E) (watchdog_available E)
        (ffmpeg_version E) (ffprobe_json E) (ffmpeg_run E) (path_exists E)
        (makedirs_raises E) (askyesno E) o.

(** ** MediaProbe: [get_video_info] *)

(** [a / b] on floats: Python raises where IEEE 754 returns an infinity. *)
Definition float_div (a b : float) : outcome float :=
  if (b =? 0)%float then Raise ZeroDivisionError else Ret (a / b)%float.

(** [next((s for s in streams if s['codec_type'] == 'video'), None)] *)
Fixpoint first_video_stream (l : list stream) : outcome (option stream) :=
  match l with
  | [] => Ret None
  | s :: rest =>
      match codec_type s with
      | None => Raise KeyError
      | Some t => if String.eqb t "video" then Ret (Some s) else first_video_stream rest
      end
  end.

Definition to_float (E : Env) (s : string) : outcome float :=
  match float_of_string E s with
  | Some x => Ret x
  | None => Raise ValueError
  end.

(** The frame rate of the stream found, [30.0] where the code falls back. *)
Definition stream_fps (E : Env) (video_stream : option stream) : outcome float :=
  match video_stream with
  | Some vs =>
      match r_frame_rate vs with
      | Some r =>
          let parts := split_char "/" r in
          if (List.length parts =? 2)%nat && negb (String.eqb (nth 1 parts EmptyString) "0")
          then
            match to_float E (nth 0 parts EmptyString) with
            | Raise e => Raise e
            | Ret num =>
                match to_float E (nth 1 parts EmptyString) with
                | Raise e => Raise e
                | Ret den => float_div num den
                end
            end
          else Ret 30%float
      | None => Ret 30%float
      end
  | None => Ret 30%float
  end.

(** The body of the [try] of [get_video_info]. *)
Definition probe (E : Env) (video_path : string) : outcome (float * float) :=
  match ffprobe_json E video_path with
  | Raise e => Raise e
  | Ret data =>
      match format data with
      | None => Raise KeyError
      | Some fmt =>
          match duration fmt with
          | None => Raise KeyError
          | Some d =>
              match to_float E d with
              | Raise e => Raise e
              | Ret dur =>
                  match streams data with
                  | None => Raise KeyError
                  | Some l =>
                      match first_video_stream l with
                      | Raise e => Raise e
                      | Ret video_stream =>
                          match stream_fps E video_stream with
                          | Raise e => Raise e
                          | Ret fps => Ret (dur, fps)
                          end
                      end
                  end
              end
          end
      end
  end.

(** The exceptions of the second [except] clause of [get_video_info]. *)
Definition probe_failure (e : pyexn) : bool :=
  match e with
  | CalledProcessError | JSONDecodeError | KeyError | ZeroDivisionError | ValueError => true
  | _ => false
  end.

(** [get_video_info(video_path)]: the duration and the frame rate, or
    [(None, None)]; an exception of no [except] clause leaves the function. *)
Definition get_video_info (E : Env) (video_path : string)
  : M (option float * option float) :=
  match probe E video_path with
  | Ret (dur, fps) => ret (Some dur, Some fps)
  | Raise TimeoutExpired =>
      print ("Timeout getting info for " ++ path_name video_path) None ;;
      ret (None, None)
  | Raise e =>
      if probe_failure e then
        print ("Error getting info for " ++ path_name video_path ++ ": ") (Some e) ;;
        ret (None, None)
      else raise e
  end.

(** ** StabilityGate: [wait_for_file_ready]

    Time is counted in milliseconds on an ideal clock: [time.sleep(d)]
    advances it by [d] and nothing else takes time.  [polls k] is the
    outcome of the call of [os.path.getsize] in turn [k] of the loop: a
    size in bytes, or [None] for an [OSError]. *)

(** The [while] loop from turn [k], at time [now] after [start_time].  The
    result is the value returned and the time of the return.  [fuel] bounds
    the number of turns. *)
Fixpoint wait_loop (fuel : nat) (polls : nat -> option N) (max_wait check_interval : Z)
         (k : nat) (now last_size : Z) : bool * Z :=
  match fuel with
  | O => (false, now)
  | S fuel' =>
      if now <? max_wait then
        match polls k with
        | Some size =>
            let current_size := Z.of_N size in
            if (current_size =? last_size) && (current_size >? 0)
            then (true, now + 500)
            else wait_loop fuel' polls max_wait check_interval (S k)
                           (now + check_interval) current_size
        | None =>
            wait_loop fuel' polls max_wait check_interval (S k)
                      (now + check_interval) last_size
        end
      else (false, now)
  end.

(** [wait_for_file_ready(file_path, max_wait, check_interval)]; the
    defaults are [60000] and [1000].  With a positive [check_interval] the
    loop makes at most [max_wait] turns. *)
Definition wait_for_file_ready (polls : nat -> option N) (max_wait check_interval : Z)
  : bool * Z :=
  wait_loop (Z.to_nat max_wait) polls max_wait check_interval 0 0 (-1).

(** The gate in the words of the specification.  The size observed before
    turn [k]: that of the latest earlier poll that read one, [-1] when none
    did. *)
Fixpoint previously_observed (polls : nat -> option N) (k : nat) : Z :=
  match k with
  | O => -1
  | S j =>
      match polls j with
      | Some size => Z.of_N size
      | None => previously_observed polls j
      end
  end.

(** Poll [k] observes a size that is nonzero and equal to the previously
    observed size. *)
Definition stable_at (polls : nat -> option N) (k : nat) : Prop :=
  exists size, polls k = Some size /\ size <> 0%N
               /\ Z.of_N size = previously_observed polls k.

(** ** The heap of list objects *)

(** The list a reference points to. *)
Definition list_at (h : list (list string)) (l : loc) : list string := nth l h [].

Fixpoint update_nth {A : Type} (n : nat) (x : A) (l : list A) : list A :=
  match n, l with
  | O, _ :: rest => x :: rest
  | S n', y :: rest => y :: update_nth n' x rest
  | _, [] => []
  end.

(** A new list object. *)
Definition alloc (l : list string) : M loc :=
  fun s => (Ret (List.length (heap s)), set_heap (heap s ++ [l]) s).

(** [lst.append(x)] *)
Definition list_append (l : loc) (x : string) : M unit :=
  modify (fun s => set_heap (update_nth l (list_at (heap s) l ++ [x])%list (heap s)) s).

(** [lst[i]] *)
Definition list_get (l : loc) (i : nat) : M string :=
  fun s =>
    match nth_error (list_at (heap s) l) i with
    | Some x => (Ret x, s)
    | None => (Raise IndexError, s)
    end.

(** [[lst[i] for i in indices]], built in a new list. *)
Fixpoint list_select (l : loc) (indices : list nat) : M (list string) :=
  match indices with
  | [] => ret []
  | i :: rest =>
      x <- list_get l i ;;
      xs <- list_select l rest ;;
      ret (x :: xs)
  end.

(** ** The front end: loading the list, watching, starting a run *)

Definition video_extensions : list string :=
  [".mp4"; ".avi"; ".mov"; ".mkv"; ".flv"; ".wmv"; ".webm"; ".m4v"; ".3gp"].

(** [list.sort()] on strings. *)
Fixpoint insert_sorted (x : string) (l : list string) : list string :=
  match l with
  | [] => [x]
  | y :: rest => if String.leb x y then x :: l else y :: insert_sorted x rest
  end.

Definition sort_strings (l : list string) : list string :=
  fold_right insert_sorted [] l.

Definition dir_exists (d : string) (s : App) : bool :=
  match lookup_dir d (fs s) with
  | Some _ => true
  | None => false
  end.

(** [stop_watching()]; the observer stops without raising. *)
Definition stop_watching : M unit :=
  o <- gets observer ;;
  match o with
  | Some _ =>
      modify (set_observer None) ;;
      modify (set_watching false) ;;
      modify (set_status_var "Ready")
  | None => ret tt
  end.

(** [start_file_watching()]; the new observer starts without raising. *)
Definition start_file_watching (E : Env) : M unit :=
  if negb (watchdog_available E) then
    messagebox (ShowWarning "Warning"
      "File watching requires the 'watchdog' package. Please install it with: pip install watchdog")
  else
    dir_path <- gets video_dir ;;
    there <- gets (dir_exists dir_path) ;;
    if String.eqb dir_path EmptyString || negb there then
      messagebox (ShowWarning "Warning" "Please select a valid directory first.")
    else
      o <- gets observer ;;
      match o with
      | Some _ =>
          try_except stop_watching
            (fun e => print "Warning: Error stopping previous watcher: " (Some e) ;;
                      modify (set_observer None))
      | None => ret tt
      end ;;
      modify (set_observer (Some dir_path)) ;;
      modify (set_watching true) ;;
      auto <- gets auto_process_var ;;
      modify (set_status_var (if auto then "Auto-processing enabled..."
                              else "Watching for new videos...")).

(** [self.videos.append(x)] for each [x] in turn. *)
Fixpoint videos_append_all (xs : list string) : M unit :=
  match xs with
  | [] => ret tt
  | x :: rest =>
      l <- gets videos ;;
      list_append l x ;;
      videos_append_all rest
  end.

(** [load_videos()] *)
Definition load_videos (E : Env) : M unit :=
  dir_path <- gets video_dir ;;
  if String.eqb dir_path EmptyString then
    messagebox (ShowWarning "Warning" "Please select a directory first.")
  else
    there <- gets (dir_exists dir_path) ;;
    if negb there then
      messagebox (ShowError "Error" "Selected directory does not exist.")
    else
      try_except
        (l <- alloc [] ;;
         modify (set_videos l) ;;
         entries <- listdir dir_path ;;
         let video_files :=
           sort_strings
             (filter (fun file => mem_string (lower (path_suffix file)) video_extensions)
                     entries) in
         videos_append_all (map (path_join dir_path) video_files) ;;
         l' <- gets videos ;;
         loaded <- gets (fun s => list_at (heap s) l') ;;
         match loaded with
         | [] => messagebox (ShowInfo "Info" "No supported video files found in the directory.")
         | _ => ret tt
         end)
        (fun e =>
           match e with
           | PermissionError =>
               messagebox (ShowError "Error" "Permission denied accessing the directory.")
           | _ => messagebox (ShowErrorOf "Error" "Failed to load videos: " e)
           end) ;;
      start_file_watching E.

(** [browse_dir()], the dialog answered with [directory]. *)
Definition browse_dir (E : Env) (directory : string) : M unit :=
  if String.eqb directory EmptyString then ret tt
  else
    stop_watching ;;
    modify (set_video_dir directory) ;;
    load_videos E.

(** [get_selected_videos(selected)]: a new list in both cases. *)
Definition get_selected_videos (selected : bool) : M loc :=
  if selected then
    indices <- gets selection ;;
    l <- gets videos ;;
    xs <- list_select l indices ;;
    alloc xs
  else
    l <- gets videos ;;
    xs <- gets (fun s => list_at (heap s) l) ;;
    alloc xs.

(** [_check_ffmpeg()] *)
Definition check_ffmpeg (E : Env) : M bool :=
  match ffmpeg_version E with
  | Ret _ => ret true
  | Raise e =>
      match e with
      | CalledProcessError | FileNotFoundError | TimeoutExpired =>
          messagebox (ShowError "Error"
            "FFmpeg is not installed or not available. Please install FFmpeg to use trimming functionality.") ;;
          ret false
      | _ => raise e
      end
  end.

Definition busy_warning : dialog :=
  ShowWarning "Warning" "Another operation is in progress. Please wait.".

Definition no_videos_warning : dialog :=
  ShowWarning "Warning" "No videos selected or loaded.".

(** [extract_last_frames(selected)] *)
Definition extract_last_frames (selected : bool) : M unit :=
  busy <- gets is_processing ;;
  if busy then messagebox busy_warning
  else
    l <- get_selected_videos selected ;;
    chosen <- gets (fun s => list_at (heap s) l) ;;
    match chosen with
    | [] => messagebox no_videos_warning
    | _ => thread_start (ExtractThread l)
    end.

(** [trim_last_frames(selected)] *)
Definition trim_last_frames (E : Env) (selected : bool) : M unit :=
  busy <- gets is_processing ;;
  if busy then messagebox busy_warning
  else
    l <- get_selected_videos selected ;;
    chosen <- gets (fun s => list_at (heap s) l) ;;
    match chosen with
    | [] => messagebox no_videos_warning
    | _ =>
        ok <- check_ffmpeg E ;;
        if negb ok then ret tt
        else if askyesno E then thread_start (TrimThread l)
        else ret tt
    end.

(** The effect of a front-end event on the application; an exception that
    leaves the handler ends the event. *)
Definition run_event (E : Env) (ev : front_event) (s : App) : App :=
  match ev with
  | EvLoadVideos => snd (load_videos E s)
  | EvBrowse directory => snd (browse_dir E directory s)
  | EvAssignVideos new_videos => snd ((l <- alloc new_videos ;; modify (set_videos l)) s)
  | EvExtract selected => snd (extract_last_frames selected s)
  | EvTrim selected => snd (trim_last_frames E selected s)
  end.

Definition run_events (E : Env) (evs : list front_event) (s : App) : App :=
  fold_left (fun a ev => run_event E ev a) evs s.

(** ** BatchRunner: the two workers *)

(** [float(n)] of an [int], rounded to nearest. *)
Definition float_of_Z (z : Z) : float :=
  SF2Prim (binary_normalize prec emax z 0 false).

(** [a / b] on two [int]s (exact below [2^53]). *)
Definition int_div (a b : Z) : outcome float :=
  if b =? 0 then Raise ZeroDivisionError
  else Ret (float_of_Z a / float_of_Z b)%float.

(** [os.makedirs(d, exist_ok=True)] *)
Definition makedirs (E : Env) (d : string) : M unit :=
  match makedirs_raises E d with
  | Some e => raise e
  | None =>
      modify (fun s => match lookup_dir d (fs s) with
                       | Some _ => s
                       | None => set_fs (update_dir d [] (fs s)) s
                       end)
  end.

(** [subprocess.run(cmd, capture_output=True, check=True, timeout=300)] *)
Definition run_tool (E : Env) (cmd : list string) : M unit :=
  modify (fun s => set_tool_log (tool_log s ++ [cmd]) s) ;;
  lift (ffmpeg_run E cmd).

(** The progress and status update that opens each turn. *)
Definition report_progress (i total_videos : Z) (video_path : string) : M unit :=
  progress <- lift (int_div i total_videos) ;;
  modify (set_progress_var (progress * 100)%float) ;;
  modify (set_status_var ("Processing: " ++ path_name video_path)).

Definition extract_cmd (E : Env) (seek_offset : float) (video_path frame_path : string)
  : list string :=
  ["ffmpeg"; "-y"; "-sseof"; "-" ++ string_of_float E seek_offset; "-i"; video_path;
   "-update"; "1"; "-q:v"; "1"; frame_path].

Definition trim_cmd (E : Env) (trim_duration : float) (video_path out_path : string)
  : list string :=
  ["ffmpeg"; "-y"; "-i"; video_path; "-t"; string_of_float E trim_duration;
   "-c"; "copy"; "-avoid_negative_ts"; "make_zero"; out_path].

(** One turn of the loop of [_extract_last_frames_thread], for item [i];
    the result is [success_count] after the turn. *)
Definition extract_item (E : Env) (output_dir : string) (total_videos i : Z)
           (video_path : string) (success_count : Z) : M Z :=
  try_except
    (report_progress i total_videos video_path ;;
     if negb (path_exists E video_path) then ret success_count
     else
       info <- get_video_info E video_path ;;
       match info with
       | (Some dur, Some fps) =>
           frame <- lift (float_div 1 fps) ;;
           if (dur <=? frame)%float then ret success_count
           else
             seek_offset <- lift (float_div 1 fps) ;;
             let filename := path_stem video_path in
             reserved <- reserve_output output_dir filename "_last_" ".jpg" ;;
             run_tool E (extract_cmd E seek_offset video_path (snd reserved)) ;;
             ret (success_count + 1)
       | _ => ret success_count
       end)
    (fun e => print ("Error processing " ++ video_path ++ ": ") (Some e) ;;
              ret success_count).

(** One turn of the loop of [_trim_last_frames_thread]. *)
Definition trim_item (E : Env) (output_dir : string) (total_videos i : Z)
           (video_path : string) (success_count : Z) : M Z :=
  try_except
    (report_progress i total_videos video_path ;;
     if negb (path_exists E video_path) then ret success_count
     else
       info <- get_video_info E video_path ;;
       match info with
       | (Some dur, Some fps) =>
           frame <- lift (float_div 1 fps) ;;
           if (dur <=? frame)%float then ret success_count
           else
             frame' <- lift (float_div 1 fps) ;;
             let trim_duration := (dur - frame')%float in
             let filename := path_stem video_path in
             let ext := path_suffix video_path in
             reserved <- reserve_output output_dir filename "_trimmed_" ext ;;
             run_tool E (trim_cmd E trim_duration video_path (snd reserved)) ;;
             ret (success_count + 1)
       | _ => ret success_count
       end)
    (fun e =>
       match e with
       | TimeoutExpired =>
           print ("Timeout trimming " ++ path_name video_path) None
       | CalledProcessError =>
           print ("Failed to trim " ++ path_name video_path ++ ": ") (Some e)
       | _ => print ("Error processing " ++ video_path ++ ": ") (Some e)
       end ;;
       ret success_count).

(** [for i, video_path in enumerate(videos): ...] from index [i]: each turn
    reads the next element from the list object, after the front-end events
    scheduled before it.  [bound] bounds the number of turns. *)
Fixpoint for_enumerate (E : Env) (bound : nat) (videos : loc)
         (body : Z -> string -> Z -> M Z) (i : nat) (success_count : Z) : M Z :=
  match bound with
  | O => ret success_count
  | S bound' =>
      fun s =>
        let s0 := run_events E (others E i) s in
        match nth_error (list_at (heap s0) videos) i with
        | None => (Ret success_count, s0)
        | Some video_path =>
            bind (body (Z.of_nat i) video_path success_count)
                 (fun n => for_enumerate E bound' videos body (S i) n) s0
        end
  end.

(** [len(videos)] *)
Definition len (videos : loc) : M Z :=
  gets (fun s => Z.of_nat (List.length (list_at (heap s) videos))).

(** [_extract_last_frames_thread(videos)] *)
Definition extract_last_frames_thread (E : Env) (videos : loc) : M unit :=
  modify (set_is_processing true) ;;
  modify (set_progress_var 0%float) ;;
  modify (set_status_var "Extracting last frames...") ;;
  try_finally
    (try_except
       (ok <- check_ffmpeg E ;;
        (if negb ok then raise (PlainException "FFmpeg not available") else ret tt) ;;
        dir_path <- gets video_dir ;;
        let output_dir := path_join dir_path "last_frames" in
        makedirs E output_dir ;;
        total_videos <- len videos ;;
        success_count <-
          for_enumerate E (S (Z.to_nat total_videos)) videos
                        (extract_item E output_dir total_videos) 0 0 ;;
        root_after (ExtractionComplete success_count output_dir total_videos))
       (fun e => root_after (FailureBox "Extraction failed: " e)))
    (modify (set_is_processing false)).

(** [_trim_last_frames_thread(videos)] *)
Definition trim_last_frames_thread (E : Env) (videos : loc) : M unit :=
  modify (set_is_processing true) ;;
  modify (set_progress_var 0%float) ;;
  modify (set_status_var "Trimming last frames...") ;;
  try_finally
    (try_except
       (dir_path <- gets video_dir ;;
        let output_dir := path_join dir_path "trimmed_videos" in
        makedirs E output_dir ;;
        total_videos <- len videos ;;
        success_count <-
          for_enumerate E (S (Z.to_nat total_videos)) videos
                        (trim_item E output_dir total_videos) 0 0 ;;
        root_after (TrimmingComplete success_count output_dir total_videos))
       (fun e => root_after (FailureBox "Trimming failed: " e)))
    (modify (set_is_processing false)).

(** ** DirectoryWatcher: the task run for a new file *)

(** [process_new_video(video_path)], where [polls] are the sizes the
    stability gate reads.  The first result of a block tells whether the
    function returned from inside it. *)
Definition process_new_video (E : Env) (polls : nat -> option N) (video_path : string)
  : M unit :=
  if negb (fst (wait_for_file_ready polls 60000 1000)) then
    print ("Timeout waiting for " ++ video_path ++ " to stabilize; skipping auto-processing.")
          None
  else
    let filename := path_stem video_path in
    returned <-
      try_except
        (ok <- check_ffmpeg E ;;
         if negb ok then ret true
         else
           dir_path <- gets video_dir ;;
           let output_dir := path_join dir_path "last_frames" in
           makedirs E output_dir ;;
           info <- get_video_info E video_path ;;
           match info with
           | (Some dur, Some fps) =>
               frame <- lift (float_div 1 fps) ;;
               if (dur <=? frame)%float then ret true
               else
                 seek_offset <- lift (float_div 1 fps) ;;
                 reserved <- reserve_output output_dir filename "_last_" ".jpg" ;;
                 run_tool E (extract_cmd E seek_offset video_path (snd reserved)) ;;
                 ret false
           | _ => ret true
           end)
        (fun e => print ("Error extracting frame from " ++ video_path ++ ": ") (Some e) ;;
                  ret false) ;;
    if returned then ret tt
    else
      try_except
        (ok <- check_ffmpeg E ;;
         if negb ok then ret tt
         else
           dir_path <- gets video_dir ;;
           let output_dir := path_join dir_path "trimmed_videos" in
           makedirs E output_dir ;;
           info <- get_video_info E video_path ;;
           match info with
           | (Some dur, Some fps) =>
               frame <- lift (float_div 1 fps) ;;
               if (dur <=? frame)%float then ret tt
               else
                 frame' <- lift (float_div 1 fps) ;;
                 let trim_duration := (dur - frame')%float in
                 let ext := path_suffix video_path in
                 reserved <- reserve_output output_dir filename "_trimmed_" ext ;;
                 run_tool E (trim_cmd E trim_duration video_path (snd reserved))
           | _ => ret tt
           end)
        (fun e => print ("Error trimming " ++ video_path ++ ": ") (Some e)).
(** The application as [__init__] leaves it: no directory chosen, an empty
    list of videos, nothing running. *)
Definition init_app : App :=
  mkApp EmptyString 0%nat [] 0%float "Ready" false false None false
        [[]] [] [] [] [] [] [].

(** ** Fixtures of the examples *)

(** An output directory with two numbered frames and two other entries. *)
Definition frames_dir : App :=
  set_fs [("out", ["a_last_1.jpg"; "notes.txt"; "b_last_2.jpg"; "c_last_x.jpg"])] init_app.

Fixpoint all_digits (s : string) : bool :=
  match s with
  | EmptyString => true
  | String c s' =>
      match digit_value c with
      | Some _ => all_digits s'
      | None => false
      end
  end.

(** [float()] on the strings of decimal digits, where it is the integer
    read, rounded to nearest; the examples convert no other string. *)
Definition float_of_digits (s : string) : option float :=
  if all_digits s then option_map float_of_Z (py_int s) else None.

(** An environment where the tools are present and succeed, every path
    exists and the front end is idle; [ffprobe] answers [probe_reply]. *)
Definition quiet_env (probe_reply : string -> outcome probe_data) : Env :=
  mkEnv float_of_digits (fun _ => "x") true (Ret tt) probe_reply (fun _ => Ret tt)
        (fun _ => true) (fun _ => None) true (fun _ => []).

(** What ffprobe prints for a ten-second video with the given frame rate
    field. *)
Definition ten_seconds (rate : option string) : probe_data :=
  mkProbe (Some (mkFormat (Some "10"))) (Some [mkStream (Some "audio") None;
                                              mkStream (Some "video") rate]).

(** A file read as 100 bytes at every poll, and one that is unreadable at
    the second poll. *)
Definition steady_file : nat -> option N := fun _ => Some 100%N.

Definition flickering_file : nat -> option N :=
  fun k => nth k [Some 100%N; None; Some 100%N] None.

(** ** The conditions of the specification, in its own words *)

(** The item is skipped: the file does not exist at its recorded path, or
    probing returns NotAvailable, or the probed duration is at most one
    frame, [duration <= 1 / fps]. *)
Definition skips (E : Env) (video_path : string) (s : App) : Prop :=
  path_exists E video_path = false
  \/ fst (get_video_info E video_path s) = Ret (None, None)
  \/ exists dur fps frame,
       fst (get_video_info E video_path s) = Ret (Some dur, Some fps)
       /\ float_div 1 fps = Ret frame
       /\ (dur <=? frame)%float = true.

(** Nothing was run and nothing was reserved between [s] and [s']. *)
Definition untouched (s s' : App) : Prop :=
  tool_log s' = tool_log s /\ fs s' = fs s.

(** ** Frames *)

(** A relation between a state and a later one that holds when nothing
    happens and composes along a run. *)
Class FrameRel (P : App -> App -> Prop) : Prop := {
  frame_refl : forall s, P s s;
  frame_trans : forall s1 s2 s3, P s1 s2 -> P s2 s3 -> P s1 s3
}.

(** A statement keeps [P] when its final state, returned or raised from,
    is related to its initial state. *)
Definition keeps (P : App -> App -> Prop) {A : Type} (m : M A) : Prop :=
  forall s, P s (snd (m s)).

(** What the workers leave for an observer: the directories, the tools
    run, the callbacks scheduled, the flag, the progress and what was
    printed. *)
Definition same_record (s s' : App) : Prop :=
  fs s' = fs s /\ tool_log s' = tool_log s /\ after_queue s' = after_queue s
  /\ is_processing s' = is_processing s /\ progress_var s' = progress_var s
  /\ printed s' = printed s.

(** What a front-end event leaves alone: that record, and every list
    object that exists. *)
Definition aside (s s' : App) : Prop :=
  same_record s s'
  /\ (List.length (heap s) <= List.length (heap s'))%nat
  /\ forall l, (l < List.length (heap s))%nat -> list_at (heap s') l = list_at (heap s) l.

(** The same while [self.videos] is the list object [v] and that object
    may change. *)
Definition aside_but (v : loc) (s s' : App) : Prop :=
  videos s = v ->
  videos s' = v /\ same_record s s'
  /\ List.length (heap s') = List.length (heap s)
  /\ forall l, l <> v -> list_at (heap s') l = list_at (heap s) l.

(** What a turn of a worker leaves alone: the callbacks scheduled and the
    heap. *)
Definition turn_kept (s s' : App) : Prop :=
  after_queue s' = after_queue s /\ heap s' = heap s.

(** Every value a statement returns satisfies [Q]. *)
Definition returns_only {A : Type} (Q : A -> Prop) (m : M A) : Prop :=
  forall s a, fst (m s) = Ret a -> Q a.

(** A statement always returns, and what it returns satisfies [Q]. *)
Definition yields {A : Type} (Q : A -> Prop) (m : M A) : Prop :=
  forall s, exists a, fst (m s) = Ret a /\ Q a.

(** A statement reads and writes the record of the workers only: run
    from two states with the same record, it has the same outcome and
    leaves the same record. *)
Definition respects {A : Type} (m : M A) : Prop :=
  forall s s', same_record s s' ->
               fst (m s') = fst (m s) /\ same_record (snd (m s)) (snd (m s')).


(** An application with the directory [/v] chosen and two videos loaded;
    the list object [1] is the copy a run was started with. *)
Definition two_videos : App :=
  set_heap [["/v/a.mp4"; "/v/b.mov"]; ["/v/a.mp4"; "/v/b.mov"]]
           (set_fs [("/v", ["a.mp4"; "b.mov"; "c.txt"])] (set_video_dir "/v" init_app)).

(** An environment without ffmpeg. *)
Definition no_ffmpeg_env : Env :=
  mkEnv float_of_digits (fun _ => "x") true (Raise FileNotFoundError)
        (fun _ => Ret (ten_seconds (Some "25/1"))) (fun _ => Ret tt)
        (fun _ => true) (fun _ => None) true (fun _ => []).

(** An environment where ffmpeg fails on [b.mov] and the front end
    reloads the list before the second turn. *)
Definition b_fails_env : Env :=
  mkEnv float_of_digits (fun _ => "x") true (Ret tt)
        (fun _ => Ret (ten_seconds (Some "25/1")))
        (fun cmd => if mem_string "/v/b.mov" cmd then Raise CalledProcessError else Ret tt)
        (fun _ => true) (fun _ => None) true
        (fun i => match i with 1%nat => [EvLoadVideos] | _ => [] end).

(** The turns of a worker over a fixed list of items, from index [i]: what
    the loop does when the list it runs over is the list it was started
    with and nothing else happens in between. *)
Fixpoint process_snapshot (body : Z -> string -> Z -> M Z) (items : list string)
         (i : nat) (success_count : Z) : M Z :=
  match items with
  | [] => ret success_count
  | video_path :: rest =>
      n <- body (Z.of_nat i) video_path success_count ;;
      process_snapshot body rest (S i) n
  end.

(** A front end that reloads the directory and then rebinds the list to an
    empty one before every turn of a worker. *)
Definition restless : nat -> list front_event :=
  fun _ => [EvLoadVideos; EvAssignVideos []].

(** ** The names the callers build *)

(** A character other than the underscore, the dot and the slash. *)
Definition plain_char (c : ascii) : bool :=
  negb (Ascii.eqb c "_" || Ascii.eqb c "." || Ascii.eqb c "/").

Fixpoint plain (s : string) : bool :=
  match s with
  | EmptyString => true
  | String c s' => plain_char c && plain s'
  end.

(** An extension as [Path.suffix] returns them for the files the
    application lists: nothing, or a dot followed by plain characters. *)
Definition plain_ext (ext : string) : bool :=
  match ext with
  | EmptyString => true
  | String c e => Ascii.eqb c "." && plain e
  end.

(** [c not in s] *)
Fixpoint lacks (c : ascii) (s : string) : bool :=
  match s with
  | EmptyString => true
  | String a s' => negb (Ascii.eqb a c) && lacks c s'
  end.

(** The directories only grow from [s] to [s']: every directory of [s] is
    a directory of [s'] and keeps its entries. *)
Definition grows (s s' : App) : Prop :=
  forall d entries,
    lookup_dir d (fs s) = Some entries ->
    exists entries', lookup_dir d (fs s') = Some entries' /\ incl entries entries'.

(** * More of the program *)

From Stdlib Require Import Permutation Sorted.

(** ** What the tools did *)

(** The run of the command [cmd] returned. *)
Definition succeeded (E : Env) (cmd : list string) : bool :=
  match ffmpeg_run E cmd with
  | Ret _ => true
  | Raise _ => false
  end.

(** The number of commands of a log that returned. *)
Definition count_succeeded (E : Env) (cmds : list (list string)) : Z :=
  Z.of_nat (List.length (filter (succeeded E) cmds)).

(** The log of the tools is the same in [s] and [s']. *)
Definition same_tools (s s' : App) : Prop := tool_log s' = tool_log s.

(** A statement of a turn that starts from the count [n]: it runs at most
    one command, and the count it returns is [n] plus one when the command
    returned; when the statement raises, no command has returned. *)
Definition tallies (E : Env) (n : Z) (m : M Z) : Prop :=
  forall s, exists cmds,
    tool_log (snd (m s)) = (tool_log s ++ cmds)%list
    /\ (List.length cmds <= 1)%nat
    /\ match fst (m s) with
       | Ret n' => n' = n + count_succeeded E cmds
       | Raise _ => count_succeeded E cmds = 0
       end.

(** The state a turn is in once it has reported its progress. *)
Definition reported (i total_videos : Z) (video_path : string) (s : App) : App :=
  set_status_var ("Processing: " ++ path_name video_path)
    (set_progress_var (float_of_Z i / float_of_Z total_videos * 100)%float s).

(** A stream entry that has a [codec_type] other than [video]. *)
Definition other_stream (st : stream) : Prop :=
  exists t, codec_type st = Some t /\ t <> "video".

(** ** The list of videos *)

(** The test of [load_videos] on an entry of the directory:
    [Path(file).suffix.lower() in self.video_extensions]. *)
Definition is_video (file : string) : bool :=
  mem_string (lower (path_suffix file)) video_extensions.

(** [a <= b] on strings, the order of [list.sort()]. *)
Definition string_le (a b : string) : Prop := String.leb a b = true.

(** The application with the rows [v] selected in the list box. *)
Definition set_selection (v : list nat) (a : App) : App :=
  mkApp (video_dir a) (videos a) v (progress_var a) (status_var a)
        (is_processing a) (auto_process_var a) (observer a) (watching a)
        (heap a) (fs a) (dialogs a) (after_queue a) (tool_log a) (threads a)
        (printed a).

(** ** The two steps of [process_new_video] *)

(** The first [try] block of [process_new_video]; the result tells
    whether the function returned from inside it. *)
Definition auto_extract (E : Env) (video_path : string) : M bool :=
  let filename := path_stem video_path in
  try_except
    (ok <- check_ffmpeg E ;;
     if negb ok then ret true
     else
       dir_path <- gets video_dir ;;
       let output_dir := path_join dir_path "last_frames" in
       makedirs E output_dir ;;
       info <- get_video_info E video_path ;;
       match info with
       | (Some dur, Some fps) =>
           frame <- lift (float_div 1 fps) ;;
           if (dur <=? frame)%float then ret true
           else
             seek_offset <- lift (float_div 1 fps) ;;
             reserved <- reserve_output output_dir filename "_last_" ".jpg" ;;
             run_tool E (extract_cmd E seek_offset video_path (snd reserved)) ;;
             ret false
       | _ => ret true
       end)
    (fun e => print ("Error extracting frame from " ++ video_path ++ ": ") (Some e) ;;
              ret false).

(** The second [try] block. *)
Definition auto_trim (E : Env) (video_path : string) : M unit :=
  let filename := path_stem video_path in
  try_except
    (ok <- check_ffmpeg E ;;
     if negb ok then ret tt
     else
       dir_path <- gets video_dir ;;
       let output_dir := path_join dir_path "trimmed_videos" in
       makedirs E output_dir ;;
       info <- get_video_info E video_path ;;
       match info with
       | (Some dur, Some fps) =>
           frame <- lift (float_div 1 fps) ;;
           if (dur <=? frame)%float then ret tt
           else
             frame' <- lift (float_div 1 fps) ;;
             let trim_duration := (dur - frame')%float in
             let ext := path_suffix video_path in
             reserved <- reserve_output output_dir filename "_trimmed_" ext ;;
             run_tool E (trim_cmd E trim_duration video_path (snd reserved))
       | _ => ret tt
       end)
    (fun e => print ("Error trimming " ++ video_path ++ ": ") (Some e)).


(** The application once [os.makedirs(d, exist_ok=True)] has returned. *)
Definition made (d : string) (s : App) : App :=
  match lookup_dir d (fs s) with
  | Some _ => s
  | None => set_fs (update_dir d [] (fs s)) s
  end.

(** ** DirectoryWatcher: the handler of the file-system events *)

(** What [VideoFileHandler.on_created] asks of the rest of the process. *)
Inductive watcher_action : Type :=
| ScheduleLoadVideos
| StartProcessNewVideo (file_path : string)
| PrintThreadWarning (e : pyexn).

(** [on_created(event)], for an event with the given [is_directory] and
    [src_path]; [start] is the outcome of [thread.start()].  The handler
    reads the application and changes none of its fields. *)
Definition on_created (start : outcome unit) (is_directory : bool) (src_path : string)
           (s : App) : list watcher_action :=
  if is_directory then []
  else if mem_string (lower (path_suffix src_path)) video_extensions then
    ScheduleLoadVideos ::
    (if auto_process_var s then
       match start with
       | Ret _ => [StartProcessNewVideo src_path]
       | Raise e => [PrintThreadWarning e]
       end
     else [])
  else [].

(** ** The callbacks the front end runs for a worker *)






(** * Properties *)

(** ** Strings *)

Lemma prefix_nil_r (p : string) : prefix p EmptyString = true -> p = EmptyString.
Proof. destruct p; simpl; [reflexivity | discriminate]. Qed.

Lemma contains_rsplit_last (sep s : string) :
  contains sep s = true <-> exists a b, rsplit_last sep s = Some (a, b).
Proof.
  induction s as [|c s IH]; cbn [contains rsplit_last].
  - rewrite orb_false_r. destruct (prefix sep EmptyString).
    + split; [intros _; do 2 eexists; reflexivity | reflexivity].
    + split; [discriminate | intros (a & b & H); discriminate].
  - destruct (rsplit_last sep s) as [[a b]|].
    + split; [intros _; do 2 eexists; reflexivity|]. intros _.
      rewrite (proj2 IH) by (do 2 eexists; reflexivity). apply orb_true_r.
    + assert (Hc : contains sep s = false).
      { destruct (contains sep s); [|reflexivity].
        destruct (proj1 IH eq_refl) as (a & b & H); discriminate. }
      rewrite Hc, orb_false_r.
      destruct (prefix sep (String c s)).
      * split; [intros _; do 2 eexists; reflexivity | reflexivity].
      * split; [discriminate | intros (a & b & H); discriminate].
Qed.

(** ** OutputNamer *)

Section OutputNamer.

Variables (tag : string).
Hypothesis tag_nonempty : tag <> EmptyString.

(** One turn of the loop raises nothing for a non-empty tag and keeps the
    greater of the number found so far and the number the entry carries. *)
Lemma scan_entry_max (file : string) (m : Z) :
  scan_entry tag file m =
  Ret (match parsed_counter tag file with
       | Some n => Z.max m n
       | None => m
       end).
Proof.
  unfold scan_entry, parsed_counter, rsplit1.
  destruct (contains tag file) eqn:Hc.
  - apply contains_rsplit_last in Hc. destruct Hc as (a & b & Hab).
    rewrite Hab. destruct tag as [|t0 t]; [contradiction|].
    cbn [List.length nth]. change (1 <? Z.of_nat 2) with true. cbv iota.
    destruct (splitext b) as [num_str ext]. cbn [fst].
    destruct (py_int num_str) as [num|]; [|reflexivity].
    rewrite Z.gtb_ltb. destruct (Z.ltb_spec m num); f_equal; lia.
  - destruct (rsplit_last tag file) as [[a b]|] eqn:Hab; [|reflexivity].
    assert (contains tag file = true) by (apply contains_rsplit_last; eauto).
    congruence.
Qed.

Lemma scan_entries_max (files : list string) (m : Z) :
  scan_entries tag files m = Ret (fold_left Z.max (parsed_counters tag files) m).
Proof.
  revert m. induction files as [|file rest IH]; intros m; [reflexivity|].
  cbn [scan_entries]. rewrite scan_entry_max.
  unfold parsed_counters in *. cbn [flat_map]. rewrite fold_left_app.
  destruct (parsed_counter tag file); apply IH.
Qed.

End OutputNamer.

Lemma fold_left_max_ge (l : list Z) (m : Z) : m <= fold_left Z.max l m.
Proof.
  revert m. induction l as [|x l IH]; intros m; cbn [fold_left]; [lia|].
  specialize (IH (Z.max m x)). lia.
Qed.

Lemma fold_left_max_In (l : list Z) (m x : Z) : In x l -> x <= fold_left Z.max l m.
Proof.
  revert m. induction l as [|y l IH]; intros m Hin; [contradiction|].
  cbn [fold_left]. destruct Hin as [->|Hin].
  - pose proof (fold_left_max_ge l (Z.max m x)). lia.
  - apply IH, Hin.
Qed.

Lemma fold_left_max_right (l : list Z) (m : Z) :
  fold_left Z.max l m = fold_right Z.max m l.
Proof.
  revert m. induction l as [|x l IH]; intros m; [reflexivity|].
  cbn [fold_left fold_right]. rewrite IH.
  clear IH. revert m. induction l as [|y l IH]; intros m; cbn [fold_right]; [lia|].
  rewrite IH. lia.
Qed.

Lemma parsed_counters_In (tag file : string) (entries : list string) (n : Z) :
  In file entries -> parsed_counter tag file = Some n ->
  In n (parsed_counters tag entries).
Proof.
  intros Hin Hp. unfold parsed_counters. apply in_flat_map.
  exists file. split; [assumption|]. rewrite Hp. left; reflexivity.
Qed.

(** The empty pattern: [rsplit] raises on the first entry. *)
Lemma scan_entry_empty_pattern (file : string) (m : Z) :
  scan_entry EmptyString file m = Raise ValueError.
Proof. unfold scan_entry. destruct file; reflexivity. Qed.

(** [get_max_counter] on a directory that exists, for a non-empty tag. *)
Lemma get_max_counter_value (s : App) (output_dir tag : string) (entries : list string) :
  tag <> EmptyString ->
  lookup_dir output_dir (fs s) = Some entries ->
  get_max_counter output_dir tag s =
  (Ret (fold_right Z.max 0 (parsed_counters tag entries)), s).
Proof.
  intros Htag Hdir. unfold get_max_counter, bind, listdir, lift.
  rewrite Hdir, (scan_entries_max tag Htag), fold_left_max_right. reflexivity.
Qed.

(** [get_max_counter] reads the directory and writes nothing. *)
Lemma get_max_counter_pure (s : App) (output_dir tag : string) :
  snd (get_max_counter output_dir tag s) = s.
Proof.
  unfold get_max_counter, bind, listdir, lift.
  destruct (lookup_dir output_dir (fs s)); reflexivity.
Qed.

Lemma lookup_update_dir (d : string) (entries : list string)
      (dirs : list (string * list string)) :
  lookup_dir d (update_dir d entries dirs) = Some entries.
Proof.
  induction dirs as [|[d' old] rest IH]; cbn [update_dir lookup_dir].
  - rewrite String.eqb_refl. reflexivity.
  - destruct (String.eqb d d') eqn:Heq; cbn [lookup_dir]; rewrite ?String.eqb_refl, ?Heq;
      [reflexivity | exact IH].
Qed.

Lemma mem_string_In (x : string) (l : list string) :
  mem_string x l = true <-> In x l.
Proof.
  unfold mem_string. rewrite existsb_exists. split.
  - intros (y & Hin & Heq). apply String.eqb_eq in Heq. subst. exact Hin.
  - intros Hin. exists x. split; [exact Hin | apply String.eqb_refl].
Qed.

(** After [touch] the name is an entry of the directory. *)
Lemma touch_creates (d name : string) (s s1 : App) (r : unit) :
  touch d name s = (Ret r, s1) ->
  exists entries, lookup_dir d (fs s1) = Some entries /\ In name entries.
Proof.
  unfold touch. destruct (lookup_dir d (fs s)) as [entries|] eqn:Hdir; [|discriminate].
  destruct (mem_string name entries) eqn:Hmem; intros H; inversion H; subst; clear H.
  - exists entries. split; [exact Hdir | apply mem_string_In, Hmem].
  - exists (entries ++ [name])%list. cbn [fs set_fs]. split.
    + apply lookup_update_dir.
    + apply in_or_app. right. left. reflexivity.
Qed.

Lemma fold_right_max_floor (n : Z) (ns : list Z) :
  fold_right Z.max 0 (n :: ns) = Z.max 0 (fold_right Z.max n ns).
Proof.
  induction ns as [|y ns IH]; cbn [fold_right] in *; lia.
Qed.

Lemma fold_right_max_nonneg (l : list Z) : 0 <= fold_right Z.max 0 l.
Proof. induction l as [|x l IH]; cbn [fold_right]; lia. Qed.

Lemma fold_right_max_In (l : list Z) (x : Z) : In x l -> x <= fold_right Z.max 0 l.
Proof.
  induction l as [|y l IH]; intros Hin; [contradiction|].
  cbn [fold_right]. destruct Hin as [->|Hin]; [lia|]. specialize (IH Hin). lia.
Qed.

Lemma next_counter_contract_aux (s : App) (output_dir tag : string) (entries : list string) :
  tag <> EmptyString ->
  lookup_dir output_dir (fs s) = Some entries ->
  next_counter output_dir tag s =
    (Ret (fold_right Z.max 0 (parsed_counters tag entries) + 1), s).
Proof.
  intros Htag Hdir. unfold next_counter, bind, ret.
  rewrite (get_max_counter_value s output_dir tag entries Htag Hdir). reflexivity.
Qed.

(** C2, as the code has it.  For every directory that exists, with every
    list of entries, and every non-empty tag, the allocated counter
    [get_max_counter + 1] is one more than the greatest of [0] and the
    integers parsed from the remainders after the last occurrence of the
    tag (extension stripped); entries without the tag and remainders that
    do not parse are ignored.  It is the value the contract names,
    [max(parsed) + 1] or [1] when nothing parses, except that it is never
    below [1]: the two agree as soon as one parsed integer is not
    negative, and when none parses the counter is [1]. *)
Theorem next_counter_contract (s : App) (output_dir tag : string) (entries : list string) :
  tag <> EmptyString ->
  lookup_dir output_dir (fs s) = Some entries ->
  next_counter output_dir tag s =
    (Ret (fold_right Z.max 0 (parsed_counters tag entries) + 1), s)
  /\ fold_right Z.max 0 (parsed_counters tag entries) + 1 =
     Z.max 1 (spec_next_counter tag entries)
  /\ ((exists k, In k (parsed_counters tag entries) /\ 0 <= k) ->
      fold_right Z.max 0 (parsed_counters tag entries) + 1 = spec_next_counter tag entries)
  /\ (parsed_counters tag entries = [] ->
      fold_right Z.max 0 (parsed_counters tag entries) + 1 = 1).
Proof.
  intros Htag Hdir.
  assert (Hfloor : fold_right Z.max 0 (parsed_counters tag entries) + 1 =
                   Z.max 1 (spec_next_counter tag entries)).
  { unfold spec_next_counter. destruct (parsed_counters tag entries) as [|n ns].
    - reflexivity.
    - rewrite fold_right_max_floor. lia. }
  split; [|split; [exact Hfloor|split]].
  - apply next_counter_contract_aux; assumption.
  - intros (k & Hin & Hk). rewrite Hfloor.
    unfold spec_next_counter in *. destruct (parsed_counters tag entries) as [|n ns].
    + contradiction.
    + assert (k <= fold_right Z.max n ns).
      { clear Hfloor. destruct Hin as [->|Hin].
        - clear. induction ns as [|y ns IH]; cbn [fold_right]; lia.
        - clear Hk. induction ns as [|y ns IH]; [contradiction|].
          cbn [fold_right]. destruct Hin as [->|Hin]; [lia|]. specialize (IH Hin). lia. }
      lia.
  - intros ->. reflexivity.
Qed.

Lemma next_counter_contract_witness :
  next_counter "out" "_last_" frames_dir = (Ret 3, frames_dir).
Proof.
  exact (proj1 (next_counter_contract frames_dir "out" "_last_"
                  ["a_last_1.jpg"; "notes.txt"; "b_last_2.jpg"; "c_last_x.jpg"]
                  ltac:(discriminate) eq_refl)).
Defined.

(** C2 as stated fails on a directory whose only numbered entry carries a
    negative number: the contract's [max(parsed) + 1] is [-2], the code
    allocates [1]. *)
Lemma next_counter_negative_suffix :
  fst (next_counter "out" "_last_" (set_fs [("out", ["clip_last_-3.jpg"])] init_app)) = Ret 1
  /\ spec_next_counter "_last_" ["clip_last_-3.jpg"] = -2.
Proof. split; reflexivity. Qed.

(** C8.  Allocation reads the directory and writes nothing: for every
    application state, directory and tag, [next_counter] leaves the state as
    it found it, a second call right after the first has the outcome of the
    first, and more generally two calls made on states whose directory holds
    the same entries have the same outcome. *)
Theorem next_counter_idempotent (s : App) (output_dir tag : string) :
  snd (next_counter output_dir tag s) = s
  /\ fst (next_counter output_dir tag (snd (next_counter output_dir tag s))) =
     fst (next_counter output_dir tag s)
  /\ forall s' : App,
       lookup_dir output_dir (fs s') = lookup_dir output_dir (fs s) ->
       fst (next_counter output_dir tag s') = fst (next_counter output_dir tag s).
Proof.
  assert (Hpure : forall a : App, snd (next_counter output_dir tag a) = a).
  { intros a. pose proof (get_max_counter_pure a output_dir tag) as Hp.
    unfold next_counter, bind, ret.
    destruct (get_max_counter output_dir tag a) as [[n|e] a']; exact Hp. }
  split; [apply Hpure | split].
  - rewrite Hpure. reflexivity.
  - intros s' Hsame.
    unfold next_counter, get_max_counter, bind, listdir, lift, ret.
    rewrite Hsame. destruct (lookup_dir output_dir (fs s)) as [entries|]; [|reflexivity].
    destruct (scan_entries tag entries 0); reflexivity.
Qed.

Lemma next_counter_idempotent_witness :
  fst (next_counter "out" "_last_" (set_status_var "Ready" frames_dir)) =
  fst (next_counter "out" "_last_" frames_dir).
Proof.
  exact (proj2 (proj2 (next_counter_idempotent frames_dir "out" "_last_"))
           (set_status_var "Ready" frames_dir) eq_refl).
Defined.

(** A value returned by [get_max_counter] is never below [0], where the
    maximum starts. *)
Lemma get_max_counter_ret_nonneg (s s' : App) (output_dir tag : string) (n : Z) :
  get_max_counter output_dir tag s = (Ret n, s') -> 0 <= n.
Proof.
  intros Hret.
  destruct (lookup_dir output_dir (fs s)) as [entries|] eqn:Hdir.
  - destruct tag as [|t0 t].
    + unfold get_max_counter, bind, listdir, lift in Hret. rewrite Hdir in Hret.
      destruct entries as [|file rest].
      * inversion Hret. lia.
      * cbn [scan_entries] in Hret. rewrite scan_entry_empty_pattern in Hret.
        discriminate.
    + rewrite (get_max_counter_value s output_dir _ entries) in Hret
        by (discriminate || assumption).
      inversion Hret. subst.
      apply fold_right_max_nonneg.
  - unfold get_max_counter, bind, listdir in Hret. rewrite Hdir in Hret. discriminate.
Qed.

(** C9.  Whatever the directory holds, a value returned by
    [get_max_counter] is at least [0], so an allocated counter is at least
    [1]; the function does return on every directory that exists, for every
    non-empty tag (on the empty pattern, which no caller passes, [rsplit]
    raises [ValueError]).  A remainder such as [-3] is accepted by the
    integer parse and is not ignored as non-numeric, but it cannot bring the
    result below [0], where the maximum starts. *)
Theorem get_max_counter_nonneg :
  (forall (s s' : App) (output_dir tag : string) (n : Z),
      get_max_counter output_dir tag s = (Ret n, s') -> 0 <= n /\ 1 <= n + 1)
  /\ (forall (s : App) (output_dir tag : string) (entries : list string),
        tag <> EmptyString ->
        lookup_dir output_dir (fs s) = Some entries ->
        exists n, get_max_counter output_dir tag s = (Ret n, s) /\ 0 <= n
                  /\ next_counter output_dir tag s = (Ret (n + 1), s))
  /\ parsed_counter "_last_" "clip_last_-3.jpg" = Some (-3)
  /\ fst (get_max_counter "out" "_last_"
            (set_fs [("out", ["clip_last_-3.jpg"])] init_app)) = Ret 0.
Proof.
  split; [|split; [|split; reflexivity]].
  - intros s s' output_dir tag n Hret.
    pose proof (get_max_counter_ret_nonneg _ _ _ _ _ Hret). lia.
  - intros s output_dir tag entries Htag Hdir.
    exists (fold_right Z.max 0 (parsed_counters tag entries)).
    split; [apply get_max_counter_value; assumption|].
    split; [apply fold_right_max_nonneg|].
    apply next_counter_contract_aux; assumption.
Qed.

Lemma get_max_counter_nonneg_witness :
  exists n, get_max_counter "out" "_last_" frames_dir = (Ret n, frames_dir) /\ 0 <= n
            /\ next_counter "out" "_last_" frames_dir = (Ret (n + 1), frames_dir).
Proof.
  exact (proj1 (proj2 get_max_counter_nonneg) frames_dir "out" "_last_"
           ["a_last_1.jpg"; "notes.txt"; "b_last_2.jpg"; "c_last_x.jpg"]
           ltac:(discriminate) eq_refl).
Defined.

(** The last occurrence of the empty string is at the end: nothing remains
    after it, so no entry carries a number for the empty tag. *)
Lemma rsplit_last_empty (s : string) : rsplit_last EmptyString s = Some (s, EmptyString).
Proof. induction s as [|c s IH]; cbn [rsplit_last]; [reflexivity | rewrite IH; reflexivity]. Qed.

Lemma parsed_counter_tag_nonempty (tag file : string) (n : Z) :
  parsed_counter tag file = Some n -> tag <> EmptyString.
Proof.
  intros Hp ->. unfold parsed_counter in Hp. rewrite rsplit_last_empty in Hp.
  discriminate.
Qed.

(** ** The names the callers build parse to their counter *)

Lemma int_digits_uint_acc (l : Decimal.uint) (acc : positive) :
  int_digits (NilEmpty.string_of_uint l) (Z.pos acc) false =
  Some (Z.pos (Pos.of_uint_acc l acc)).
Proof.
  revert acc. induction l; intros acc; cbn [NilEmpty.string_of_uint Pos.of_uint_acc];
    [reflexivity | ..];
    cbn [int_digits]; cbv [digit_value];
    match goal with
    | |- context [nat_of_ascii ?c] =>
        let v := eval vm_compute in (nat_of_ascii c) in
        change (nat_of_ascii c) with v
    end;
    cbv beta iota zeta; cbn [Nat.leb andb];
    match goal with
    | |- int_digits _ ?z false = Some (Z.pos (Pos.of_uint_acc _ ?p)) =>
        replace z with (Z.pos p) by lia
    end;
    apply IHl.
Qed.

Lemma int_digits_uint (l : Decimal.uint) :
  int_digits (NilEmpty.string_of_uint l) 0 false = Some (Z.of_N (Pos.of_uint l)).
Proof.
  induction l; cbn [NilEmpty.string_of_uint Pos.of_uint]; [reflexivity | ..];
    cbn [int_digits]; cbv [digit_value];
    match goal with
    | |- context [nat_of_ascii ?c] =>
        let v := eval vm_compute in (nat_of_ascii c) in
        change (nat_of_ascii c) with v
    end;
    cbv beta iota zeta; cbn [Nat.leb andb Z.of_nat Z.mul Z.add Z.sub Z.of_N];
    first [ exact IHl | apply int_digits_uint_acc ].
Qed.

(** On a string that starts with a digit [int()] reads the digits. *)
Lemma py_int_digits (c : ascii) (r : string) (d : Z) :
  digit_value c = Some d ->
  py_int (String c r) = int_digits (String c r) 0 false.
Proof.
  intros Hd. unfold py_int. cbn [lstrip int_digits].
  assert (Hsp : is_space c = false).
  { revert Hd. destruct c as [[] [] [] [] [] [] [] []]; vm_compute; congruence. }
  rewrite Hsp.
  assert (Hsign : (let '(neg, s2) :=
                    match String c r with
                    | String "+" r0 => (false, r0)
                    | String "-" r0 => (true, r0)
                    | _ => (false, String c r)
                    end in (neg, s2)) = (false, String c r)).
  { revert Hd. destruct c as [[] [] [] [] [] [] [] []]; vm_compute; congruence. }
  revert Hsign. 
  destruct (match String c r with
            | String "+" r0 => (false, r0)
            | String "-" r0 => (true, r0)
            | _ => (false, String c r)
            end) as [neg s2].
  intros Hsign. inversion Hsign; subst. rewrite Hd. cbn [Z.mul Z.add].
  destruct (int_digits r d false); reflexivity.
Qed.

Lemma uint_first_digit (u : Decimal.uint) :
  u <> Decimal.Nil ->
  exists c r d, NilEmpty.string_of_uint u = String c r /\ digit_value c = Some d
                /\ plain_char c = true.
Proof.
  intros Hu. destruct u; [contradiction | ..];
    cbn [NilEmpty.string_of_uint]; do 3 eexists; (split; [reflexivity|]);
    split; vm_compute; reflexivity.
Qed.

Lemma py_int_uint (u : Decimal.uint) :
  u <> Decimal.Nil ->
  py_int (NilEmpty.string_of_uint u) = Some (Z.of_N (Pos.of_uint u))
  /\ py_int (String "-" (NilEmpty.string_of_uint u)) = Some (- Z.of_N (Pos.of_uint u)).
Proof.
  intros Hu. destruct (uint_first_digit u Hu) as (c & r & d & Hs & Hd & _).
  pose proof (int_digits_uint u) as Hval. rewrite Hs in *.
  split.
  - rewrite (py_int_digits c r d Hd). exact Hval.
  - unfold py_int. cbn [lstrip]. change (is_space "-") with false. cbv iota.
    rewrite Hd. cbn [int_digits] in Hval. rewrite Hd in Hval.
    cbn [Z.mul Z.add] in Hval. rewrite Hval. reflexivity.
Qed.

Lemma string_of_uint_nonnil (u : Decimal.uint) :
  u <> Decimal.Nil -> NilZero.string_of_uint u = NilEmpty.string_of_uint u.
Proof. intros Hu. destruct u; [contradiction | reflexivity ..]. Qed.

(** [int(str(c)) == c] *)
Lemma py_int_str_of_Z (c : Z) : py_int (str_of_Z c) = Some c.
Proof.
  unfold str_of_Z. destruct c as [|p|p]; cbn [Z.to_int NilZero.string_of_int].
  - reflexivity.
  - pose proof (DecimalPos.Unsigned.to_uint_nonnil p) as Hnn.
    rewrite (string_of_uint_nonnil _ Hnn), (proj1 (py_int_uint _ Hnn)).
    rewrite DecimalPos.Unsigned.of_to. reflexivity.
  - pose proof (DecimalPos.Unsigned.to_uint_nonnil p) as Hnn.
    rewrite (string_of_uint_nonnil _ Hnn), (proj2 (py_int_uint _ Hnn)).
    rewrite DecimalPos.Unsigned.of_to. reflexivity.
Qed.

Lemma uint_plain (u : Decimal.uint) : plain (NilEmpty.string_of_uint u) = true.
Proof. induction u; cbn [NilEmpty.string_of_uint plain]; [reflexivity | exact IHu ..]. Qed.

(** [str(c)] is not empty, is made of plain characters, and starts with a
    digit or the minus sign. *)
Lemma str_of_Z_shape (c : Z) :
  exists a w, str_of_Z c = String a w /\ plain (String a w) = true
              /\ (digit_value a <> None \/ a = "-"%char).
Proof.
  unfold str_of_Z. destruct c as [|p|p]; cbn [Z.to_int NilZero.string_of_int].
  - exists "0"%char, EmptyString. split; [reflexivity|]. split; [reflexivity|].
    left. discriminate.
  - pose proof (DecimalPos.Unsigned.to_uint_nonnil p) as Hnn.
    rewrite (string_of_uint_nonnil _ Hnn).
    destruct (uint_first_digit _ Hnn) as (a & w & d & Hs & Hd & _).
    exists a, w. split; [exact Hs|]. split; [rewrite <- Hs; apply uint_plain|].
    left. congruence.
  - pose proof (DecimalPos.Unsigned.to_uint_nonnil p) as Hnn.
    rewrite (string_of_uint_nonnil _ Hnn).
    exists "-"%char, (NilEmpty.string_of_uint (Pos.to_uint p)).
    split; [reflexivity|]. split; [|right; reflexivity].
    cbn [plain]. rewrite uint_plain. reflexivity.
Qed.

Lemma plain_app (s1 s2 : string) : plain (s1 ++ s2) = plain s1 && plain s2.
Proof.
  induction s1 as [|c s1 IH]; cbn [append plain]; [reflexivity|].
  rewrite IH. apply andb_assoc.
Qed.

Lemma plain_lacks (s : string) :
  plain s = true ->
  lacks "_" s = true /\ lacks "." s = true /\ lacks "/" s = true.
Proof.
  induction s as [|c s IH]; cbn [plain lacks]; [repeat split|].
  intros H. apply andb_true_iff in H. destruct H as [Hc Hs].
  destruct (IH Hs) as (H1 & H2 & H3). rewrite H1, H2, H3.
  unfold plain_char in Hc. apply negb_true_iff in Hc.
  apply orb_false_iff in Hc. destruct Hc as [Hc H3c].
  apply orb_false_iff in Hc. destruct Hc as [H1c H2c].
  rewrite H1c, H2c, H3c. repeat split.
Qed.

Lemma lacks_app (c : ascii) (s1 s2 : string) :
  lacks c (s1 ++ s2) = lacks c s1 && lacks c s2.
Proof.
  induction s1 as [|a s1 IH]; cbn [append lacks]; [reflexivity|].
  rewrite IH. apply andb_assoc.
Qed.

(** A separator does not occur in a string that lacks its first
    character. *)
Lemma rsplit_last_lacks (c : ascii) (t s : string) :
  lacks c s = true -> rsplit_last (String c t) s = None.
Proof.
  induction s as [|a s IH]; cbn [lacks rsplit_last prefix]; [reflexivity|].
  intros H. apply andb_true_iff in H. destruct H as [Ha Hs].
  rewrite (IH Hs). destruct (ascii_dec c a) as [->|Hne]; [|reflexivity].
  rewrite Ascii.eqb_refl in Ha. discriminate.
Qed.

Lemma rsplit_last_stem (tag stem t rest : string) :
  rsplit_last tag t = Some (EmptyString, rest) ->
  rsplit_last tag (stem ++ t) = Some (stem, rest).
Proof.
  intros Ht. induction stem as [|c stem IH]; cbn [append rsplit_last]; [exact Ht|].
  rewrite IH. reflexivity.
Qed.

Lemma rfind_from_lacks (c : ascii) (s : string) (i found : Z) :
  lacks c s = true -> rfind_from c s i found = found.
Proof.
  revert i found. induction s as [|a s IH]; intros i found; cbn [lacks rfind_from];
    [reflexivity|].
  intros H. apply andb_true_iff in H. destruct H as [Ha Hs].
  apply negb_true_iff in Ha. rewrite Ha. apply IH, Hs.
Qed.

Lemma rfind_from_last (c : ascii) (s1 s2 : string) (i found : Z) :
  lacks c s2 = true ->
  rfind_from c (s1 ++ String c s2) i found = i + Z.of_nat (String.length s1).
Proof.
  revert i found. induction s1 as [|a s1 IH]; intros i found Hs2.
  - cbn [append rfind_from String.length]. rewrite Ascii.eqb_refl.
    rewrite rfind_from_lacks by exact Hs2. cbn. lia.
  - cbn [append rfind_from String.length]. rewrite IH by exact Hs2. lia.
Qed.

Lemma take_app_length (s1 s2 : string) : take (String.length s1) (s1 ++ s2) = s1.
Proof.
  induction s1 as [|a s1 IH]; cbn [String.length append take].
  - destruct s2; reflexivity.
  - rewrite IH. reflexivity.
Qed.

Lemma drop_app_length (s1 s2 : string) : drop (String.length s1) (s1 ++ s2) = s2.
Proof.
  induction s1 as [|a s1 IH]; cbn [String.length append drop]; [reflexivity | exact IH].
Qed.

Lemma append_empty_r (s : string) : s ++ EmptyString = s.
Proof. induction s as [|a s IH]; cbn [append]; [reflexivity | rewrite IH; reflexivity]. Qed.

(** [splitext] takes a plain extension off a plain, non-empty name. *)
Lemma splitext_plain (a : ascii) (w ext : string) :
  plain (String a w) = true ->
  plain_ext ext = true ->
  splitext (String a w ++ ext) = (String a w, ext).
Proof.
  intros Hnum Hext. destruct (plain_lacks _ Hnum) as (_ & Hdot & Hslash).
  assert (Ha : String.eqb (String a EmptyString) "." = false).
  { cbn [plain] in Hnum. apply andb_true_iff in Hnum. destruct Hnum as [Hc _].
    unfold plain_char in Hc. apply negb_true_iff in Hc.
    apply orb_false_iff in Hc. destruct Hc as [Hc _].
    apply orb_false_iff in Hc. destruct Hc as [_ Hc].
    cbn [String.eqb]. rewrite Hc. reflexivity. }
  unfold splitext, rfind. destruct ext as [|c e].
  - rewrite append_empty_r, !rfind_from_lacks by assumption. reflexivity.
  - cbn [plain_ext] in Hext. apply andb_true_iff in Hext. destruct Hext as [Hc He].
    apply Ascii.eqb_eq in Hc. subst c.
    destruct (plain_lacks _ He) as (_ & Hedot & Heslash).
    rewrite (rfind_from_last "." (String a w) e 0 (-1) Hedot).
    assert (Hp : lacks "/" (String a w ++ String "." e) = true).
    { rewrite lacks_app, Hslash. cbn [andb]. unfold lacks at 1. fold lacks.
      rewrite Heslash. reflexivity. }
    rewrite (rfind_from_lacks "/" _ 0 (-1) Hp).
    replace (0 + Z.of_nat (String.length (String a w)) >? -1) with true
      by (symmetry; rewrite Z.gtb_ltb; apply Z.ltb_lt; lia).
    replace (Z.to_nat (0 + Z.of_nat (String.length (String a w))))
      with (String.length (String a w)) by lia.
    rewrite take_app_length, drop_app_length.
    cbn [append String.length splitext_scan].
    replace (-1 + 1 <? 0 + Z.of_nat (S (String.length w))) with true
      by (symmetry; apply Z.ltb_lt; lia).
    cbv iota.
    unfold char_at. change (-1 + 1) with 0. cbn [Z.to_nat drop take].
    rewrite Ha. reflexivity.
Qed.

Lemma prefix_cons_ne (c d : ascii) (t s : string) :
  c <> d -> prefix (String c t) (String d s) = false.
Proof. intros Hne. cbn [prefix]. destruct (ascii_dec c d); [contradiction | reflexivity]. Qed.

Lemma prefix_cons_eq (c : ascii) (t s : string) :
  prefix (String c t) (String c s) = prefix t s.
Proof. cbn [prefix]. destruct (ascii_dec c c); [reflexivity | contradiction]. Qed.

(** After the tag, no later occurrence of it: the rest has no underscore
    and does not start as the tag goes on. *)
Lemma rsplit_last_at_tag (tag rest : string) (a : ascii) (w : string) :
  tag = "_last_" \/ tag = "_trimmed_" ->
  rest = String a w ->
  lacks "_" rest = true ->
  (digit_value a <> None \/ a = "-"%char) ->
  rsplit_last tag (tag ++ rest) = Some (EmptyString, rest).
Proof.
  intros Htag Hrest Hlacks Ha.
  assert (Hl : a <> "l"%char /\ a <> "t"%char).
  { destruct Ha as [Ha|Ha]; split; intros Heq;
      first [ rewrite Heq in Ha; discriminate Ha
            | rewrite Heq in Ha; apply Ha; reflexivity ]. }
  destruct Hl as [Hl Ht].
  assert (Hpl : prefix "last_" rest = false /\ prefix "trimmed_" rest = false).
  { rewrite Hrest. split; apply prefix_cons_ne; congruence. }
  destruct Hpl as [Hpl Hpt]. clear Hrest.
  destruct Htag as [-> | ->]; cbn [append rsplit_last];
    rewrite (rsplit_last_lacks "_" _ _ Hlacks); cbn [String.length drop];
    rewrite ?prefix_cons_eq, ?Hpl, ?Hpt;
    repeat (rewrite prefix_cons_ne by discriminate; cbv iota);
    rewrite ?prefix_cons_eq; destruct rest; reflexivity.
Qed.

(** The names the callers build, [<stem><tag><counter><ext>], carry their
    counter: the remainder after the last occurrence of the tag parses to
    it, whatever the stem. *)
Lemma reserved_name_parses (stem tag ext : string) (c : Z) :
  tag = "_last_" \/ tag = "_trimmed_" ->
  plain_ext ext = true ->
  parsed_counter tag (stem ++ tag ++ str_of_Z c ++ ext) = Some c.
Proof.
  intros Htag Hext.
  destruct (str_of_Z_shape c) as (a & w & Hs & Hplain & Ha).
  assert (Hrest : lacks "_" (String a w ++ ext) = true).
  { rewrite lacks_app. destruct (plain_lacks _ Hplain) as (H1 & _ & _). rewrite H1.
    destruct ext as [|x e]; [reflexivity|]. cbn [plain_ext] in Hext.
    apply andb_true_iff in Hext. destruct Hext as [Hx He].
    apply Ascii.eqb_eq in Hx. subst x. destruct (plain_lacks _ He) as (H2 & _ & _).
    cbn [andb]. unfold lacks at 1. fold lacks. rewrite H2. reflexivity. }
  unfold parsed_counter.
  rewrite (rsplit_last_stem tag stem (tag ++ str_of_Z c ++ ext) (str_of_Z c ++ ext)).
  - rewrite Hs, (splitext_plain a w ext Hplain Hext). cbn [fst].
    rewrite <- Hs. apply py_int_str_of_Z.
  - rewrite Hs in *. eapply (rsplit_last_at_tag tag _ a (w ++ ext)); try assumption.
    reflexivity.
Qed.

Lemma lower_char_plain (c : ascii) :
  plain_char (lower_char c) = plain_char c
  /\ Ascii.eqb (lower_char c) "." = Ascii.eqb c ".".
Proof. destruct c as [[] [] [] [] [] [] [] []]; split; reflexivity. Qed.

Lemma lower_plain (s : string) : plain (lower s) = plain s.
Proof.
  induction s as [|c s IH]; cbn [lower plain]; [reflexivity|].
  rewrite IH, (proj1 (lower_char_plain c)). reflexivity.
Qed.

(** The extensions of the files the application lists, in any case, and
    the extension of a frame are plain. *)
Lemma video_extension_plain (ext : string) :
  mem_string (lower ext) video_extensions = true \/ ext = ".jpg" ->
  plain_ext ext = true.
Proof.
  intros [Hmem | ->]; [|reflexivity].
  assert (Hlow : plain_ext (lower ext) = true).
  { apply mem_string_In in Hmem. cbn [video_extensions In] in Hmem.
    repeat (destruct Hmem as [<- | Hmem]; [reflexivity|]). contradiction. }
  destruct ext as [|c e]; [reflexivity|]. cbn [lower plain_ext] in *.
  rewrite lower_plain, (proj2 (lower_char_plain c)) in Hlow. exact Hlow.
Qed.

(** ** Reservation *)

(** An entry that carries the number [k] pushes every allocation made while
    it is there above [k]. *)
Lemma next_counter_above_entry (s : App) (output_dir tag file : string)
      (entries : list string) (k : Z) :
  lookup_dir output_dir (fs s) = Some entries ->
  In file entries ->
  parsed_counter tag file = Some k ->
  exists n, next_counter output_dir tag s = (Ret n, s) /\ k < n.
Proof.
  intros Hdir Hin Hp.
  pose proof (parsed_counter_tag_nonempty _ _ _ Hp) as Htag.
  eexists. split; [apply next_counter_contract_aux; eassumption|].
  pose proof (fold_right_max_In _ _ (parsed_counters_In _ _ _ _ Hin Hp)). lia.
Qed.

(** What a successful [reserve_output] did: the counter is one more than
    what [get_max_counter] returned on the state before, and the name built
    from it is an entry of the directory afterwards. *)
Lemma reserve_output_inv (s s1 : App) (output_dir filename tag ext p : string) (c : Z) :
  reserve_output output_dir filename tag ext s = (Ret (c, p), s1) ->
  get_max_counter output_dir tag s = (Ret (c - 1), s)
  /\ p = path_join output_dir (filename ++ tag ++ str_of_Z c ++ ext)
  /\ exists entries1, lookup_dir output_dir (fs s1) = Some entries1
                      /\ In (filename ++ tag ++ str_of_Z c ++ ext) entries1.
Proof.
  unfold reserve_output, bind, ret. intros H.
  pose proof (get_max_counter_pure s output_dir tag) as Hpure.
  destruct (get_max_counter output_dir tag s) as [[m|e] s0]; [|discriminate].
  cbn [snd] in Hpure. subst s0.
  destruct (touch output_dir (filename ++ tag ++ str_of_Z (m + 1) ++ ext) s)
    as [[[]|e] s'] eqn:Htouch; [|discriminate].
  inversion H; subst; clear H.
  replace (m + 1 - 1) with m by lia.
  split; [reflexivity | split; [reflexivity|]].
  eapply touch_creates; eassumption.
Qed.

(** ** StabilityGate *)

Section StabilityGate.

Variables (polls : nat -> option N) (max_wait check_interval : Z).
Hypothesis interval_positive : 0 < check_interval.

(** Whether poll [k] is a stable observation is what the loop tests. *)
Lemma stable_at_test (k : nat) :
  stable_at polls k <->
  exists size, polls k = Some size /\
               (Z.of_N size =? previously_observed polls k) && (Z.of_N size >? 0) = true.
Proof.
  unfold stable_at. split; intros (size & Hp & H); exists size; (split; [exact Hp|]).
  - destruct H as [Hnz Heq]. apply andb_true_iff. split.
    + apply Z.eqb_eq, Heq.
    + rewrite Z.gtb_ltb. apply Z.ltb_lt. lia.
  - apply andb_true_iff in H. destruct H as [Heq Hgt].
    apply Z.eqb_eq in Heq. rewrite Z.gtb_ltb in Hgt. apply Z.ltb_lt in Hgt.
    split; [lia | exact Heq].
Qed.

(** The loop from turn [k], entered at the time and with the last size the
    earlier turns leave: it returns [True] half a second after the first
    stable observation inside the window, and [False] once the window has
    passed when there is none. *)
Lemma wait_loop_spec (fuel k : nat) :
  max_wait - Z.of_nat k <= Z.of_nat fuel ->
  let r := wait_loop fuel polls max_wait check_interval k
                     (Z.of_nat k * check_interval) (previously_observed polls k) in
  (exists j, (k <= j)%nat /\ Z.of_nat j * check_interval < max_wait /\ stable_at polls j
             /\ (forall i, (k <= i < j)%nat -> ~ stable_at polls i)
             /\ r = (true, Z.of_nat j * check_interval + 500))
  \/ ((forall j, (k <= j)%nat -> Z.of_nat j * check_interval < max_wait ->
                 ~ stable_at polls j)
      /\ fst r = false /\ max_wait <= snd r).
Proof.
  revert k. induction fuel as [|fuel IH]; intros k Hfuel; cbn zeta.
  - right. cbn [wait_loop fst snd]. split; [|split; [reflexivity|nia]].
    intros j Hj Hlt. nia.
  - cbn [wait_loop].
    destruct (Z.ltb_spec (Z.of_nat k * check_interval) max_wait) as [Hin|Hout].
    + assert (Hnext : Z.of_nat k * check_interval + check_interval =
                      Z.of_nat (S k) * check_interval) by lia.
      assert (Hfuel' : max_wait - Z.of_nat (S k) <= Z.of_nat fuel) by lia.
      destruct (polls k) as [size|] eqn:Hp.
      * cbn zeta.
        destruct ((Z.of_N size =? previously_observed polls k) && (Z.of_N size >? 0))
          eqn:Htest.
        -- left. exists k. split; [lia|]. split; [exact Hin|]. split.
           ++ apply stable_at_test. exists size. split; assumption.
           ++ split; [intros i Hi; lia | reflexivity].
        -- rewrite Hnext.
           replace (Z.of_N size) with (previously_observed polls (S k))
             by (cbn [previously_observed]; rewrite Hp; reflexivity).
           assert (Hk : ~ stable_at polls k).
           { intros Hs. apply stable_at_test in Hs. destruct Hs as (sz & Hsz & Ht).
             rewrite Hp in Hsz. inversion Hsz; subst. congruence. }
           specialize (IH (S k) Hfuel'). cbn zeta in IH.
           destruct IH as [(j & Hj & Hlt & Hst & Hfirst & Hr)|(Hnone & Hr)].
           ++ left. exists j. split; [lia|]. split; [exact Hlt|]. split; [exact Hst|].
              split; [|exact Hr]. intros i Hi.
              destruct (Nat.eq_dec i k) as [->|Hne]; [exact Hk | apply Hfirst; lia].
           ++ right. split; [|exact Hr]. intros j Hj Hlt.
              destruct (Nat.eq_dec j k) as [->|Hne]; [exact Hk | apply Hnone; [lia|exact Hlt]].
      * rewrite Hnext.
        replace (previously_observed polls k) with (previously_observed polls (S k))
          by (cbn [previously_observed]; rewrite Hp; reflexivity).
        assert (Hk : ~ stable_at polls k).
        { intros (sz & Hsz & _). congruence. }
        specialize (IH (S k) Hfuel'). cbn zeta in IH.
        destruct IH as [(j & Hj & Hlt & Hst & Hfirst & Hr)|(Hnone & Hr)].
        -- left. exists j. split; [lia|]. split; [exact Hlt|]. split; [exact Hst|].
           split; [|exact Hr]. intros i Hi.
           destruct (Nat.eq_dec i k) as [->|Hne]; [exact Hk | apply Hfirst; lia].
        -- right. split; [|exact Hr]. intros j Hj Hlt.
           destruct (Nat.eq_dec j k) as [->|Hne]; [exact Hk | apply Hnone; [lia|exact Hlt]].
    + right. cbn [fst snd]. split; [|split; [reflexivity|lia]].
      intros j Hj Hlt. nia.
Qed.

(** More turns than the window can hold change nothing. *)
Lemma wait_loop_fuel (fuel fuel' k : nat) (now last_size : Z) :
  max_wait - now <= Z.of_nat fuel ->
  max_wait - now <= Z.of_nat fuel' ->
  wait_loop fuel polls max_wait check_interval k now last_size =
  wait_loop fuel' polls max_wait check_interval k now last_size.
Proof.
  revert fuel' k now last_size.
  induction fuel as [|fuel IH]; intros fuel' k now last_size H1 H2.
  - destruct fuel' as [|fuel']; [reflexivity|]. cbn [wait_loop].
    destruct (Z.ltb_spec now max_wait); [lia | reflexivity].
  - destruct fuel' as [|fuel']; cbn [wait_loop].
    + destruct (Z.ltb_spec now max_wait); [lia | reflexivity].
    + destruct (Z.ltb_spec now max_wait); [|reflexivity].
      destruct (polls k) as [size|]; cbn zeta.
      * destruct ((Z.of_N size =? last_size) && (Z.of_N size >? 0)); [reflexivity|].
        apply IH; lia.
      * apply IH; lia.
Qed.

(** C7.  With a positive polling interval, for every sequence of polled
    sizes: the gate returns Ready exactly when some poll inside the
    [max_wait] window observes a size that is nonzero and equal to the
    previously observed size; it then returns half a second after the first
    such poll.  A poll that raises [OSError] is not a stable observation and
    the loop goes on to the next poll with the last observed size kept.
    When no stable observation occurs inside the window the gate returns
    NotReady, not before [max_wait] has elapsed.  The bound on the number
    of turns plays no part in the result. *)
Theorem wait_for_file_ready_stable :
  (fst (wait_for_file_ready polls max_wait check_interval) = true <->
   exists k, Z.of_nat k * check_interval < max_wait /\ stable_at polls k)
  /\ (forall k, Z.of_nat k * check_interval < max_wait -> stable_at polls k ->
                (forall i, (i < k)%nat -> ~ stable_at polls i) ->
                wait_for_file_ready polls max_wait check_interval =
                (true, Z.of_nat k * check_interval + 500))
  /\ (forall (fuel k : nat) (now last_size : Z),
         now < max_wait -> polls k = None ->
         ~ stable_at polls k
         /\ wait_loop (S fuel) polls max_wait check_interval k now last_size =
            wait_loop fuel polls max_wait check_interval (S k) (now + check_interval) last_size)
  /\ ((forall k, Z.of_nat k * check_interval < max_wait -> ~ stable_at polls k) ->
      fst (wait_for_file_ready polls max_wait check_interval) = false
      /\ max_wait <= snd (wait_for_file_ready polls max_wait check_interval))
  /\ (forall fuel, max_wait <= Z.of_nat fuel ->
                   wait_loop fuel polls max_wait check_interval 0 0 (-1) =
                   wait_for_file_ready polls max_wait check_interval).
Proof.
  pose proof (wait_loop_spec (Z.to_nat max_wait) 0 ltac:(lia)) as Hspec.
  cbn zeta in Hspec. change (Z.of_nat 0 * check_interval) with 0 in Hspec.
  change (previously_observed polls 0) with (-1) in Hspec.
  fold (wait_for_file_ready polls max_wait check_interval) in Hspec.
  split; [|split; [|split; [|split]]].
  - split.
    + intros Htrue. destruct Hspec as [(j & _ & Hlt & Hst & _)|(_ & Hfalse & _)].
      * exists j. split; assumption.
      * congruence.
    + intros (k & Hlt & Hst). destruct Hspec as [(j & _ & _ & _ & _ & Hr)|(Hnone & _)].
      * rewrite Hr. reflexivity.
      * exfalso. apply (Hnone k); [lia | exact Hlt | exact Hst].
  - intros k Hlt Hst Hfirst. destruct Hspec as [(j & _ & Hjlt & Hjst & Hjfirst & Hr)|(Hnone & _)].
    + assert (j = k).
      { destruct (Nat.lt_trichotomy j k) as [Hjk|[Hjk|Hjk]]; [|exact Hjk|].
        - exfalso. apply (Hfirst j Hjk Hjst).
        - exfalso. apply (Hjfirst k); [lia | exact Hst]. }
      subst j. exact Hr.
    + exfalso. apply (Hnone k); [lia | exact Hlt | exact Hst].
  - intros fuel k now last_size Hnow Hp. split.
    + intros (size & Hsz & _). congruence.
    + cbn [wait_loop]. rewrite Hp.
      destruct (Z.ltb_spec now max_wait); [reflexivity | lia].
  - intros Hnone. destruct Hspec as [(j & _ & Hlt & Hst & _)|(_ & Hr)].
    + exfalso. apply (Hnone j Hlt Hst).
    + exact Hr.
  - intros fuel Hfuel. unfold wait_for_file_ready. apply wait_loop_fuel; lia.
Qed.

End StabilityGate.

Lemma wait_for_file_ready_stable_witness :
  wait_for_file_ready steady_file 60000 1000 = (true, 1500).
Proof.
  refine (proj1 (proj2 (wait_for_file_ready_stable steady_file 60000 1000 ltac:(lia)))
            1%nat ltac:(lia) _ _).
  - exists 100%N. split; [reflexivity|]. split; [discriminate | reflexivity].
  - intros i Hi (size & Hsz & _ & Hprev).
    assert (i = 0%nat) by lia. subst i. cbn in Hprev. lia.
Defined.

(** A poll that raises in between does not reset the last observed size:
    100 bytes, unreadable, 100 bytes is Ready at the third poll. *)
Example wait_for_file_ready_flicker :
  wait_for_file_ready flickering_file 60000 1000 = (true, 2500).
Proof. reflexivity. Qed.

(** A file that keeps growing is NotReady when the window has passed. *)
Example wait_for_file_ready_growing :
  wait_for_file_ready (fun k => Some (N.of_nat (S k))) 60000 1000 = (false, 60000).
Proof. vm_compute. reflexivity. Qed.

(** ** Busy rejection *)

(** C6.  A run requested while [is_processing] is set is rejected at once:
    [extract_last_frames] and [trim_last_frames] show the warning that
    another operation is in progress and return, and the application is
    otherwise as it was: no thread is started, progress, status, the list
    of videos and the heap behind it, the flag itself, the directories, the
    scheduled callbacks and the tools run are unchanged. *)
Theorem busy_rejection (E : Env) (selected : bool) (s : App) :
  is_processing s = true ->
  extract_last_frames selected s = (Ret tt, set_dialogs (dialogs s ++ [busy_warning]) s)
  /\ trim_last_frames E selected s = (Ret tt, set_dialogs (dialogs s ++ [busy_warning]) s)
  /\ forall s', (s' = snd (extract_last_frames selected s)
                 \/ s' = snd (trim_last_frames E selected s)) ->
       threads s' = threads s /\ progress_var s' = progress_var s
       /\ status_var s' = status_var s /\ videos s' = videos s /\ heap s' = heap s
       /\ is_processing s' = true /\ fs s' = fs s /\ after_queue s' = after_queue s
       /\ tool_log s' = tool_log s.
Proof.
  intros Hbusy.
  assert (He : extract_last_frames selected s =
               (Ret tt, set_dialogs (dialogs s ++ [busy_warning]) s)).
  { unfold extract_last_frames, bind, gets. rewrite Hbusy. reflexivity. }
  assert (Ht : trim_last_frames E selected s =
               (Ret tt, set_dialogs (dialogs s ++ [busy_warning]) s)).
  { unfold trim_last_frames, bind, gets. rewrite Hbusy. reflexivity. }
  split; [exact He | split; [exact Ht|]].
  intros s' [->| ->]; rewrite ?He, ?Ht; cbn; repeat split; exact Hbusy.
Qed.

Lemma busy_rejection_witness :
  extract_last_frames true (set_is_processing true init_app) =
  (Ret tt, set_dialogs [busy_warning] (set_is_processing true init_app)).
Proof.
  exact (proj1 (busy_rejection (quiet_env (fun _ => Raise CalledProcessError)) true
                  (set_is_processing true init_app) eq_refl)).
Defined.

(** ** MediaProbe *)

Lemma get_video_info_of_probe (E : Env) (video_path : string) (s : App) (dur fps : float) :
  probe E video_path = Ret (dur, fps) ->
  get_video_info E video_path s = (Ret (Some dur, Some fps), s).
Proof. intros H. unfold get_video_info. rewrite H. reflexivity. Qed.

Lemma get_video_info_of_failure (E : Env) (video_path : string) (s : App) (e : pyexn) :
  probe E video_path = Raise e ->
  probe_failure e = true ->
  fst (get_video_info E video_path s) = Ret (None, None).
Proof.
  intros H Hf. unfold get_video_info. rewrite H.
  destruct e; try discriminate Hf; reflexivity.
Qed.




(** ** Frames: what a statement leaves as it was *)

Section Frame.

Context (P : App -> App -> Prop) `{FrameRel P}.

Lemma keeps_ret {A : Type} (a : A) : keeps P (ret a).
Proof. intros s. apply frame_refl. Qed.

Lemma keeps_raise {A : Type} (e : pyexn) : keeps P (@raise A e).
Proof. intros s. apply frame_refl. Qed.

Lemma keeps_gets {A : Type} (f : App -> A) : keeps P (gets f).
Proof. intros s. apply frame_refl. Qed.

Lemma keeps_lift {A : Type} (o : outcome A) : keeps P (lift o).
Proof. intros s. apply frame_refl. Qed.

Lemma keeps_modify (f : App -> App) : (forall s, P s (f s)) -> keeps P (modify f).
Proof. intros Hf s. apply Hf. Qed.

Lemma keeps_bind {A B : Type} (m : M A) (k : A -> M B) :
  keeps P m -> (forall a, keeps P (k a)) -> keeps P (bind m k).
Proof.
  intros Hm Hk s. unfold bind. specialize (Hm s).
  destruct (m s) as [[a|e] s1]; cbn [snd] in *.
  - eapply frame_trans; [exact Hm | apply Hk].
  - exact Hm.
Qed.

Lemma keeps_try_except {A : Type} (body : M A) (handler : pyexn -> M A) :
  keeps P body -> (forall e, keeps P (handler e)) -> keeps P (try_except body handler).
Proof.
  intros Hb Hh s. unfold try_except. specialize (Hb s).
  destruct (body s) as [[a|e] s1]; cbn [snd] in *.
  - exact Hb.
  - eapply frame_trans; [exact Hb | apply Hh].
Qed.

(** A handler that cannot be reached owes nothing. *)
Lemma keeps_try_except_returns {A : Type} (body : M A) (handler : pyexn -> M A) :
  keeps P body -> (forall s, exists a, fst (body s) = Ret a) ->
  keeps P (try_except body handler).
Proof.
  intros Hb Hret s. unfold try_except. specialize (Hb s).
  destruct (Hret s) as [a Ha].
  destruct (body s) as [[a'|e] s1]; cbn [fst snd] in *; [exact Hb | discriminate].
Qed.

Lemma keeps_try_finally {A : Type} (body : M A) (final : M unit) :
  keeps P body -> keeps P final -> keeps P (try_finally body final).
Proof.
  intros Hb Hf s. unfold try_finally. specialize (Hb s).
  destruct (body s) as [r s1]. specialize (Hf s1). cbn [snd] in *.
  destruct (final s1) as [[u|e] s2]; cbn [snd] in *; eapply frame_trans; eassumption.
Qed.

Lemma keeps_if {A : Type} (b : bool) (m1 m2 : M A) :
  keeps P m1 -> keeps P m2 -> keeps P (if b then m1 else m2).
Proof. destruct b; auto. Qed.

End Frame.

Create HintDb frames.

(** The statements of the model are put together from a few forms; this
    takes a frame goal apart along them.  The lemmas on the statements of
    the model themselves are collected in [frames]. *)
Ltac frame_step :=
  lazymatch goal with
  | |- keeps _ (ret _) => apply keeps_ret; exact _
  | |- keeps _ (raise _) => apply keeps_raise; exact _
  | |- keeps _ (gets _) => apply keeps_gets; exact _
  | |- keeps _ (lift _) => apply keeps_lift; exact _
  | |- keeps _ (bind _ _) => apply keeps_bind; [ exact _ | | intros ? ]
  | |- keeps _ (try_except _ _) =>
      first [ apply keeps_try_except_returns; [ | solve [auto with frames] ]
            | apply keeps_try_except; [ exact _ | | intros ? ] ]
  | |- keeps _ (try_finally _ _) => apply keeps_try_finally; [ exact _ | | ]
  | |- keeps _ (modify _) => apply keeps_modify; intros ?
  | |- keeps _ (match ?x with _ => _ end) => destruct x
  | |- keeps _ _ => solve [auto with frames]
  end.

Ltac frame := repeat frame_step.

(** ** Skipped items *)

Lemma untouched_refl (s : App) : untouched s s.
Proof. split; reflexivity. Qed.

Lemma untouched_trans (s1 s2 s3 : App) :
  untouched s1 s2 -> untouched s2 s3 -> untouched s1 s3.
Proof. intros [H1 H2] [H3 H4]. split; congruence. Qed.

Lemma untouched_frame : FrameRel untouched.
Proof. split; [exact untouched_refl | exact untouched_trans]. Qed.

#[local] Existing Instance untouched_frame.

Lemma print_untouched (text : string) (e : option pyexn) :
  keeps untouched (print text e).
Proof. intros s. split; reflexivity. Qed.

Lemma get_video_info_untouched (E : Env) (video_path : string) :
  keeps untouched (get_video_info E video_path).
Proof.
  intros s. unfold get_video_info.
  destruct (probe E video_path) as [[dur fps]|e]; [split; reflexivity|].
  destruct e; split; reflexivity.
Qed.

(** What [get_video_info] returns does not depend on the application. *)
Lemma get_video_info_fst (E : Env) (video_path : string) (s s' : App) :
  fst (get_video_info E video_path s) = fst (get_video_info E video_path s').
Proof.
  unfold get_video_info.
  destruct (probe E video_path) as [[dur fps]|e]; [reflexivity|].
  destruct e; reflexivity.
Qed.

Lemma report_progress_untouched (i total_videos : Z) (video_path : string) :
  keeps untouched (report_progress i total_videos video_path).
Proof.
  intros s. unfold report_progress, bind, lift, modify.
  destruct (int_div i total_videos); split; reflexivity.
Qed.

Lemma skips_state (E : Env) (video_path : string) (s s' : App) :
  skips E video_path s -> skips E video_path s'.
Proof.
  unfold skips. rewrite (get_video_info_fst E video_path s s'). exact (fun H => H).
Qed.

(** A turn under the skip condition, for either worker: whatever the
    progress report does, the statements after it return the count as it
    was and touch neither the tools nor the directories. *)
Ltac skip_turn E video_path s Hskip :=
  unfold try_except; unfold bind at 1;
  let Hrp := fresh "Hrp" in
  let s1 := fresh "s1" in
  lazymatch goal with
  | |- context [report_progress ?i ?t video_path s] =>
      pose proof (report_progress_untouched i t video_path s) as Hrp;
      destruct (report_progress i t video_path s) as [[[]|?] s1]; cbn [snd] in Hrp
  end;
  [ apply (skips_state E video_path s s1) in Hskip;
    destruct (path_exists E video_path) eqn:?; cbn [negb];
    [ unfold bind at 1;
      let Hu := fresh "Hu" in
      pose proof (get_video_info_untouched E video_path s1) as Hu;
      destruct Hskip as [Hskip|[Hskip|(?dur & ?fps & ?frame & Hskip & ?Hdiv & ?Hle)]];
      [ congruence
      | destruct (get_video_info E video_path s1) as [[?|?] ?]; cbn [fst snd] in *;
        [ inversion Hskip; subst; eexists; split;
          [reflexivity | eapply untouched_trans; eassumption]
        | discriminate ]
      | destruct (get_video_info E video_path s1) as [[?|?] ?]; cbn [fst snd] in *;
        [ inversion Hskip; subst; unfold bind at 1, lift;
          match goal with Hd : float_div _ _ = _, Hl : (_ <=? _)%float = _ |- _ =>
            rewrite Hd, Hl end;
          eexists; split; [reflexivity | eapply untouched_trans; eassumption]
        | discriminate ] ]
    | eexists; split; [reflexivity | assumption] ]
  | idtac ].

Lemma extract_item_skips (E : Env) (output_dir : string) (total_videos i : Z)
      (video_path : string) (n : Z) (s : App) :
  skips E video_path s ->
  exists s', extract_item E output_dir total_videos i video_path n s = (Ret n, s')
             /\ untouched s s'.
Proof.
  intros Hskip. unfold extract_item. skip_turn E video_path s Hskip.
  eexists. split; [reflexivity|]. eapply untouched_trans; [eassumption | split; reflexivity].
Qed.

Lemma trim_item_skips (E : Env) (output_dir : string) (total_videos i : Z)
      (video_path : string) (n : Z) (s : App) :
  skips E video_path s ->
  exists s', trim_item E output_dir total_videos i video_path n s = (Ret n, s')
             /\ untouched s s'.
Proof.
  intros Hskip. unfold trim_item. skip_turn E video_path s Hskip.
  match goal with |- context [match ?e with TimeoutExpired => _ | _ => _ end] =>
    destruct e end;
    (eexists; split; [reflexivity|]; eapply untouched_trans; [eassumption | split; reflexivity]).
Qed.

(** A turn of the loop on an element that is there: the events scheduled
    before it, the body, and the loop from the next index. *)
Lemma for_enumerate_turn (E : Env) (bound : nat) (videos : loc)
      (body : Z -> string -> Z -> M Z) (i : nat) (n n' : Z) (s s' : App)
      (video_path : string) :
  nth_error (list_at (heap (run_events E (others E i) s)) videos) i = Some video_path ->
  body (Z.of_nat i) video_path n (run_events E (others E i) s) = (Ret n', s') ->
  for_enumerate E (S bound) videos body i n s =
  for_enumerate E bound videos body (S i) n' s'.
Proof.
  intros Hnth Hbody. cbn [for_enumerate]. cbv zeta. rewrite Hnth.
  unfold bind. rewrite Hbody. reflexivity.
Qed.

(** C4.  An item whose file does not exist at its recorded path, or whose
    probe returns NotAvailable, or whose probed duration is at most
    [1 / fps], is skipped by both workers: the turn returns the success
    count as it was, no external tool is run, no counter is allocated (no
    directory changes), and the loop goes on with the next item from the
    state the turn leaves. *)
Theorem skipped_item_is_inert (E : Env) (output_dir : string) (total_videos : Z)
        (video_path : string) (n : Z) (s : App) :
  skips E video_path s ->
  (forall i, exists s',
      extract_item E output_dir total_videos i video_path n s = (Ret n, s')
      /\ tool_log s' = tool_log s /\ fs s' = fs s)
  /\ (forall i, exists s',
         trim_item E output_dir total_videos i video_path n s = (Ret n, s')
         /\ tool_log s' = tool_log s /\ fs s' = fs s)
  /\ forall (bound : nat) (videos : loc) (k : nat) (s0 : App),
       nth_error (list_at (heap (run_events E (others E k) s0)) videos) k = Some video_path ->
       for_enumerate E (S bound) videos (extract_item E output_dir total_videos) k n s0 =
       for_enumerate E bound videos (extract_item E output_dir total_videos) (S k) n
         (snd (extract_item E output_dir total_videos (Z.of_nat k) video_path n
                 (run_events E (others E k) s0)))
       /\ for_enumerate E (S bound) videos (trim_item E output_dir total_videos) k n s0 =
          for_enumerate E bound videos (trim_item E output_dir total_videos) (S k) n
            (snd (trim_item E output_dir total_videos (Z.of_nat k) video_path n
                    (run_events E (others E k) s0))).
Proof.
  intros Hskip. split; [|split].
  - intros i.
    destruct (extract_item_skips E output_dir total_videos i video_path n s Hskip)
      as (s' & Hrun & Hlog & Hfs).
    exists s'. split; [exact Hrun | split; assumption].
  - intros i.
    destruct (trim_item_skips E output_dir total_videos i video_path n s Hskip)
      as (s' & Hrun & Hlog & Hfs).
    exists s'. split; [exact Hrun | split; assumption].
  - intros bound videos k s0 Hnth.
    pose proof (skips_state E video_path s (run_events E (others E k) s0) Hskip) as Hskip0.
    split.
    + destruct (extract_item_skips E output_dir total_videos (Z.of_nat k) video_path n _ Hskip0)
        as (s' & Hrun & _).
      rewrite Hrun. cbn [snd]. eapply for_enumerate_turn; eassumption.
    + destruct (trim_item_skips E output_dir total_videos (Z.of_nat k) video_path n _ Hskip0)
        as (s' & Hrun & _).
      rewrite Hrun. cbn [snd]. eapply for_enumerate_turn; eassumption.
Qed.

Lemma skipped_item_is_inert_witness :
  exists s',
    extract_item (quiet_env (fun _ => Ret (ten_seconds (Some "1/20")))) "out" 1 0
                 "a.mp4" 0 frames_dir = (Ret 0, s')
    /\ tool_log s' = tool_log frames_dir /\ fs s' = fs frames_dir.
Proof.
  refine (proj1 (skipped_item_is_inert
                   (quiet_env (fun _ => Ret (ten_seconds (Some "1/20")))) "out" 1
                   "a.mp4" 0 frames_dir _) 0).
  right. right. exists 10%float, (1 / 20)%float, (1 / (1 / 20))%float.
  split; [reflexivity | split; reflexivity].
Defined.

(** ** What the front end leaves alone while a worker runs *)

Lemma same_record_refl (s : App) : same_record s s.
Proof. repeat split. Qed.

Lemma same_record_trans (s1 s2 s3 : App) :
  same_record s1 s2 -> same_record s2 s3 -> same_record s1 s3.
Proof.
  unfold same_record. intros (A1 & A2 & A3 & A4 & A5 & A6) (B1 & B2 & B3 & B4 & B5 & B6).
  repeat split; congruence.
Qed.

Lemma aside_frame : FrameRel aside.
Proof.
  split.
  - intros s. split; [apply same_record_refl | split; [lia | reflexivity]].
  - intros s1 s2 s3 (R1 & L1 & H1) (R2 & L2 & H2).
    split; [eapply same_record_trans; eassumption | split; [lia|]].
    intros l Hl. rewrite H2 by lia. apply H1, Hl.
Qed.

Lemma aside_but_frame (v : loc) : FrameRel (aside_but v).
Proof.
  split.
  - intros s Hv. split; [exact Hv | split; [apply same_record_refl | split; reflexivity]].
  - intros s1 s2 s3 H12 H23 Hv.
    destruct (H12 Hv) as (V1 & R1 & L1 & H1).
    destruct (H23 V1) as (V2 & R2 & L2 & H2).
    split; [exact V2 | split; [eapply same_record_trans; eassumption | split; [congruence|]]].
    intros l Hl. rewrite H2 by exact Hl. apply H1, Hl.
Qed.

#[local] Existing Instance aside_frame.
#[local] Existing Instance aside_but_frame.

(** A setter of a field outside the record and the heap. *)
Ltac aside_setter :=
  lazymatch goal with
  | |- aside _ _ => idtac
  | |- aside_but _ _ _ => idtac
  end;
  unfold aside, aside_but, same_record; cbn;
  repeat split; auto; try lia.

Lemma messagebox_aside (d : dialog) : keeps aside (messagebox d).
Proof. unfold messagebox. apply keeps_modify. intros s. aside_setter. Qed.

Lemma messagebox_aside_but (v : loc) (d : dialog) : keeps (aside_but v) (messagebox d).
Proof. unfold messagebox. apply keeps_modify. intros s. aside_setter. Qed.

Lemma thread_start_aside (t : thread) : keeps aside (thread_start t).
Proof. unfold thread_start. apply keeps_modify. intros s. aside_setter. Qed.

Lemma listdir_keeps (P : App -> App -> Prop) `{FrameRel P} (d : string) :
  keeps P (listdir d).
Proof.
  intros s. unfold listdir. destruct (lookup_dir d (fs s)); apply frame_refl.
Qed.

Lemma nth_app_old (h : list (list string)) (x : list string) (l : nat) :
  (l < List.length h)%nat -> list_at (h ++ [x]) l = list_at h l.
Proof. intros Hl. unfold list_at. apply app_nth1, Hl. Qed.

Lemma alloc_aside (xs : list string) : keeps aside (alloc xs).
Proof.
  intros s. unfold alloc, aside, same_record. cbn.
  repeat split; auto.
  - rewrite length_app. cbn. lia.
  - intros l Hl. apply nth_app_old, Hl.
Qed.

Lemma list_get_keeps (P : App -> App -> Prop) `{FrameRel P} (l : loc) (i : nat) :
  keeps P (list_get l i).
Proof.
  intros s. unfold list_get. destruct (nth_error (list_at (heap s) l) i); apply frame_refl.
Qed.

Lemma list_select_keeps (P : App -> App -> Prop) `{FrameRel P} (l : loc) (indices : list nat) :
  keeps P (list_select l indices).
Proof.
  induction indices as [|i rest IH]; cbn [list_select].
  - frame.
  - apply keeps_bind; [exact _ | apply list_get_keeps; exact _ |]. intros x.
    apply keeps_bind; [exact _ | exact IH |]. intros xs. frame.
Qed.

Lemma stop_watching_returns (s : App) : exists a, fst (stop_watching s) = Ret a.
Proof.
  unfold stop_watching, bind, gets. destruct (observer s); exists tt; reflexivity.
Qed.

Lemma stop_watching_aside : keeps aside stop_watching.
Proof.
  unfold stop_watching. frame; aside_setter.
Qed.

Lemma stop_watching_aside_but (v : loc) : keeps (aside_but v) stop_watching.
Proof.
  unfold stop_watching. frame; aside_setter.
Qed.

#[local] Hint Resolve messagebox_aside messagebox_aside_but thread_start_aside
  alloc_aside stop_watching_returns stop_watching_aside stop_watching_aside_but : frames.

Lemma start_file_watching_aside (E : Env) : keeps aside (start_file_watching E).
Proof.
  unfold start_file_watching. frame; aside_setter.
Qed.

Lemma start_file_watching_aside_but (E : Env) (v : loc) :
  keeps (aside_but v) (start_file_watching E).
Proof.
  unfold start_file_watching. frame; aside_setter.
Qed.

Lemma update_nth_length {A : Type} (n : nat) (x : A) (l : list A) :
  List.length (update_nth n x l) = List.length l.
Proof.
  revert n. induction l as [|y l IH]; intros [|n]; cbn; auto.
Qed.

Lemma update_nth_other {A : Type} (n m : nat) (x d : A) (l : list A) :
  m <> n -> nth m (update_nth n x l) d = nth m l d.
Proof.
  revert n m. induction l as [|y l IH]; intros [|n] [|m] Hne; cbn; auto;
    try contradiction.
Qed.

(** [self.videos.append(x)] changes the list object [self.videos] and no
    other. *)
Lemma videos_append_all_aside_but (v : loc) (xs : list string) :
  keeps (aside_but v) (videos_append_all xs).
Proof.
  induction xs as [|x rest IH]; cbn [videos_append_all]; [frame|].
  intros s.
  assert (Hstep : aside_but v s
            (set_heap (update_nth (videos s) (list_at (heap s) (videos s) ++ [x])%list
                                  (heap s)) s)).
  { intros Hv. cbn. split; [exact Hv | split; [repeat split | split]].
    - apply update_nth_length.
    - intros l Hl. unfold list_at. apply update_nth_other. congruence. }
  change (snd ((l <- gets videos ;; list_append l x ;; videos_append_all rest) s))
    with (snd (videos_append_all rest
                 (set_heap (update_nth (videos s) (list_at (heap s) (videos s) ++ [x])%list
                                       (heap s)) s))).
  eapply frame_trans; [exact Hstep | apply IH].
Qed.

#[local] Hint Resolve start_file_watching_aside start_file_watching_aside_but
  videos_append_all_aside_but : frames.

Lemma listdir_aside (d : string) : keeps aside (listdir d).
Proof. apply listdir_keeps. exact _. Qed.

Lemma listdir_aside_but (v : loc) (d : string) : keeps (aside_but v) (listdir d).
Proof. apply listdir_keeps. exact _. Qed.

Lemma list_select_aside (l : loc) (indices : list nat) : keeps aside (list_select l indices).
Proof. apply list_select_keeps. exact _. Qed.

#[local] Hint Resolve listdir_aside listdir_aside_but list_select_aside : frames.

(** [load_videos] builds the new list in a new object: the lists that
    exist stay as they are. *)
Lemma load_videos_aside (E : Env) : keeps aside (load_videos E).
Proof.
  unfold load_videos. frame_step. frame_step. frame_step; [frame_step|].
  frame_step. frame_step. frame_step; [frame_step|].
  apply keeps_bind; [exact _ | | intros []; frame].
  apply keeps_try_except; [exact _ | | intros e; frame].
  (* the body of the [try], after [self.videos = []] *)
  intros s.
  set (s2 := set_videos (List.length (heap s)) (set_heap (heap s ++ [[]]) s)).
  match goal with
  | |- aside s (snd ((l <- alloc [] ;; modify (set_videos l) ;; ?rest) s)) =>
      change (aside s (snd (rest s2)));
      assert (Hrest : keeps (aside_but (List.length (heap s))) rest)
        by (frame; aside_setter)
  end.
  destruct (Hrest s2 eq_refl) as (_ & Hrec & Hlen & Hheap).
  split; [exact Hrec | split].
  - rewrite Hlen. subst s2. cbn. rewrite length_app. cbn. lia.
  - intros l Hl. rewrite Hheap by lia. subst s2. cbn. apply nth_app_old, Hl.
Qed.

#[local] Hint Resolve load_videos_aside : frames.

Lemma browse_dir_aside (E : Env) (directory : string) : keeps aside (browse_dir E directory).
Proof. unfold browse_dir. frame; aside_setter. Qed.

Lemma get_selected_videos_aside (selected : bool) : keeps aside (get_selected_videos selected).
Proof. unfold get_selected_videos. frame. Qed.

Lemma check_ffmpeg_aside (E : Env) : keeps aside (check_ffmpeg E).
Proof. unfold check_ffmpeg. frame. Qed.

#[local] Hint Resolve get_selected_videos_aside check_ffmpeg_aside : frames.

Lemma extract_last_frames_aside (selected : bool) : keeps aside (extract_last_frames selected).
Proof. unfold extract_last_frames, busy_warning, no_videos_warning. frame. Qed.

Lemma trim_last_frames_aside (E : Env) (selected : bool) :
  keeps aside (trim_last_frames E selected).
Proof. unfold trim_last_frames, busy_warning, no_videos_warning. frame. Qed.

(** A front-end event, and a run of them, leaves the record of the workers
    and every list object that exists as they are. *)
Lemma run_event_aside (E : Env) (ev : front_event) (s : App) : aside s (run_event E ev s).
Proof.
  destruct ev; cbn [run_event].
  - apply load_videos_aside.
  - apply browse_dir_aside.
  - assert (H : keeps aside (l <- alloc new_videos ;; modify (set_videos l)))
      by (frame; aside_setter).
    apply H.
  - apply extract_last_frames_aside.
  - apply trim_last_frames_aside.
Qed.

Lemma run_events_aside (E : Env) (evs : list front_event) (s : App) :
  aside s (run_events E evs s).
Proof.
  unfold run_events. revert s. induction evs as [|ev evs IH]; intros s; cbn [fold_left].
  - apply frame_refl.
  - eapply frame_trans; [apply run_event_aside | apply IH].
Qed.

(** ** The turns of the workers *)

Lemma turn_kept_frame : FrameRel turn_kept.
Proof.
  split.
  - intros s. split; reflexivity.
  - intros s1 s2 s3 [A1 A2] [B1 B2]. split; congruence.
Qed.

#[local] Existing Instance turn_kept_frame.

Ltac turn_setter :=
  lazymatch goal with
  | |- turn_kept _ _ => split; reflexivity
  end.

Lemma print_turn_kept (text : string) (e : option pyexn) : keeps turn_kept (print text e).
Proof. unfold print. frame; turn_setter. Qed.

Lemma report_progress_turn_kept (i total_videos : Z) (video_path : string) :
  keeps turn_kept (report_progress i total_videos video_path).
Proof. unfold report_progress. frame; turn_setter. Qed.

Lemma get_video_info_turn_kept (E : Env) (video_path : string) :
  keeps turn_kept (get_video_info E video_path).
Proof.
  unfold get_video_info.
  destruct (probe E video_path) as [[dur fps]|e]; [frame|].
  destruct e; cbn [probe_failure]; frame; apply print_turn_kept.
Qed.

Lemma touch_turn_kept (d name : string) : keeps turn_kept (touch d name).
Proof.
  intros s. unfold touch. destruct (lookup_dir d (fs s)); [|split; reflexivity].
  destruct (mem_string name l); split; reflexivity.
Qed.

Lemma listdir_turn_kept (d : string) : keeps turn_kept (listdir d).
Proof. apply listdir_keeps. exact _. Qed.

#[local] Hint Resolve print_turn_kept report_progress_turn_kept get_video_info_turn_kept
  touch_turn_kept listdir_turn_kept : frames.

Lemma reserve_output_turn_kept (output_dir filename tag ext : string) :
  keeps turn_kept (reserve_output output_dir filename tag ext).
Proof. unfold reserve_output, get_max_counter. frame. Qed.

Lemma run_tool_turn_kept (E : Env) (cmd : list string) : keeps turn_kept (run_tool E cmd).
Proof. unfold run_tool. frame; turn_setter. Qed.

#[local] Hint Resolve reserve_output_turn_kept run_tool_turn_kept : frames.

Lemma extract_item_turn_kept (E : Env) (output_dir : string) (total_videos i : Z)
      (video_path : string) (n : Z) :
  keeps turn_kept (extract_item E output_dir total_videos i video_path n).
Proof. unfold extract_item. frame. Qed.

Lemma trim_item_turn_kept (E : Env) (output_dir : string) (total_videos i : Z)
      (video_path : string) (n : Z) :
  keeps turn_kept (trim_item E output_dir total_videos i video_path n).
Proof. unfold trim_item. frame. Qed.

Section Returns.

Context {A : Type} (Q : A -> Prop).

Lemma returns_only_ret (a : A) : Q a -> returns_only Q (ret a).
Proof. intros Ha s a' H. inversion H. subst. exact Ha. Qed.

Lemma returns_only_raise (e : pyexn) : returns_only Q (raise e).
Proof. intros s a H. discriminate. Qed.

Lemma returns_only_bind {B : Type} (m : M B) (k : B -> M A) :
  (forall b, returns_only Q (k b)) -> returns_only Q (bind m k).
Proof.
  intros Hk s a. unfold bind. destruct (m s) as [[b|e] s1].
  - apply Hk.
  - discriminate.
Qed.

Lemma yields_ret (a : A) : Q a -> yields Q (ret a).
Proof. intros Ha s. exists a. split; [reflexivity | exact Ha]. Qed.

Lemma yields_bind {B : Type} (m : M B) (k : B -> M A) :
  yields (fun _ => True) m -> (forall b, yields Q (k b)) -> yields Q (bind m k).
Proof.
  intros Hm Hk s. unfold bind. destruct (Hm s) as (b & Hb & _).
  destruct (m s) as [[b'|e] s1]; cbn [fst] in Hb; [|discriminate].
  apply Hk.
Qed.

Lemma yields_try_except (body : M A) (handler : pyexn -> M A) :
  returns_only Q body -> (forall e, yields Q (handler e)) ->
  yields Q (try_except body handler).
Proof.
  intros Hb Hh s. unfold try_except. specialize (Hb s).
  destruct (body s) as [[a|e] s1]; cbn [fst] in *.
  - exists a. split; [reflexivity | apply Hb; reflexivity].
  - apply Hh.
Qed.

End Returns.

Lemma print_yields (text : string) (e : option pyexn) : yields (fun _ => True) (print text e).
Proof. intros s. exists tt. split; [reflexivity | exact I]. Qed.

(** The statements that can return a count in a turn return [n] or
    [n + 1]. *)
Ltac returns_step :=
  lazymatch goal with
  | |- returns_only _ (ret _) => apply returns_only_ret; lia
  | |- returns_only _ (raise _) => apply returns_only_raise
  | |- returns_only _ (bind _ _) => apply returns_only_bind; intros ?
  | |- returns_only _ (match ?x with _ => _ end) => destruct x
  end.

(** A turn of either worker always returns, and the count it returns is
    the one it was given or one more. *)
Lemma extract_item_yields (E : Env) (output_dir : string) (total_videos i : Z)
      (video_path : string) (n : Z) :
  yields (fun n' => n <= n' <= n + 1)
         (extract_item E output_dir total_videos i video_path n).
Proof.
  unfold extract_item. apply yields_try_except.
  - repeat returns_step.
  - intros e. apply yields_bind; [apply print_yields | intros _; apply yields_ret; lia].
Qed.

Lemma trim_item_yields (E : Env) (output_dir : string) (total_videos i : Z)
      (video_path : string) (n : Z) :
  yields (fun n' => n <= n' <= n + 1)
         (trim_item E output_dir total_videos i video_path n).
Proof.
  unfold trim_item. apply yields_try_except.
  - repeat returns_step.
  - intros e. apply yields_bind; [|intros _; apply yields_ret; lia].
    destruct e; apply print_yields.
Qed.

(** ** The loop of a worker *)

Section Loop.

Variables (E : Env) (videos : loc) (body : Z -> string -> Z -> M Z).
Hypothesis body_yields : forall i v n, yields (fun n' => n <= n' <= n + 1) (body i v n).
Hypothesis body_kept : forall i v n, keeps turn_kept (body i v n).

(** The events before a turn leave the list of the worker as it is. *)
Lemma events_keep_list (i : nat) (s : App) :
  (videos < List.length (heap s))%nat ->
  let s0 := run_events E (others E i) s in
  after_queue s0 = after_queue s
  /\ list_at (heap s0) videos = list_at (heap s) videos
  /\ (videos < List.length (heap s0))%nat.
Proof.
  intros Hl s0. destruct (run_events_aside E (others E i) s) as (Hrec & Hlen & Hheap).
  fold s0 in Hrec, Hlen, Hheap. destruct Hrec as (_ & _ & Hq & _).
  split; [exact Hq | split; [apply Hheap, Hl | lia]].
Qed.


(** The bound on the number of turns plays no part once it exceeds the
    number of elements left: the loop ends because the list does. *)
Lemma for_enumerate_bound (bound bound' i : nat) (n : Z) (s : App) :
  (videos < List.length (heap s))%nat ->
  (List.length (list_at (heap s) videos) - i < bound)%nat ->
  (List.length (list_at (heap s) videos) - i < bound')%nat ->
  for_enumerate E bound videos body i n s = for_enumerate E bound' videos body i n s.
Proof.
  revert bound' i n s. induction bound as [|bound IH]; intros bound' i n s Hl Hb Hb'.
  - lia.
  - destruct bound' as [|bound']; [lia|].
    cbn [for_enumerate]. cbv zeta.
    destruct (events_keep_list i s Hl) as (Hq0 & Hlist0 & Hl0).
    set (s0 := run_events E (others E i) s) in *.
    destruct (nth_error (list_at (heap s0) videos) i) as [video_path|] eqn:Hnth;
      [|reflexivity].
    unfold bind.
    destruct (body_kept (Z.of_nat i) video_path n s0) as (Hq1 & Hheap1).
    destruct (body (Z.of_nat i) video_path n s0) as [[n1|e] s1]; cbn [snd] in *;
      [|reflexivity].
    assert (Hi : (i < List.length (list_at (heap s0) videos))%nat)
      by (apply nth_error_Some; congruence).
    rewrite Hlist0 in Hi.
    apply IH; rewrite ?Hheap1, ?Hlist0; try assumption; lia.
Qed.

End Loop.

(** ** The exit paths of the workers *)

Lemma bind_returns {A B : Type} (m : M A) (k : A -> M B) (s s1 : App) (a : A) :
  m s = (Ret a, s1) -> bind m k s = k a s1.
Proof. intros H. unfold bind. rewrite H. reflexivity. Qed.

Lemma bind_raises {A B : Type} (m : M A) (k : A -> M B) (s s1 : App) (e : pyexn) :
  m s = (Raise e, s1) -> bind m k s = (Raise e, s1).
Proof. intros H. unfold bind. rewrite H. reflexivity. Qed.

Lemma makedirs_returns (E : Env) (d : string) (s : App) :
  makedirs_raises E d = None ->
  exists s', makedirs E d s = (Ret tt, s')
             /\ heap s' = heap s /\ after_queue s' = after_queue s.
Proof.
  intros Hmk. unfold makedirs, modify. rewrite Hmk.
  eexists. split; [reflexivity|].
  destruct (lookup_dir d (fs s)); split; reflexivity.
Qed.

Section Tail.

Variables (E : Env) (videos : loc) (output_dir : string)
          (body : Z -> Z -> string -> Z -> M Z) (complete : Z -> string -> Z -> callback).
Hypothesis body_yields :
  forall t i v n, yields (fun n' => n <= n' <= n + 1) (body t i v n).
Hypothesis body_kept : forall t i v n, keeps turn_kept (body t i v n).


(** When it cannot, the exception leaves before anything else is done. *)
Lemma tail_raises (s : App) (e : pyexn) :
  makedirs_raises E output_dir = Some e ->
  (makedirs E output_dir ;;
   total_videos <- len videos ;;
   success_count <-
     for_enumerate E (S (Z.to_nat total_videos)) videos (body total_videos) 0 0 ;;
   root_after (complete success_count output_dir total_videos)) s = (Raise e, s).
Proof.
  intros Hmk. apply bind_raises. unfold makedirs. rewrite Hmk. reflexivity.
Qed.

End Tail.

(** [try: ... except Exception: ... finally: self.is_processing = False],
    by the outcome of the body. *)
Lemma guarded_run {A : Type} (body : M A) (handler : pyexn -> M A) (s : App) :
  try_finally (try_except body handler) (modify (set_is_processing false)) s =
  match body s with
  | (Ret a, s1) => (Ret a, set_is_processing false s1)
  | (Raise e, s1) =>
      (fst (handler e s1), set_is_processing false (snd (handler e s1)))
  end.
Proof.
  unfold try_finally, try_except, modify.
  destruct (body s) as [[a|e] s1]; [reflexivity|].
  destruct (handler e s1); reflexivity.
Qed.

(** The worker's preamble: the flag set, the progress reset, the status. *)
Lemma extract_thread_run (E : Env) (videos : loc) (s : App) :
  extract_last_frames_thread E videos s =
  let sa := set_status_var "Extracting last frames..."
              (set_progress_var 0%float (set_is_processing true s)) in
  match (ok <- check_ffmpeg E ;;
         (if negb ok then raise (PlainException "FFmpeg not available") else ret tt) ;;
         dir_path <- gets video_dir ;;
         makedirs E (path_join dir_path "last_frames") ;;
         total_videos <- len videos ;;
         success_count <-
           for_enumerate E (S (Z.to_nat total_videos)) videos
             (extract_item E (path_join dir_path "last_frames") total_videos) 0 0 ;;
         root_after (ExtractionComplete success_count (path_join dir_path "last_frames")
                                        total_videos)) sa with
  | (Ret a, s1) => (Ret a, set_is_processing false s1)
  | (Raise e, s1) =>
      (Ret tt, set_is_processing false
                 (set_after_queue (after_queue s1 ++ [FailureBox "Extraction failed: " e]) s1))
  end.
Proof.
  unfold extract_last_frames_thread.
  unfold bind at 1. unfold modify at 1. unfold bind at 1. unfold modify at 1.
  unfold bind at 1. unfold modify at 1.
  rewrite guarded_run. reflexivity.
Qed.

Lemma trim_thread_run (E : Env) (videos : loc) (s : App) :
  trim_last_frames_thread E videos s =
  let sa := set_status_var "Trimming last frames..."
              (set_progress_var 0%float (set_is_processing true s)) in
  match (dir_path <- gets video_dir ;;
         makedirs E (path_join dir_path "trimmed_videos") ;;
         total_videos <- len videos ;;
         success_count <-
           for_enumerate E (S (Z.to_nat total_videos)) videos
             (trim_item E (path_join dir_path "trimmed_videos") total_videos) 0 0 ;;
         root_after (TrimmingComplete success_count (path_join dir_path "trimmed_videos")
                                      total_videos)) sa with
  | (Ret a, s1) => (Ret a, set_is_processing false s1)
  | (Raise e, s1) =>
      (Ret tt, set_is_processing false
                 (set_after_queue (after_queue s1 ++ [FailureBox "Trimming failed: " e]) s1))
  end.
Proof.
  unfold trim_last_frames_thread.
  unfold bind at 1. unfold modify at 1. unfold bind at 1. unfold modify at 1.
  unfold bind at 1. unfold modify at 1.
  rewrite guarded_run. reflexivity.
Qed.





(** A batch over [a.mp4] and [b.mov] where the tool fails on [b.mov]:
    the summary is 1 of 2, and both counters were reserved. *)
Example extract_one_of_two :
  after_queue (snd (extract_last_frames_thread b_fails_env 1%nat two_videos)) =
    [ExtractionComplete 1 "/v/last_frames" 2]
  /\ lookup_dir "/v/last_frames" (fs (snd (extract_last_frames_thread b_fails_env 1%nat two_videos)))
     = Some ["a_last_1.jpg"; "b_last_2.jpg"].
Proof. split; vm_compute; reflexivity. Qed.

(** Loading [/v], which holds [a.mp4], [b.mov] and [c.txt], lists the two
    videos in order, in a new list object. *)
Example load_videos_sorted :
  list_at (heap (snd (load_videos b_fails_env two_videos)))
          (videos (snd (load_videos b_fails_env two_videos))) = ["/v/a.mp4"; "/v/b.mov"]
  /\ videos (snd (load_videos b_fails_env two_videos)) = 2%nat.
Proof. split; vm_compute; reflexivity. Qed.

(** ** The snapshot a run works on *)

Lemma same_record_sym (s s' : App) : same_record s s' -> same_record s' s.
Proof.
  unfold same_record. intros (H1 & H2 & H3 & H4 & H5 & H6). repeat split; congruence.
Qed.

Section Respects.

Lemma respects_ret {A : Type} (a : A) : respects (ret a).
Proof. intros s s' H. split; [reflexivity | exact H]. Qed.

Lemma respects_raise {A : Type} (e : pyexn) : respects (@raise A e).
Proof. intros s s' H. split; [reflexivity | exact H]. Qed.

Lemma respects_lift {A : Type} (o : outcome A) : respects (lift o).
Proof. intros s s' H. split; [reflexivity | exact H]. Qed.

Lemma respects_modify (f : App -> App) :
  (forall s s', same_record s s' -> same_record (f s) (f s')) -> respects (modify f).
Proof. intros Hf s s' H. split; [reflexivity | apply Hf, H]. Qed.

Lemma respects_bind {A B : Type} (m : M A) (k : A -> M B) :
  respects m -> (forall a, respects (k a)) -> respects (bind m k).
Proof.
  intros Hm Hk s s' H. unfold bind. destruct (Hm s s' H) as [Hfst Hrec].
  destruct (m s) as [[a|e] s1], (m s') as [[a'|e'] s1']; cbn [fst snd] in *;
    try discriminate.
  - inversion Hfst; subst. apply Hk, Hrec.
  - inversion Hfst; subst. split; [reflexivity | exact Hrec].
Qed.

Lemma respects_try_except {A : Type} (body : M A) (handler : pyexn -> M A) :
  respects body -> (forall e, respects (handler e)) -> respects (try_except body handler).
Proof.
  intros Hb Hh s s' H. unfold try_except. destruct (Hb s s' H) as [Hfst Hrec].
  destruct (body s) as [[a|e] s1], (body s') as [[a'|e'] s1']; cbn [fst snd] in *;
    try discriminate.
  - split; [exact Hfst | exact Hrec].
  - inversion Hfst; subst. apply Hh, Hrec.
Qed.

End Respects.

Ltac record_setter :=
  lazymatch goal with
  | |- same_record _ _ -> same_record _ _ =>
      unfold same_record; cbn; intros (?H1 & ?H2 & ?H3 & ?H4 & ?H5 & ?H6);
      repeat split; congruence
  end.

Ltac respects_step :=
  lazymatch goal with
  | |- respects (ret _) => apply respects_ret
  | |- respects (raise _) => apply respects_raise
  | |- respects (lift _) => apply respects_lift
  | |- respects (bind _ _) => apply respects_bind; [ | intros ? ]
  | |- respects (try_except _ _) => apply respects_try_except; [ | intros ? ]
  | |- respects (modify _) => apply respects_modify; intros ? ?; record_setter
  | |- respects (match ?x with _ => _ end) => destruct x
  | |- respects _ => solve [auto with frames]
  end.

Lemma print_respects (text : string) (e : option pyexn) : respects (print text e).
Proof. unfold print. repeat respects_step. Qed.

Lemma report_progress_respects (i total_videos : Z) (video_path : string) :
  respects (report_progress i total_videos video_path).
Proof. unfold report_progress. repeat respects_step. Qed.

#[local] Hint Resolve print_respects report_progress_respects : frames.

Lemma get_video_info_respects (E : Env) (video_path : string) :
  respects (get_video_info E video_path).
Proof.
  unfold get_video_info.
  destruct (probe E video_path) as [[dur fps]|e]; [repeat respects_step|].
  destruct e; cbn [probe_failure]; repeat respects_step.
Qed.

Lemma listdir_respects (d : string) : respects (listdir d).
Proof.
  intros s s' H. unfold listdir. pose proof H as (Hfs & _). rewrite Hfs.
  destruct (lookup_dir d (fs s)); split; first [reflexivity | assumption].
Qed.

Lemma touch_respects (d name : string) : respects (touch d name).
Proof.
  intros s s' H. unfold touch. pose proof H as (Hfs & H2 & H3 & H4 & H5 & H6).
  rewrite Hfs. destruct (lookup_dir d (fs s)) as [entries|];
    [|split; [reflexivity | exact H]].
  destruct (mem_string name entries); (split; [reflexivity|]); [exact H|].
  unfold same_record. cbn. repeat split; congruence.
Qed.

#[local] Hint Resolve get_video_info_respects listdir_respects touch_respects : frames.

Lemma reserve_output_respects (output_dir filename tag ext : string) :
  respects (reserve_output output_dir filename tag ext).
Proof. unfold reserve_output, get_max_counter. repeat respects_step. Qed.

Lemma run_tool_respects (E : Env) (cmd : list string) : respects (run_tool E cmd).
Proof. unfold run_tool. repeat respects_step. Qed.

#[local] Hint Resolve reserve_output_respects run_tool_respects : frames.

Lemma extract_item_respects (E : Env) (output_dir : string) (total_videos i : Z)
      (video_path : string) (n : Z) :
  respects (extract_item E output_dir total_videos i video_path n).
Proof. unfold extract_item. repeat respects_step. Qed.

Lemma trim_item_respects (E : Env) (output_dir : string) (total_videos i : Z)
      (video_path : string) (n : Z) :
  respects (trim_item E output_dir total_videos i video_path n).
Proof. unfold trim_item. repeat respects_step. Qed.

Lemma skipn_nth_error {A : Type} (l : list A) (i : nat) (x : A) :
  nth_error l i = Some x -> skipn i l = x :: skipn (S i) l.
Proof.
  revert i. induction l as [|y l IH]; intros [|i] H; cbn in *; try discriminate.
  - inversion H. reflexivity.
  - apply IH, H.
Qed.

Lemma skipn_nth_error_none {A : Type} (l : list A) (i : nat) :
  nth_error l i = None -> skipn i l = [].
Proof. intros H. apply skipn_all2. apply nth_error_None, H. Qed.

Section Snapshot.

Variables (E : Env) (videos : loc) (body : Z -> string -> Z -> M Z).
Hypothesis body_kept : forall i v n, keeps turn_kept (body i v n).
Hypothesis body_respects : forall i v n, respects (body i v n).

(** Whatever the front end does between the turns, the loop does what the
    turns do over the list as it was when the loop was entered: the same
    outcome, the same record. *)
Lemma for_enumerate_snapshot (bound i : nat) (n : Z) (s s' : App) :
  (videos < List.length (heap s))%nat ->
  same_record s' s ->
  (List.length (list_at (heap s) videos) - i < bound)%nat ->
  fst (for_enumerate E bound videos body i n s) =
  fst (process_snapshot body (skipn i (list_at (heap s) videos)) i n s')
  /\ same_record (snd (process_snapshot body (skipn i (list_at (heap s) videos)) i n s'))
                 (snd (for_enumerate E bound videos body i n s)).
Proof.
  revert i n s s'. induction bound as [|bound IH]; intros i n s s' Hl Hrec Hb; [lia|].
  cbn [for_enumerate]. cbv zeta.
  destruct (run_events_aside E (others E i) s) as (Hrec0 & Hlen0 & Hheap0).
  set (s0 := run_events E (others E i) s) in *.
  assert (Hlist0 : list_at (heap s0) videos = list_at (heap s) videos) by (apply Hheap0, Hl).
  assert (Hrec' : same_record s' s0) by (eapply same_record_trans; eassumption).
  rewrite Hlist0. set (vs := list_at (heap s) videos) in *.
  destruct (nth_error vs i) as [video_path|] eqn:Hnth.
  - rewrite (skipn_nth_error _ _ _ Hnth). cbn [process_snapshot]. unfold bind.
    destruct (body_respects (Z.of_nat i) video_path n s' s0 Hrec') as [Hfst Hrec1].
    destruct (body_kept (Z.of_nat i) video_path n s0) as (_ & Hheap1).
    destruct (body (Z.of_nat i) video_path n s0) as [[n1|e] s1],
             (body (Z.of_nat i) video_path n s') as [[n1'|e'] s1'];
      cbn [fst snd] in *; try discriminate.
    + inversion Hfst; subst n1'.
      assert (Hi : (i < List.length vs)%nat) by (apply nth_error_Some; congruence).
      assert (Hvs : list_at (heap s1) videos = vs) by (rewrite Hheap1; exact Hlist0).
      specialize (IH (S i) n1 s1 s1').
      rewrite Hvs in IH. apply IH; [rewrite Hheap1; lia | exact Hrec1 | lia].
    + inversion Hfst; subst. split; [reflexivity | exact Hrec1].
  - rewrite (skipn_nth_error_none _ _ Hnth). cbn [process_snapshot].
    split; [reflexivity | exact Hrec'].
Qed.

End Snapshot.

Section Schedules.

Variables (E1 E2 : Env) (videos : loc) (output_dir : string)
          (body : Z -> Z -> string -> Z -> M Z) (complete : Z -> string -> Z -> callback).
Hypothesis body_kept : forall t i v n, keeps turn_kept (body t i v n).
Hypothesis body_respects : forall t i v n, respects (body t i v n).
Hypothesis same_makedirs : makedirs_raises E1 output_dir = makedirs_raises E2 output_dir.

(** The statements of a worker from [os.makedirs] on, under two schedules
    of front-end events: the same outcome and the same record. *)
Lemma tail_any_schedule (s : App) :
  (videos < List.length (heap s))%nat ->
  let tail1 :=
    (makedirs E1 output_dir ;;
     total_videos <- len videos ;;
     success_count <-
       for_enumerate E1 (S (Z.to_nat total_videos)) videos (body total_videos) 0 0 ;;
     root_after (complete success_count output_dir total_videos)) in
  let tail2 :=
    (makedirs E2 output_dir ;;
     total_videos <- len videos ;;
     success_count <-
       for_enumerate E2 (S (Z.to_nat total_videos)) videos (body total_videos) 0 0 ;;
     root_after (complete success_count output_dir total_videos)) in
  fst (tail1 s) = fst (tail2 s) /\ same_record (snd (tail2 s)) (snd (tail1 s)).
Proof.
  intros Hl tail1 tail2. subst tail1 tail2.
  destruct (makedirs_raises E1 output_dir) as [e|] eqn:Hmk1.
  - rewrite (tail_raises E1 videos output_dir body complete s e Hmk1).
    rewrite (tail_raises E2 videos output_dir body complete s e) by congruence.
    split; [reflexivity | apply same_record_refl].
  - assert (Hmk2 : makedirs_raises E2 output_dir = None) by congruence.
    destruct (makedirs_returns E1 output_dir s Hmk1) as (s1 & Hrun1 & Hheap1 & _).
    assert (Hrun2 : makedirs E2 output_dir s = (Ret tt, s1)).
    { unfold makedirs in *. rewrite Hmk1 in Hrun1. rewrite Hmk2. exact Hrun1. }
    rewrite (bind_returns _ _ _ _ _ Hrun1), (bind_returns _ _ _ _ _ Hrun2).
    assert (Hl1 : (videos < List.length (heap s1))%nat) by (rewrite Hheap1; exact Hl).
    set (total := Z.of_nat (List.length (list_at (heap s1) videos))).
    rewrite !(bind_returns (len videos) _ s1 s1 total eq_refl).
    assert (Hb : (List.length (list_at (heap s1) videos) - 0 < S (Z.to_nat total))%nat)
      by (subst total; lia).
    destruct (for_enumerate_snapshot E1 videos (body total) (body_kept total)
                (body_respects total) _ 0 0 s1 s1 Hl1 (same_record_refl s1) Hb)
      as [Hfst1 Hrec1].
    destruct (for_enumerate_snapshot E2 videos (body total) (body_kept total)
                (body_respects total) _ 0 0 s1 s1 Hl1 (same_record_refl s1) Hb)
      as [Hfst2 Hrec2].
    assert (Hrec : same_record
                     (snd (for_enumerate E2 (S (Z.to_nat total)) videos (body total) 0 0 s1))
                     (snd (for_enumerate E1 (S (Z.to_nat total)) videos (body total) 0 0 s1))).
    { eapply same_record_trans; [apply same_record_sym; exact Hrec2 | exact Hrec1]. }
    rewrite <- Hfst2 in Hfst1. clear Hfst2 Hrec1 Hrec2.
    destruct (for_enumerate E1 (S (Z.to_nat total)) videos (body total) 0 0 s1)
      as [[n1|e1] t1] eqn:Hloop1;
      destruct (for_enumerate E2 (S (Z.to_nat total)) videos (body total) 0 0 s1)
        as [[n2|e2] t2] eqn:Hloop2;
      cbn [fst snd] in *; try discriminate.
    + inversion Hfst1; subst n2.
      rewrite (bind_returns _ _ _ _ _ Hloop1), (bind_returns _ _ _ _ _ Hloop2).
      split; [reflexivity|].
      unfold root_after, modify. cbn [snd]. revert Hrec. unfold same_record. cbn.
      intros (H1 & H2 & H3 & H4 & H5 & H6). repeat split; congruence.
    + inversion Hfst1; subst.
      rewrite (bind_raises _ _ _ _ _ Hloop1), (bind_raises _ _ _ _ _ Hloop2).
      split; [reflexivity | exact Hrec].
Qed.

End Schedules.

(** The end of a worker, after its body: the same record when the bodies
    ended alike. *)
Lemma guarded_finish (message : string) (r1 r2 : outcome unit * App) :
  fst r1 = fst r2 ->
  same_record (snd r2) (snd r1) ->
  let finish (r : outcome unit * App) :=
    match r with
    | (Ret a, s1) => (Ret a, set_is_processing false s1)
    | (Raise e, s1) =>
        (Ret tt, set_is_processing false
                   (set_after_queue (after_queue s1 ++ [FailureBox message e]) s1))
    end in
  same_record (snd (finish r2)) (snd (finish r1)).
Proof.
  destruct r1 as [[a1|e1] s1], r2 as [[a2|e2] s2]; cbn [fst snd];
    intros Hfst Hrec; try discriminate; cbv zeta; cbn [snd];
    revert Hrec; unfold same_record; cbn;
    intros (H1 & H2 & H3 & H4 & H5 & H6); inversion Hfst; subst;
    repeat split; congruence.
Qed.

(** The record a worker leaves does not depend on what the front end does
    between its turns. *)
Lemma extract_thread_any_schedule (E : Env) (o : nat -> list front_event)
      (videos : loc) (s : App) :
  (videos < List.length (heap s))%nat ->
  same_record (snd (extract_last_frames_thread E videos s))
              (snd (extract_last_frames_thread (with_others o E) videos s)).
Proof.
  intros Hl. rewrite !extract_thread_run. cbv zeta.
  set (sa := set_status_var _ _).
  change (check_ffmpeg (with_others o E)) with (check_ffmpeg E).
  unfold check_ffmpeg. destruct (ffmpeg_version E) as [[]|e].
  - rewrite !(bind_returns _ _ sa sa true eq_refl). cbn [negb].
    rewrite !(bind_returns _ _ sa sa tt eq_refl).
    rewrite !(bind_returns (gets video_dir) _ sa sa (video_dir s) eq_refl).
    change (extract_item (with_others o E)) with (extract_item E).
    apply (guarded_finish "Extraction failed: ").
    all: apply (tail_any_schedule (with_others o E) E videos
                  (path_join (video_dir s) "last_frames")
                  (extract_item E (path_join (video_dir s) "last_frames"))
                  ExtractionComplete
                  (extract_item_turn_kept E _) (extract_item_respects E _) eq_refl sa Hl).
  - destruct e; apply same_record_refl.
Qed.

Lemma trim_thread_any_schedule (E : Env) (o : nat -> list front_event)
      (videos : loc) (s : App) :
  (videos < List.length (heap s))%nat ->
  same_record (snd (trim_last_frames_thread E videos s))
              (snd (trim_last_frames_thread (with_others o E) videos s)).
Proof.
  intros Hl. rewrite !trim_thread_run. cbv zeta.
  set (sa := set_status_var _ _).
  rewrite !(bind_returns (gets video_dir) _ sa sa (video_dir s) eq_refl).
  change (trim_item (with_others o E)) with (trim_item E).
  apply (guarded_finish "Trimming failed: ").
  all: apply (tail_any_schedule (with_others o E) E videos
                (path_join (video_dir s) "trimmed_videos")
                (trim_item E (path_join (video_dir s) "trimmed_videos"))
                TrimmingComplete
                (trim_item_turn_kept E _) (trim_item_respects E _) eq_refl sa Hl).
Qed.

Lemma nth_app_new (h : list (list string)) (x : list string) :
  list_at (h ++ [x]) (List.length h) = x.
Proof. unfold list_at. rewrite app_nth2 by lia. rewrite Nat.sub_diag. reflexivity. Qed.

(** C10.  The list of a run is a snapshot fixed at its start.
    [get_selected_videos(selected=False)] returns a new list object that
    holds the loaded videos, and it is that object a run started for all
    videos is given.  No front-end event (reloading the directory, choosing
    another one, rebinding [self.videos], asking for another run) changes a
    list object that exists.  So, whatever events run between the turns of
    a worker, its loop does what its turns do over the list as it was at the
    start, and the record the worker leaves (the tools run, the files
    reserved, what was printed, and the callback scheduled, with its counts)
    is the one it leaves when the front end does nothing. *)
Theorem snapshot_is_fixed :
  (forall s : App,
      get_selected_videos false s =
        (Ret (List.length (heap s)),
         set_heap (heap s ++ [list_at (heap s) (videos s)]) s)
      /\ list_at (heap s ++ [list_at (heap s) (videos s)]) (List.length (heap s)) =
         list_at (heap s) (videos s)
      /\ ((videos s < List.length (heap s))%nat -> List.length (heap s) <> videos s)
      /\ (is_processing s = false -> list_at (heap s) (videos s) <> [] ->
          snd (extract_last_frames false s) =
          set_threads (threads s ++ [ExtractThread (List.length (heap s))])
                      (set_heap (heap s ++ [list_at (heap s) (videos s)]) s)))
  /\ (forall (E : Env) (ev : front_event) (videos : loc) (s : App),
         (videos < List.length (heap s))%nat ->
         list_at (heap (run_event E ev s)) videos = list_at (heap s) videos
         /\ (videos < List.length (heap (run_event E ev s)))%nat)
  /\ (forall (E : Env) (videos : loc) (output_dir : string) (total_videos : Z)
             (bound : nat) (s : App),
         (videos < List.length (heap s))%nat ->
         (List.length (list_at (heap s) videos) < bound)%nat ->
         (fst (for_enumerate E bound videos (extract_item E output_dir total_videos) 0 0 s) =
          fst (process_snapshot (extract_item E output_dir total_videos)
                                (list_at (heap s) videos) 0 0 s)
          /\ same_record
               (snd (process_snapshot (extract_item E output_dir total_videos)
                                      (list_at (heap s) videos) 0 0 s))
               (snd (for_enumerate E bound videos
                                   (extract_item E output_dir total_videos) 0 0 s)))
         /\ (fst (for_enumerate E bound videos (trim_item E output_dir total_videos) 0 0 s) =
             fst (process_snapshot (trim_item E output_dir total_videos)
                                   (list_at (heap s) videos) 0 0 s)
             /\ same_record
                  (snd (process_snapshot (trim_item E output_dir total_videos)
                                         (list_at (heap s) videos) 0 0 s))
                  (snd (for_enumerate E bound videos
                                      (trim_item E output_dir total_videos) 0 0 s))))
  /\ (forall (E : Env) (o : nat -> list front_event) (videos : loc) (s : App),
         (videos < List.length (heap s))%nat ->
         same_record (snd (extract_last_frames_thread E videos s))
                     (snd (extract_last_frames_thread (with_others o E) videos s))
         /\ same_record (snd (trim_last_frames_thread E videos s))
                        (snd (trim_last_frames_thread (with_others o E) videos s))).
Proof.
  split; [|split; [|split]].
  - intros s. split; [reflexivity|]. split; [apply nth_app_new|]. split; [lia|].
    intros Hidle Hsome. unfold extract_last_frames, bind, gets. rewrite Hidle.
    cbn [get_selected_videos]. unfold bind, gets, alloc. cbn [fst snd heap set_heap].
    rewrite nth_app_new.
    destruct (list_at (heap s) (videos s)); [contradiction | reflexivity].
  - intros E ev videos s Hl.
    destruct (run_event_aside E ev s) as (_ & Hlen & Hheap).
    split; [apply Hheap, Hl | lia].
  - intros E videos output_dir total_videos bound s Hl Hb. split.
    + apply (for_enumerate_snapshot E videos (extract_item E output_dir total_videos)
               (extract_item_turn_kept E _ _) (extract_item_respects E _ _)
               bound 0 0 s s Hl (same_record_refl s)). lia.
    + apply (for_enumerate_snapshot E videos (trim_item E output_dir total_videos)
               (trim_item_turn_kept E _ _) (trim_item_respects E _ _)
               bound 0 0 s s Hl (same_record_refl s)). lia.
  - intros E o videos s Hl. split.
    + apply extract_thread_any_schedule, Hl.
    + apply trim_thread_any_schedule, Hl.
Qed.

Lemma snapshot_is_fixed_witness :
  same_record (snd (extract_last_frames_thread b_fails_env 1%nat two_videos))
              (snd (extract_last_frames_thread (with_others restless b_fails_env)
                      1%nat two_videos))
  /\ same_record (snd (trim_last_frames_thread b_fails_env 1%nat two_videos))
                 (snd (trim_last_frames_thread (with_others restless b_fails_env)
                         1%nat two_videos)).
Proof.
  exact (proj2 (proj2 (proj2 snapshot_is_fixed)) b_fails_env restless 1%nat two_videos
           ltac:(cbn; lia)).
Defined.

(** With a front end that reloads and rebinds the list before every turn,
    the run started on the two videos still processes both and reports 1 of
    2, while [self.videos] ends as the empty list of the last rebinding. *)
Example extract_under_restless_front_end :
  after_queue (snd (extract_last_frames_thread (with_others restless b_fails_env)
                      1%nat two_videos)) =
    [ExtractionComplete 1 "/v/last_frames" 2]
  /\ map (fun cmd => nth 5 cmd EmptyString)
         (tool_log (snd (extract_last_frames_thread (with_others restless b_fails_env)
                           1%nat two_videos))) = ["/v/a.mp4"; "/v/b.mov"]
  /\ list_at (heap (snd (extract_last_frames_thread (with_others restless b_fails_env)
                           1%nat two_videos)))
             (videos (snd (extract_last_frames_thread (with_others restless b_fails_env)
                             1%nat two_videos))) = [].
Proof. repeat split; vm_compute; reflexivity. Qed.

(** ** The directories only grow *)

Lemma grows_frame : FrameRel grows.
Proof.
  split.
  - intros s d entries H. exists entries. split; [exact H | apply incl_refl].
  - intros s1 s2 s3 H12 H23 d entries H.
    destruct (H12 d entries H) as (e2 & H2 & I2).
    destruct (H23 d e2 H2) as (e3 & H3 & I3).
    exists e3. split; [exact H3 | eapply incl_tran; eassumption].
Qed.

#[local] Existing Instance grows_frame.

(** A state with the same directories. *)
Lemma grows_same_fs (s s' : App) : fs s' = fs s -> grows s s'.
Proof.
  intros Hfs d entries H. exists entries. rewrite Hfs.
  split; [exact H | apply incl_refl].
Qed.

Ltac grows_setter :=
  lazymatch goal with
  | |- grows _ _ => apply grows_same_fs; reflexivity
  end.

Lemma lookup_update_dir_other (d d0 : string) (entries : list string)
      (dirs : list (string * list string)) :
  d0 <> d -> lookup_dir d0 (update_dir d entries dirs) = lookup_dir d0 dirs.
Proof.
  intros Hne. induction dirs as [|[d' old] rest IH]; cbn [update_dir lookup_dir].
  - destruct (String.eqb_spec d0 d); [contradiction | reflexivity].
  - destruct (String.eqb_spec d d') as [<-|Hdd']; cbn [lookup_dir].
    + destruct (String.eqb_spec d0 d); [contradiction | reflexivity].
    + destruct (String.eqb d0 d'); [reflexivity | exact IH].
Qed.

Lemma touch_grows (d name : string) : keeps grows (touch d name).
Proof.
  intros s. unfold touch. destruct (lookup_dir d (fs s)) as [entries|] eqn:Hdir;
    [|apply frame_refl].
  destruct (mem_string name entries); [apply frame_refl|]. cbn [snd].
  intros d0 e0 H0. cbn [fs set_fs].
  destruct (String.eqb_spec d0 d) as [->|Hne].
  - rewrite lookup_update_dir. exists (entries ++ [name])%list.
    split; [reflexivity|]. rewrite Hdir in H0. inversion H0; subst.
    apply incl_appl, incl_refl.
  - rewrite lookup_update_dir_other by exact Hne. exists e0.
    split; [exact H0 | apply incl_refl].
Qed.

Lemma makedirs_grows (E : Env) (d : string) : keeps grows (makedirs E d).
Proof.
  intros s. unfold makedirs. destruct (makedirs_raises E d); [apply frame_refl|].
  unfold modify. cbn [snd].
  destruct (lookup_dir d (fs s)) eqn:Hdir; [apply frame_refl|].
  intros d0 e0 H0. cbn [fs set_fs].
  destruct (String.eqb_spec d0 d) as [->|Hne]; [congruence|].
  rewrite lookup_update_dir_other by exact Hne. exists e0.
  split; [exact H0 | apply incl_refl].
Qed.

Lemma listdir_grows (d : string) : keeps grows (listdir d).
Proof. apply listdir_keeps. exact _. Qed.

Lemma list_select_grows (l : loc) (indices : list nat) : keeps grows (list_select l indices).
Proof. apply list_select_keeps. exact _. Qed.

Lemma alloc_grows (xs : list string) : keeps grows (alloc xs).
Proof. intros s. apply grows_same_fs. reflexivity. Qed.

Lemma videos_append_all_grows (xs : list string) : keeps grows (videos_append_all xs).
Proof.
  induction xs as [|x rest IH]; cbn [videos_append_all]; [frame|].
  apply keeps_bind; [exact _ | frame | intros l].
  apply keeps_bind; [exact _ | | intros []; exact IH].
  unfold list_append. frame. grows_setter.
Qed.

#[local] Hint Resolve touch_grows makedirs_grows listdir_grows list_select_grows
  alloc_grows videos_append_all_grows : frames.

Lemma messagebox_grows (d : dialog) : keeps grows (messagebox d).
Proof. unfold messagebox. frame. grows_setter. Qed.

Lemma print_grows (text : string) (e : option pyexn) : keeps grows (print text e).
Proof. unfold print. frame. grows_setter. Qed.

Lemma root_after_grows (c : callback) : keeps grows (root_after c).
Proof. unfold root_after. frame. grows_setter. Qed.

Lemma thread_start_grows (t : thread) : keeps grows (thread_start t).
Proof. unfold thread_start. frame. grows_setter. Qed.

#[local] Hint Resolve messagebox_grows print_grows root_after_grows thread_start_grows : frames.

Lemma get_video_info_grows (E : Env) (video_path : string) :
  keeps grows (get_video_info E video_path).
Proof.
  unfold get_video_info.
  destruct (probe E video_path) as [[dur fps]|e]; [frame|].
  destruct e; cbn [probe_failure]; frame.
Qed.

Lemma report_progress_grows (i total_videos : Z) (video_path : string) :
  keeps grows (report_progress i total_videos video_path).
Proof. unfold report_progress. frame; grows_setter. Qed.

Lemma reserve_output_grows (output_dir filename tag ext : string) :
  keeps grows (reserve_output output_dir filename tag ext).
Proof. unfold reserve_output, get_max_counter. frame. Qed.

Lemma run_tool_grows (E : Env) (cmd : list string) : keeps grows (run_tool E cmd).
Proof. unfold run_tool. frame. grows_setter. Qed.

Lemma check_ffmpeg_grows (E : Env) : keeps grows (check_ffmpeg E).
Proof. unfold check_ffmpeg. frame. Qed.

#[local] Hint Resolve get_video_info_grows report_progress_grows reserve_output_grows
  run_tool_grows check_ffmpeg_grows : frames.

Lemma extract_item_grows (E : Env) (output_dir : string) (total_videos i : Z)
      (video_path : string) (n : Z) :
  keeps grows (extract_item E output_dir total_videos i video_path n).
Proof. unfold extract_item. frame. Qed.

Lemma trim_item_grows (E : Env) (output_dir : string) (total_videos i : Z)
      (video_path : string) (n : Z) :
  keeps grows (trim_item E output_dir total_videos i video_path n).
Proof. unfold trim_item. frame. Qed.

Lemma process_new_video_grows (E : Env) (polls : nat -> option N) (video_path : string) :
  keeps grows (process_new_video E polls video_path).
Proof. unfold process_new_video. frame. Qed.

Lemma run_events_grows (E : Env) (evs : list front_event) (s : App) :
  grows s (run_events E evs s).
Proof.
  apply grows_same_fs. destruct (run_events_aside E evs s) as ((Hfs & _) & _). exact Hfs.
Qed.

Lemma for_enumerate_grows (E : Env) (bound : nat) (videos : loc)
      (body : Z -> string -> Z -> M Z) (i : nat) (n : Z) :
  (forall i v n, keeps grows (body i v n)) ->
  keeps grows (for_enumerate E bound videos body i n).
Proof.
  intros Hbody. revert i n. induction bound as [|bound IH]; intros i n s;
    cbn [for_enumerate]; [apply frame_refl|]. cbv zeta.
  pose proof (run_events_grows E (others E i) s) as Hev.
  set (s0 := run_events E (others E i) s) in *.
  destruct (nth_error (list_at (heap s0) videos) i) as [video_path|]; [|exact Hev].
  eapply frame_trans; [exact Hev|].
  apply (keeps_bind grows); [apply Hbody | intros n'; apply IH].
Qed.

Lemma len_grows (videos : loc) : keeps grows (len videos).
Proof. unfold len. frame. Qed.

#[local] Hint Resolve len_grows : frames.

Lemma extract_thread_grows (E : Env) (videos : loc) :
  keeps grows (extract_last_frames_thread E videos).
Proof.
  unfold extract_last_frames_thread. frame; try grows_setter.
  apply for_enumerate_grows. intros i v n. apply extract_item_grows.
Qed.

Lemma trim_thread_grows (E : Env) (videos : loc) :
  keeps grows (trim_last_frames_thread E videos).
Proof.
  unfold trim_last_frames_thread. frame; try grows_setter.
  apply for_enumerate_grows. intros i v n. apply trim_item_grows.
Qed.

(** * More properties of the program *)

(** ** OutputNamer: what the counter depends on *)

Lemma fold_right_max_perm (l l' : list Z) :
  Permutation l l' -> fold_right Z.max 0 l = fold_right Z.max 0 l'.
Proof.
  induction 1 as [|x l l' _ IH|x y l|l l' l'' _ IH1 _ IH2]; cbn [fold_right].
  - reflexivity.
  - rewrite IH. reflexivity.
  - lia.
  - congruence.
Qed.

Lemma parsed_counters_perm (tag : string) (entries entries' : list string) :
  Permutation entries entries' ->
  Permutation (parsed_counters tag entries) (parsed_counters tag entries').
Proof.
  induction 1 as [|x l l' _ IH|x y l|l l' l'' _ IH1 _ IH2]; cbn [parsed_counters flat_map].
  - constructor.
  - apply Permutation_app_head. exact IH.
  - rewrite !app_assoc. apply Permutation_app_tail, Permutation_app_comm.
  - eapply Permutation_trans; eassumption.
Qed.

Lemma parsed_counters_app (tag : string) (l1 l2 : list string) :
  parsed_counters tag (l1 ++ l2) = (parsed_counters tag l1 ++ parsed_counters tag l2)%list.
Proof. unfold parsed_counters. apply flat_map_app. Qed.

Lemma fold_right_max_app (l1 l2 : list Z) :
  fold_right Z.max 0 (l1 ++ l2) = Z.max (fold_right Z.max 0 l1) (fold_right Z.max 0 l2).
Proof.
  induction l1 as [|x l1 IH]; cbn [fold_right app].
  - pose proof (fold_right_max_nonneg l2). lia.
  - rewrite IH. lia.
Qed.

Lemma fold_right_max_least (l : list Z) (m : Z) :
  0 <= m -> (forall x, In x l -> x <= m) -> fold_right Z.max 0 l <= m.
Proof.
  intros Hm. induction l as [|x l IH]; cbn [fold_right]; intros Hall; [exact Hm|].
  pose proof (Hall x (or_introl eq_refl)).
  pose proof (IH (fun y Hy => Hall y (or_intror Hy))). lia.
Qed.

Lemma parsed_counters_In_inv (tag : string) (entries : list string) (n : Z) :
  In n (parsed_counters tag entries) ->
  exists file, In file entries /\ parsed_counter tag file = Some n.
Proof.
  unfold parsed_counters. rewrite in_flat_map. intros (file & Hin & Hn).
  exists file. split; [exact Hin|].
  destruct (parsed_counter tag file) as [k|]; [|contradiction].
  destruct Hn as [->|[]]. reflexivity.
Qed.

(** X1.  The counter does not depend on the order in which [os.listdir]
    returns the entries: two listings of the same entries give the same
    outcome of [get_max_counter], a number or the [ValueError] of an empty
    pattern. *)
Theorem get_max_counter_order_independent (s s' : App) (output_dir pattern : string)
        (entries entries' : list string) :
  lookup_dir output_dir (fs s) = Some entries ->
  lookup_dir output_dir (fs s') = Some entries' ->
  Permutation entries entries' ->
  fst (get_max_counter output_dir pattern s) = fst (get_max_counter output_dir pattern s').
Proof.
  intros Hdir Hdir' Hperm.
  destruct (string_dec pattern EmptyString) as [->|Hne].
  - unfold get_max_counter, bind, listdir, lift. rewrite Hdir, Hdir'. cbn [fst].
    destruct entries as [|file rest].
    + apply Permutation_nil in Hperm. subst entries'. reflexivity.
    + destruct entries' as [|file' rest'].
      * apply Permutation_sym, Permutation_nil in Hperm. discriminate.
      * cbn [scan_entries]. rewrite !scan_entry_empty_pattern. reflexivity.
  - rewrite (get_max_counter_value s _ _ _ Hne Hdir),
            (get_max_counter_value s' _ _ _ Hne Hdir'). cbn [fst].
    f_equal. apply fold_right_max_perm, parsed_counters_perm, Hperm.
Qed.

Lemma get_max_counter_order_independent_witness :
  fst (get_max_counter "out" "_last_" frames_dir) =
  fst (get_max_counter "out" "_last_"
         (set_fs [("out", ["notes.txt"; "a_last_1.jpg"; "b_last_2.jpg"; "c_last_x.jpg"])]
                 init_app)).
Proof.
  apply (get_max_counter_order_independent frames_dir _ "out" "_last_"
           ["a_last_1.jpg"; "notes.txt"; "b_last_2.jpg"; "c_last_x.jpg"]
           ["notes.txt"; "a_last_1.jpg"; "b_last_2.jpg"; "c_last_x.jpg"]);
    [reflexivity | reflexivity | apply perm_swap].
Defined.

(** X2.  Adding entries to a directory never lowers the counter: when
    every entry of one listing is an entry of another, [get_max_counter]
    returns on both and the number of the first is at most the number of
    the second. *)
Theorem get_max_counter_monotone (s s' : App) (output_dir tag : string)
        (entries entries' : list string) :
  tag <> EmptyString ->
  lookup_dir output_dir (fs s) = Some entries ->
  lookup_dir output_dir (fs s') = Some entries' ->
  incl entries entries' ->
  exists n n',
    get_max_counter output_dir tag s = (Ret n, s)
    /\ get_max_counter output_dir tag s' = (Ret n', s')
    /\ n <= n'.
Proof.
  intros Hne Hdir Hdir' Hincl.
  do 2 eexists. split; [apply get_max_counter_value; eassumption|].
  split; [apply get_max_counter_value; eassumption|].
  apply fold_right_max_least; [apply fold_right_max_nonneg|].
  intros x Hx. destruct (parsed_counters_In_inv _ _ _ Hx) as (file & Hin & Hp).
  apply fold_right_max_In. eapply parsed_counters_In; [apply Hincl, Hin | exact Hp].
Qed.

Lemma get_max_counter_monotone_witness :
  exists n n',
    get_max_counter "out" "_last_" frames_dir = (Ret n, frames_dir)
    /\ get_max_counter "out" "_last_"
         (set_fs [("out", ["z_last_7.jpg"; "a_last_1.jpg"; "notes.txt"; "b_last_2.jpg";
                           "c_last_x.jpg"])] init_app)
       = (Ret n', set_fs [("out", ["z_last_7.jpg"; "a_last_1.jpg"; "notes.txt";
                                   "b_last_2.jpg"; "c_last_x.jpg"])] init_app)
    /\ n <= n'.
Proof.
  apply (get_max_counter_monotone frames_dir _ "out" "_last_"
           ["a_last_1.jpg"; "notes.txt"; "b_last_2.jpg"; "c_last_x.jpg"]
           ["z_last_7.jpg"; "a_last_1.jpg"; "notes.txt"; "b_last_2.jpg"; "c_last_x.jpg"]);
    [discriminate | reflexivity | reflexivity |].
  intros x Hx. right. exact Hx.
Defined.

(** ** OutputNamer: what a reservation does to the directory *)

(** A reservation in a directory that is there, step by step. *)
Lemma reserve_output_run (s : App) (output_dir filename tag ext : string)
      (entries : list string) :
  tag <> EmptyString ->
  lookup_dir output_dir (fs s) = Some entries ->
  let c := fold_right Z.max 0 (parsed_counters tag entries) + 1 in
  let name := filename ++ tag ++ str_of_Z c ++ ext in
  reserve_output output_dir filename tag ext s =
  (Ret (c, path_join output_dir name),
   if mem_string name entries then s
   else set_fs (update_dir output_dir (entries ++ [name]) (fs s)) s).
Proof.
  intros Hne Hdir c name. unfold reserve_output.
  rewrite (bind_returns _ _ _ _ _ (get_max_counter_value s _ _ _ Hne Hdir)).
  fold c. fold name. unfold bind, touch, ret. rewrite Hdir.
  destruct (mem_string name entries); reflexivity.
Qed.

Lemma tag_nonempty (tag : string) :
  tag = "_last_" \/ tag = "_trimmed_" -> tag <> EmptyString.
Proof. intros [->| ->]; discriminate. Qed.

(** The name built from the counter is not in the listing the counter was
    computed from. *)
Lemma reserved_name_not_listed (filename tag ext : string) (entries : list string) :
  tag = "_last_" \/ tag = "_trimmed_" ->
  mem_string (lower ext) video_extensions = true \/ ext = ".jpg" ->
  mem_string (filename ++ tag
              ++ str_of_Z (fold_right Z.max 0 (parsed_counters tag entries) + 1) ++ ext)
             entries = false.
Proof.
  intros Htag Hext.
  destruct (mem_string _ entries) eqn:Hmem; [|reflexivity].
  apply mem_string_In in Hmem.
  pose proof (reserved_name_parses filename tag ext
                (fold_right Z.max 0 (parsed_counters tag entries) + 1) Htag
                (video_extension_plain _ Hext)) as Hparse.
  pose proof (fold_right_max_In _ _ (parsed_counters_In _ _ _ _ Hmem Hparse)). lia.
Qed.

(** X3.  A reservation never takes the name of a file that is there.  For
    the tags and extensions the callers use, the name reserved is not an
    entry of the directory before the reservation; the reservation appends
    it to the listing and leaves every other directory as it was. *)
Theorem reserved_name_is_new (s s1 : App) (output_dir filename tag ext p : string) (c : Z)
        (entries : list string) :
  tag = "_last_" \/ tag = "_trimmed_" ->
  mem_string (lower ext) video_extensions = true \/ ext = ".jpg" ->
  lookup_dir output_dir (fs s) = Some entries ->
  reserve_output output_dir filename tag ext s = (Ret (c, p), s1) ->
  ~ In (filename ++ tag ++ str_of_Z c ++ ext) entries
  /\ lookup_dir output_dir (fs s1) = Some (List.app entries [filename ++ tag ++ str_of_Z c ++ ext])
  /\ (forall d, d <> output_dir -> lookup_dir d (fs s1) = lookup_dir d (fs s))
  /\ p = path_join output_dir (filename ++ tag ++ str_of_Z c ++ ext).
Proof.
  intros Htag Hext Hdir Hres.
  pose proof (reserve_output_run s output_dir filename tag ext entries
                (tag_nonempty _ Htag) Hdir) as Hrun.
  cbv zeta in Hrun. rewrite Hrun in Hres.
  pose proof (reserved_name_not_listed filename tag ext entries Htag Hext) as Hnew.
  rewrite Hnew in Hres. inversion Hres; subst; clear Hres.
  split; [|split; [|split]].
  - intros Hin. apply mem_string_In in Hin. congruence.
  - cbn [fs set_fs]. apply lookup_update_dir.
  - intros d Hd. cbn [fs set_fs]. apply lookup_update_dir_other. exact Hd.
  - reflexivity.
Qed.

Lemma reserved_name_is_new_witness :
  ~ In ("clip" ++ "_last_" ++ str_of_Z 3 ++ ".jpg")
       ["a_last_1.jpg"; "notes.txt"; "b_last_2.jpg"; "c_last_x.jpg"]
  /\ lookup_dir "out" (fs (snd (reserve_output "out" "clip" "_last_" ".jpg" frames_dir))) =
     Some (List.app ["a_last_1.jpg"; "notes.txt"; "b_last_2.jpg"; "c_last_x.jpg"]
                    ["clip" ++ "_last_" ++ str_of_Z 3 ++ ".jpg"])
  /\ (forall d, d <> "out" ->
                lookup_dir d (fs (snd (reserve_output "out" "clip" "_last_" ".jpg" frames_dir)))
                = lookup_dir d (fs frames_dir))
  /\ "out/clip_last_3.jpg" = path_join "out" ("clip" ++ "_last_" ++ str_of_Z 3 ++ ".jpg").
Proof.
  exact (reserved_name_is_new frames_dir
           (snd (reserve_output "out" "clip" "_last_" ".jpg" frames_dir))
           "out" "clip" "_last_" ".jpg" "out/clip_last_3.jpg" 3
           ["a_last_1.jpg"; "notes.txt"; "b_last_2.jpg"; "c_last_x.jpg"]
           (or_introl eq_refl) (or_intror eq_refl) eq_refl eq_refl).
Defined.

(** X4.  Two reservations in a row for the same directory and tag, with
    the extensions the callers use (that of a frame, or that of a listed
    video), get consecutive counters, whatever the stems, and both
    placeholders are in the directory afterwards under different names. *)
Theorem reserve_output_consecutive (s s1 s2 : App) (output_dir tag : string)
        (filename1 ext1 p1 filename2 ext2 p2 : string) (c1 c2 : Z) :
  tag = "_last_" \/ tag = "_trimmed_" ->
  mem_string (lower ext1) video_extensions = true \/ ext1 = ".jpg" ->
  mem_string (lower ext2) video_extensions = true \/ ext2 = ".jpg" ->
  reserve_output output_dir filename1 tag ext1 s = (Ret (c1, p1), s1) ->
  reserve_output output_dir filename2 tag ext2 s1 = (Ret (c2, p2), s2) ->
  c2 = c1 + 1
  /\ filename1 ++ tag ++ str_of_Z c1 ++ ext1 <> filename2 ++ tag ++ str_of_Z c2 ++ ext2
  /\ exists entries2,
       lookup_dir output_dir (fs s2) = Some entries2
       /\ In (filename1 ++ tag ++ str_of_Z c1 ++ ext1) entries2
       /\ In (filename2 ++ tag ++ str_of_Z c2 ++ ext2) entries2.
Proof.
  intros Htag Hext1 Hext2 Hres1 Hres2.
  pose proof (tag_nonempty _ Htag) as Hne.
  destruct (lookup_dir output_dir (fs s)) as [entries|] eqn:Hdir.
  2:{ unfold reserve_output, get_max_counter, bind, listdir in Hres1.
      rewrite Hdir in Hres1. discriminate. }
  pose proof (reserve_output_run s output_dir filename1 tag ext1 entries Hne Hdir) as Hrun1.
  cbv zeta in Hrun1. rewrite Hrun1 in Hres1.
  rewrite (reserved_name_not_listed filename1 tag ext1 entries Htag Hext1) in Hres1.
  inversion Hres1; subst c1 p1 s1; clear Hres1.
  set (c1 := fold_right Z.max 0 (parsed_counters tag entries) + 1) in *.
  set (name1 := filename1 ++ tag ++ str_of_Z c1 ++ ext1) in *.
  assert (Hdir1 : lookup_dir output_dir
                    (fs (set_fs (update_dir output_dir (entries ++ [name1]) (fs s)) s))
                  = Some (entries ++ [name1])%list)
    by (cbn [fs set_fs]; apply lookup_update_dir).
  pose proof (reserve_output_run _ output_dir filename2 tag ext2 _ Hne Hdir1) as Hrun2.
  cbv zeta in Hrun2. rewrite Hrun2 in Hres2.
  rewrite (reserved_name_not_listed filename2 tag ext2 _ Htag Hext2) in Hres2.
  assert (Hparse1 : parsed_counter tag name1 = Some c1)
    by (apply reserved_name_parses; [exact Htag | apply video_extension_plain, Hext1]).
  assert (Hmax : fold_right Z.max 0 (parsed_counters tag (entries ++ [name1])) = c1).
  { rewrite parsed_counters_app, fold_right_max_app.
    cbn [parsed_counters flat_map]. rewrite Hparse1. cbn [app fold_right].
    pose proof (fold_right_max_nonneg (parsed_counters tag entries)). subst c1. lia. }
  rewrite Hmax in Hres2. inversion Hres2; subst c2 p2 s2; clear Hres2.
  split; [reflexivity|]. split.
  - intros Heq.
    assert (Hparse2 : parsed_counter tag (filename2 ++ tag ++ str_of_Z (c1 + 1) ++ ext2)
                      = Some (c1 + 1))
      by (apply reserved_name_parses; [exact Htag | apply video_extension_plain, Hext2]).
    fold name1 in Heq. rewrite <- Heq, Hparse1 in Hparse2. inversion Hparse2. lia.
  - eexists. split; [cbn [fs set_fs]; apply lookup_update_dir|].
    split; apply in_or_app; [left; apply in_or_app; right | right]; left; reflexivity.
Qed.

Lemma reserve_output_consecutive_witness :
  4 = 3 + 1
  /\ "clip" ++ "_last_" ++ str_of_Z 3 ++ ".jpg" <> "clip" ++ "_last_" ++ str_of_Z 4 ++ ".jpg"
  /\ exists entries2,
       lookup_dir "out"
         (fs (snd (reserve_output "out" "clip" "_last_" ".jpg"
                     (snd (reserve_output "out" "clip" "_last_" ".jpg" frames_dir)))))
       = Some entries2
       /\ In ("clip" ++ "_last_" ++ str_of_Z 3 ++ ".jpg") entries2
       /\ In ("clip" ++ "_last_" ++ str_of_Z 4 ++ ".jpg") entries2.
Proof.
  exact (reserve_output_consecutive frames_dir
           (snd (reserve_output "out" "clip" "_last_" ".jpg" frames_dir))
           (snd (reserve_output "out" "clip" "_last_" ".jpg"
                   (snd (reserve_output "out" "clip" "_last_" ".jpg" frames_dir))))
           "out" "_last_" "clip" ".jpg" "out/clip_last_3.jpg"
           "clip" ".jpg" "out/clip_last_4.jpg" 3 4
           (or_introl eq_refl) (or_intror eq_refl) (or_intror eq_refl) eq_refl eq_refl).
Defined.

(** ** The count of a run is the number of commands that returned *)

Lemma same_tools_frame : FrameRel same_tools.
Proof. split; unfold same_tools; [reflexivity | congruence]. Qed.

#[local] Existing Instance same_tools_frame.

Lemma print_same_tools (text : string) (e : option pyexn) : keeps same_tools (print text e).
Proof. intros s. reflexivity. Qed.

Lemma messagebox_same_tools (d : dialog) : keeps same_tools (messagebox d).
Proof. intros s. reflexivity. Qed.

Lemma root_after_same_tools (c : callback) : keeps same_tools (root_after c).
Proof. intros s. reflexivity. Qed.

Lemma get_video_info_same_tools (E : Env) (video_path : string) :
  keeps same_tools (get_video_info E video_path).
Proof. intros s. apply (get_video_info_untouched E video_path s). Qed.

Lemma report_progress_same_tools (i total_videos : Z) (video_path : string) :
  keeps same_tools (report_progress i total_videos video_path).
Proof. intros s. apply (report_progress_untouched i total_videos video_path s). Qed.

Lemma touch_same_tools (d name : string) : keeps same_tools (touch d name).
Proof.
  intros s. unfold touch. destruct (lookup_dir d (fs s)); [|reflexivity].
  destruct (mem_string name l); reflexivity.
Qed.

Lemma listdir_same_tools (d : string) : keeps same_tools (listdir d).
Proof. apply listdir_keeps. exact _. Qed.

#[local] Hint Resolve print_same_tools messagebox_same_tools root_after_same_tools
  get_video_info_same_tools report_progress_same_tools touch_same_tools
  listdir_same_tools : frames.

Lemma reserve_output_same_tools (output_dir filename tag ext : string) :
  keeps same_tools (reserve_output output_dir filename tag ext).
Proof. unfold reserve_output, get_max_counter. frame. Qed.

Lemma makedirs_same_tools (E : Env) (d : string) : keeps same_tools (makedirs E d).
Proof.
  intros s. unfold makedirs. destruct (makedirs_raises E d); [reflexivity|].
  unfold modify. cbn [snd]. destruct (lookup_dir d (fs s)); reflexivity.
Qed.

Lemma check_ffmpeg_same_tools (E : Env) : keeps same_tools (check_ffmpeg E).
Proof. unfold check_ffmpeg. frame. Qed.

#[local] Hint Resolve reserve_output_same_tools makedirs_same_tools
  check_ffmpeg_same_tools : frames.

Lemma count_succeeded_nil (E : Env) : count_succeeded E [] = 0.
Proof. reflexivity. Qed.

Lemma count_succeeded_app (E : Env) (l1 l2 : list (list string)) :
  count_succeeded E (l1 ++ l2) = count_succeeded E l1 + count_succeeded E l2.
Proof. unfold count_succeeded. rewrite filter_app, length_app. lia. Qed.


Section Tallies.

Variables (E : Env) (n : Z).

Lemma tallies_ret : tallies E n (ret n).
Proof.
  intros s. exists []. cbn [ret fst snd]. rewrite app_nil_r.
  split; [reflexivity | split; [cbn; lia | rewrite count_succeeded_nil; lia]].
Qed.

Lemma tallies_bind {A : Type} (m : M A) (k : A -> M Z) :
  keeps same_tools m -> (forall a, tallies E n (k a)) -> tallies E n (bind m k).
Proof.
  intros Hm Hk s. unfold bind. pose proof (Hm s) as Hs. unfold same_tools in Hs.
  destruct (m s) as [[a|e] s1]; cbn [snd] in Hs.
  - destruct (Hk a s1) as (cmds & Hlog & Hlen & Hres). exists cmds.
    rewrite Hlog, Hs. split; [reflexivity | split; assumption].
  - exists []. cbn [fst snd]. rewrite app_nil_r.
    split; [exact Hs | split; [cbn; lia | reflexivity]].
Qed.

(** The command and the statement that counts it. *)
Lemma tallies_run (cmd : list string) :
  tallies E n (run_tool E cmd ;; ret (n + 1)).
Proof.
  intros s. exists [cmd]. unfold run_tool, bind, modify, lift, ret.
  unfold count_succeeded, succeeded. cbn [filter].
  destruct (ffmpeg_run E cmd) as [[]|e]; cbn [fst snd tool_log set_tool_log List.length];
    (split; [reflexivity | split; [lia | lia]]).
Qed.

(** The handler of a turn: it prints and returns the count as it was. *)
Lemma tallies_try_except (body : M Z) (pr : pyexn -> M unit) :
  tallies E n body ->
  (forall e, keeps same_tools (pr e)) ->
  (forall e s, exists a, fst (pr e s) = Ret a) ->
  tallies E n (try_except body (fun e => pr e ;; ret n)).
Proof.
  intros Hbody Hkeep Hret s. unfold try_except.
  destruct (Hbody s) as (cmds & Hlog & Hlen & Hres).
  destruct (body s) as [[n'|e] s1]; cbn [fst snd] in *.
  - exists cmds. split; [exact Hlog | split; assumption].
  - exists cmds. unfold bind, ret.
    pose proof (Hkeep e s1) as Hs. unfold same_tools in Hs.
    destruct (Hret e s1) as (a & Ha).
    destruct (pr e s1) as [[a'|e'] s2]; cbn [fst snd] in *; [|discriminate].
    split; [congruence | split; [exact Hlen | lia]].
Qed.

End Tallies.

Ltac tally_step :=
  lazymatch goal with
  | |- tallies _ ?n (ret ?n) => apply tallies_ret
  | |- tallies _ _ (bind (run_tool _ _) _) => apply tallies_run
  | |- tallies _ _ (bind _ _) => apply tallies_bind; [solve [frame] | intros ?]
  | |- tallies _ _ (match ?x with _ => _ end) => destruct x
  end.

Lemma extract_item_tallies (E : Env) (output_dir : string) (total_videos i : Z)
      (video_path : string) (n : Z) :
  tallies E n (extract_item E output_dir total_videos i video_path n).
Proof.
  unfold extract_item. apply tallies_try_except.
  - repeat tally_step.
  - intros e. apply print_same_tools.
  - intros e s. exists tt. reflexivity.
Qed.

Lemma trim_item_tallies (E : Env) (output_dir : string) (total_videos i : Z)
      (video_path : string) (n : Z) :
  tallies E n (trim_item E output_dir total_videos i video_path n).
Proof.
  unfold trim_item.
  apply (tallies_try_except E n _
           (fun e => match e with
                     | TimeoutExpired => print ("Timeout trimming " ++ path_name video_path) None
                     | CalledProcessError =>
                         print ("Failed to trim " ++ path_name video_path ++ ": ") (Some e)
                     | _ => print ("Error processing " ++ video_path ++ ": ") (Some e)
                     end)).
  - repeat tally_step.
  - intros e. destruct e; apply print_same_tools.
  - intros e s. exists tt. destruct e; reflexivity.
Qed.

Section TallyLoop.

Variables (E : Env) (videos : loc) (body : Z -> string -> Z -> M Z).
Hypothesis body_yields : forall i v n, yields (fun n' => n <= n' <= n + 1) (body i v n).
Hypothesis body_kept : forall i v n, keeps turn_kept (body i v n).
Hypothesis body_tallies : forall i v n, tallies E n (body i v n).

(** The loop adds to the count the number of its commands that returned;
    it runs at most one command for each element from [i] on. *)
Lemma for_enumerate_tally (bound i : nat) (n : Z) (s : App) :
  (videos < List.length (heap s))%nat ->
  exists cmds s',
    for_enumerate E bound videos body i n s = (Ret (n + count_succeeded E cmds), s')
    /\ tool_log s' = (tool_log s ++ cmds)%list
    /\ (List.length cmds <= List.length (list_at (heap s) videos) - i)%nat
    /\ after_queue s' = after_queue s.
Proof.
  revert i n s. induction bound as [|bound IH]; intros i n s Hl.
  - exists [], s. cbn [for_enumerate]. rewrite count_succeeded_nil, Z.add_0_r, app_nil_r.
    split; [reflexivity | split; [reflexivity | split; [cbn; lia | reflexivity]]].
  - cbn [for_enumerate]. cbv zeta.
    destruct (events_keep_list E videos i s Hl) as (Hq0 & Hlist0 & Hl0).
    destruct (run_events_aside E (others E i) s) as ((_ & Htools0 & _) & _).
    set (s0 := run_events E (others E i) s) in *.
    destruct (nth_error (list_at (heap s0) videos) i) as [video_path|] eqn:Hnth.
    + unfold bind.
      destruct (body_yields (Z.of_nat i) video_path n s0) as (n1 & Hret & _).
      destruct (body_kept (Z.of_nat i) video_path n s0) as (Hq1 & Hheap1).
      destruct (body_tallies (Z.of_nat i) video_path n s0) as (cmds1 & Hlog1 & Hlen1 & Hres1).
      destruct (body (Z.of_nat i) video_path n s0) as [[n1'|e] s1]; cbn [fst snd] in *;
        [|discriminate].
      subst n1'.
      assert (Hl1 : (videos < List.length (heap s1))%nat) by (rewrite Hheap1; exact Hl0).
      destruct (IH (S i) (n + count_succeeded E cmds1) s1 Hl1)
        as (cmds & s' & Hrun & Hlog & Hlen & Hq').
      exists (cmds1 ++ cmds)%list, s'.
      rewrite count_succeeded_app, Z.add_assoc. split; [exact Hrun|].
      assert (Hi : (i < List.length (list_at (heap s0) videos))%nat)
        by (apply nth_error_Some; congruence).
      rewrite Hheap1, Hlist0 in Hlen. rewrite Hlist0 in Hi.
      split; [rewrite Hlog, Hlog1, Htools0, app_assoc; reflexivity|].
      split; [rewrite length_app; lia | congruence].
    + exists [], s0. rewrite count_succeeded_nil, Z.add_0_r, app_nil_r.
      split; [reflexivity | split; [exact Htools0 | split; [cbn; lia | exact Hq0]]].
Qed.

End TallyLoop.

Section TallyTail.

Variables (E : Env) (videos : loc) (output_dir : string)
          (body : Z -> Z -> string -> Z -> M Z) (complete : Z -> string -> Z -> callback).
Hypothesis body_yields :
  forall t i v n, yields (fun n' => n <= n' <= n + 1) (body t i v n).
Hypothesis body_kept : forall t i v n, keeps turn_kept (body t i v n).
Hypothesis body_tallies : forall t i v n, tallies E n (body t i v n).

Lemma tail_tally (s : App) :
  makedirs_raises E output_dir = None ->
  (videos < List.length (heap s))%nat ->
  exists cmds s',
    (makedirs E output_dir ;;
     total_videos <- len videos ;;
     success_count <-
       for_enumerate E (S (Z.to_nat total_videos)) videos (body total_videos) 0 0 ;;
     root_after (complete success_count output_dir total_videos)) s = (Ret tt, s')
    /\ tool_log s' = (tool_log s ++ cmds)%list
    /\ (List.length cmds <= List.length (list_at (heap s) videos))%nat
    /\ after_queue s' =
       (after_queue s ++
        [complete (count_succeeded E cmds) output_dir
                  (Z.of_nat (List.length (list_at (heap s) videos)))])%list.
Proof.
  intros Hmk Hl.
  destruct (makedirs_returns E output_dir s Hmk) as (s1 & Hrun1 & Hheap1 & Hq1).
  pose proof (makedirs_same_tools E output_dir s) as Htools1.
  rewrite Hrun1 in Htools1. unfold same_tools in Htools1. cbn [snd] in Htools1.
  rewrite (bind_returns _ _ _ _ _ Hrun1).
  unfold len. unfold bind at 1. cbn [gets fst snd]. rewrite Hheap1.
  set (total := Z.of_nat (List.length (list_at (heap s) videos))).
  assert (Hl1 : (videos < List.length (heap s1))%nat) by (rewrite Hheap1; exact Hl).
  destruct (for_enumerate_tally E videos (body total) (body_yields total) (body_kept total)
              (body_tallies total) (S (Z.to_nat total)) 0 0 s1 Hl1)
    as (cmds & s2 & Hrun2 & Hlog2 & Hlen2 & Hq2).
  rewrite (bind_returns _ _ _ _ _ Hrun2).
  exists cmds. eexists. split; [reflexivity|].
  rewrite Hheap1, Nat.sub_0_r in Hlen2.
  split; [cbn; congruence | split; [exact Hlen2|]].
  cbn. rewrite Hq2, Hq1. reflexivity.
Qed.

End TallyTail.

(** X5.  The count a run reports is exact.  When a worker runs to its end
    (ffmpeg is found, for extraction, and the output directory can be made),
    the completion callback it schedules carries the number of ffmpeg
    commands of the run that returned, out of the commands the run added to
    the log of the tools, at most one for each video; a command that raised
    or timed out is in the log and not in the count. *)
Theorem success_count_is_exact (E : Env) (videos : loc) (s : App) :
  (videos < List.length (heap s))%nat ->
  let total := Z.of_nat (List.length (list_at (heap s) videos)) in
  (ffmpeg_version E = Ret tt ->
   makedirs_raises E (path_join (video_dir s) "last_frames") = None ->
   let s' := snd (extract_last_frames_thread E videos s) in
   exists cmds,
     tool_log s' = (tool_log s ++ cmds)%list
     /\ (List.length cmds <= List.length (list_at (heap s) videos))%nat
     /\ after_queue s' =
        (after_queue s ++
         [ExtractionComplete (count_succeeded E cmds)
                             (path_join (video_dir s) "last_frames") total])%list)
  /\ (makedirs_raises E (path_join (video_dir s) "trimmed_videos") = None ->
      let s' := snd (trim_last_frames_thread E videos s) in
      exists cmds,
        tool_log s' = (tool_log s ++ cmds)%list
        /\ (List.length cmds <= List.length (list_at (heap s) videos))%nat
        /\ after_queue s' =
           (after_queue s ++
            [TrimmingComplete (count_succeeded E cmds)
                              (path_join (video_dir s) "trimmed_videos") total])%list).
Proof.
  intros Hl total. split.
  - intros Hff Hmk s'. subst s'. rewrite extract_thread_run. cbv zeta.
    set (sa := set_status_var "Extracting last frames..."
                 (set_progress_var 0%float (set_is_processing true s))).
    unfold check_ffmpeg. rewrite Hff.
    rewrite (bind_returns _ _ sa sa true eq_refl). cbn [negb].
    rewrite (bind_returns _ _ sa sa tt eq_refl).
    rewrite (bind_returns (gets video_dir) _ sa sa (video_dir s) eq_refl).
    destruct (tail_tally E videos (path_join (video_dir s) "last_frames")
                (fun t => extract_item E (path_join (video_dir s) "last_frames") t)
                ExtractionComplete
                (fun t => extract_item_yields E _ t)
                (fun t => extract_item_turn_kept E _ t)
                (fun t => extract_item_tallies E _ t) sa Hmk Hl)
      as (cmds & s1 & Hrun & Hlog & Hlen & Hq).
    rewrite Hrun. exists cmds. cbn [snd tool_log after_queue set_is_processing].
    split; [exact Hlog | split; [exact Hlen | exact Hq]].
  - intros Hmk s'. subst s'. rewrite trim_thread_run. cbv zeta.
    set (sa := set_status_var "Trimming last frames..."
                 (set_progress_var 0%float (set_is_processing true s))).
    rewrite (bind_returns (gets video_dir) _ sa sa (video_dir s) eq_refl).
    destruct (tail_tally E videos (path_join (video_dir s) "trimmed_videos")
                (fun t => trim_item E (path_join (video_dir s) "trimmed_videos") t)
                TrimmingComplete
                (fun t => trim_item_yields E _ t)
                (fun t => trim_item_turn_kept E _ t)
                (fun t => trim_item_tallies E _ t) sa Hmk Hl)
      as (cmds & s1 & Hrun & Hlog & Hlen & Hq).
    rewrite Hrun. exists cmds. cbn [snd tool_log after_queue set_is_processing].
    split; [exact Hlog | split; [exact Hlen | exact Hq]].
Qed.

Lemma success_count_is_exact_witness :
  exists cmds,
    tool_log (snd (extract_last_frames_thread b_fails_env 1%nat two_videos)) =
    (tool_log two_videos ++ cmds)%list
    /\ (List.length cmds <= List.length (list_at (heap two_videos) 1%nat))%nat
    /\ after_queue (snd (extract_last_frames_thread b_fails_env 1%nat two_videos)) =
       (after_queue two_videos ++
        [ExtractionComplete (count_succeeded b_fails_env cmds)
           (path_join (video_dir two_videos) "last_frames")
           (Z.of_nat (List.length (list_at (heap two_videos) 1%nat)))])%list.
Proof.
  exact (proj1 (success_count_is_exact b_fails_env 1%nat two_videos ltac:(cbn; lia))
               eq_refl eq_refl).
Defined.

(** ** A turn that processes its video *)

Lemma try_except_bind_returns {A B : Type} (m : M A) (k : A -> M B)
      (handler : pyexn -> M B) (s s1 : App) (a : A) :
  m s = (Ret a, s1) ->
  try_except (bind m k) handler s = try_except (k a) handler s1.
Proof. intros H. unfold try_except, bind. rewrite H. reflexivity. Qed.

Lemma report_progress_run (i total_videos : Z) (video_path : string) (s : App) :
  total_videos <> 0 ->
  report_progress i total_videos video_path s =
  (Ret tt,
   set_status_var ("Processing: " ++ path_name video_path)
     (set_progress_var (float_of_Z i / float_of_Z total_videos * 100)%float s)).
Proof.
  intros Hne. unfold report_progress, int_div, bind, lift, modify.
  destruct (Z.eqb_spec total_videos 0); [contradiction | reflexivity].
Qed.



(** ** MediaProbe: what leaves [get_video_info] *)

Lemma first_video_stream_raises (l : list stream) (e : pyexn) :
  first_video_stream l = Raise e -> e = KeyError.
Proof.
  induction l as [|st rest IH]; cbn [first_video_stream]; [discriminate|].
  destruct (codec_type st) as [t|]; [|intros H; inversion H; reflexivity].
  destruct (String.eqb t "video"); [discriminate | exact IH].
Qed.

Lemma stream_fps_raises (E : Env) (video_stream : option stream) (e : pyexn) :
  stream_fps E video_stream = Raise e -> e = ValueError \/ e = ZeroDivisionError.
Proof.
  unfold stream_fps, to_float, float_div.
  destruct video_stream as [vs|]; [|discriminate].
  destruct (r_frame_rate vs) as [r|]; [|discriminate].
  destruct (_ && _); [|discriminate].
  destruct (float_of_string E (nth 0 _ _)); [|intros H; inversion H; left; reflexivity].
  destruct (float_of_string E (nth 1 _ _)) as [den|];
    [|intros H; inversion H; left; reflexivity].
  destruct (den =? 0)%float; [intros H; inversion H; right; reflexivity | discriminate].
Qed.

(** Once ffprobe has answered, nothing that the body of the [try] raises
    is outside the second [except] clause. *)
Lemma probe_raises (E : Env) (video_path : string) (data : probe_data) (e : pyexn) :
  ffprobe_json E video_path = Ret data ->
  probe E video_path = Raise e ->
  e = KeyError \/ e = ValueError \/ e = ZeroDivisionError.
Proof.
  intros Hjson. unfold probe. rewrite Hjson.
  destruct (format data) as [fmt|]; [|intros H; inversion H; auto].
  destruct (duration fmt) as [d|]; [|intros H; inversion H; auto].
  unfold to_float.
  destruct (float_of_string E d) as [dur|]; [|intros H; inversion H; auto].
  destruct (streams data) as [l|]; [|intros H; inversion H; auto].
  destruct (first_video_stream l) as [video_stream|e1] eqn:Hfirst.
  - destruct (stream_fps E video_stream) as [fps|e2] eqn:Hfps; [discriminate|].
    intros H; inversion H; subst e2.
    destruct (stream_fps_raises _ _ _ Hfps); auto.
  - intros H; inversion H; subst e1. left. exact (first_video_stream_raises _ _ Hfirst).
Qed.

(** X7.  [get_video_info] returns both values or neither, and lets through
    only what ffprobe itself raises outside its [except] clauses.  This is
    for an output of ffprobe that parses to JSON of the shape ffprobe
    prints, which is what [probe_data] holds: an object whose [format] and
    [streams], where present, are an object with a string [duration] and a
    list of objects with string [codec_type] and [r_frame_rate].  Once
    ffprobe has answered with such an output, the function returns: the
    duration and the rate with the application as it was, or
    [(None, None)] after printing one line that carries a [KeyError], a
    [ValueError] or a [ZeroDivisionError].  When the run of ffprobe raises,
    a timeout, a failed process or an unreadable output gives
    [(None, None)]; any other exception, such as the [FileNotFoundError] of
    a missing ffprobe, leaves the function with nothing printed. *)
Theorem get_video_info_outcomes (E : Env) (video_path : string) (s : App) :
  (forall data, ffprobe_json E video_path = Ret data ->
     (exists dur fps, get_video_info E video_path s = (Ret (Some dur, Some fps), s))
     \/ (exists e,
           (e = KeyError \/ e = ValueError \/ e = ZeroDivisionError)
           /\ get_video_info E video_path s =
              (Ret (None, None),
               set_printed (printed s ++
                 [Printed ("Error getting info for " ++ path_name video_path ++ ": ")
                          (Some e)]) s)))
  /\ (forall e, ffprobe_json E video_path = Raise e ->
        match e with
        | TimeoutExpired =>
            get_video_info E video_path s =
            (Ret (None, None),
             set_printed (printed s ++
               [Printed ("Timeout getting info for " ++ path_name video_path) None]) s)
        | CalledProcessError | JSONDecodeError | KeyError | ZeroDivisionError | ValueError =>
            get_video_info E video_path s =
            (Ret (None, None),
             set_printed (printed s ++
               [Printed ("Error getting info for " ++ path_name video_path ++ ": ")
                        (Some e)]) s)
        | _ => get_video_info E video_path s = (Raise e, s)
        end)
  /\ (forall r s', get_video_info E video_path s = (Ret r, s') ->
        (exists dur fps, r = (Some dur, Some fps)) \/ r = (None, None)).
Proof.
  split; [|split].
  - intros data Hjson. unfold get_video_info.
    destruct (probe E video_path) as [[dur fps]|e] eqn:Hprobe.
    + left. exists dur, fps. reflexivity.
    + right. exists e. split; [exact (probe_raises _ _ _ _ Hjson Hprobe)|].
      destruct (probe_raises _ _ _ _ Hjson Hprobe) as [->|[->| ->]]; reflexivity.
  - intros e Hjson. unfold get_video_info, probe. rewrite Hjson.
    destruct e; reflexivity.
  - intros r s'. unfold get_video_info.
    destruct (probe E video_path) as [[dur fps]|e].
    + intros H; inversion H. left. exists dur, fps. reflexivity.
    + destruct e; cbn [probe_failure]; unfold bind, print, modify, ret, raise;
        intros H; inversion H; right; reflexivity.
Qed.

Lemma get_video_info_outcomes_witness :
  (exists dur fps,
      get_video_info (quiet_env (fun _ => Ret (ten_seconds (Some "25/1")))) "a.mp4" init_app
      = (Ret (Some dur, Some fps), init_app))
  \/ (exists e,
        (e = KeyError \/ e = ValueError \/ e = ZeroDivisionError)
        /\ get_video_info (quiet_env (fun _ => Ret (ten_seconds (Some "25/1")))) "a.mp4"
             init_app =
           (Ret (None, None),
            set_printed (printed init_app ++
              [Printed ("Error getting info for " ++ path_name "a.mp4" ++ ": ") (Some e)])
              init_app)).
Proof.
  exact (proj1 (get_video_info_outcomes
                  (quiet_env (fun _ => Ret (ten_seconds (Some "25/1")))) "a.mp4" init_app)
               (ten_seconds (Some "25/1")) eq_refl).
Defined.

(** ** MediaProbe: the stream the rate is read from *)

Lemma first_video_stream_others (pre rest : list stream) :
  Forall other_stream pre ->
  first_video_stream (pre ++ rest) = first_video_stream rest.
Proof.
  induction 1 as [|st pre (t & Ht & Hne) _ IH]; [reflexivity|].
  cbn [app first_video_stream]. rewrite Ht.
  destruct (String.eqb_spec t "video"); [contradiction | exact IH].
Qed.

(** X8.  The rate is read from the first video stream, and from nothing
    after it.  When the streams before the first entry of type [video] all
    have another type, the result of the probe is the duration and the rate
    of that entry, whatever follows it; when the first entry without a type
    other than [video] has no [codec_type] at all, the result is
    [(None, None)]; and when every stream has another type, or there is no
    stream, the rate is the fallback [30.0]. *)
Theorem get_video_info_stream_choice (E : Env) (video_path : string) (s : App)
        (data : probe_data) (fmt : format_section) (d : string) (dur : float)
        (pre : list stream) :
  ffprobe_json E video_path = Ret data ->
  format data = Some fmt ->
  duration fmt = Some d ->
  float_of_string E d = Some dur ->
  Forall other_stream pre ->
  (streams data = Some pre ->
   get_video_info E video_path s = (Ret (Some dur, Some 30%float), s))
  /\ (forall vs post,
        streams data = Some (pre ++ vs :: post)%list ->
        codec_type vs = Some "video" ->
        probe E video_path =
        match stream_fps E (Some vs) with
        | Ret fps => Ret (dur, fps)
        | Raise e => Raise e
        end)
  /\ (forall vs post,
        streams data = Some (pre ++ vs :: post)%list ->
        codec_type vs = None ->
        fst (get_video_info E video_path s) = Ret (None, None)).
Proof.
  intros Hjson Hfmt Hd Hdur Hpre.
  assert (Hprobe : forall l, streams data = Some l ->
            probe E video_path =
            match first_video_stream l with
            | Raise e => Raise e
            | Ret video_stream =>
                match stream_fps E video_stream with
                | Raise e => Raise e
                | Ret fps => Ret (dur, fps)
                end
            end).
  { intros l Hl. unfold probe, to_float. rewrite Hjson, Hfmt, Hd, Hdur, Hl. reflexivity. }
  split; [|split].
  - intros Hl. apply get_video_info_of_probe. rewrite (Hprobe _ Hl).
    rewrite <- (app_nil_r pre), (first_video_stream_others pre [] Hpre). reflexivity.
  - intros vs post Hl Hvs. rewrite (Hprobe _ Hl), (first_video_stream_others _ _ Hpre).
    cbn [first_video_stream]. rewrite Hvs. reflexivity.
  - intros vs post Hl Hvs. apply (get_video_info_of_failure E video_path s KeyError);
      [|reflexivity].
    rewrite (Hprobe _ Hl), (first_video_stream_others _ _ Hpre).
    cbn [first_video_stream]. rewrite Hvs. reflexivity.
Qed.

Lemma get_video_info_stream_choice_witness :
  get_video_info
    (quiet_env (fun _ => Ret (mkProbe (Some (mkFormat (Some "10")))
                                      (Some [mkStream (Some "audio") None]))))
    "a.mp3" init_app = (Ret (Some 10%float, Some 30%float), init_app).
Proof.
  refine (proj1 (get_video_info_stream_choice
                   (quiet_env (fun _ => Ret (mkProbe (Some (mkFormat (Some "10")))
                                                     (Some [mkStream (Some "audio") None]))))
                   "a.mp3" init_app _ (mkFormat (Some "10")) "10" 10%float
                   [mkStream (Some "audio") None] eq_refl eq_refl eq_refl eq_refl _)
                eq_refl).
  constructor; [|constructor].
  exists "audio". split; [reflexivity | discriminate].
Defined.

(** ** A rate of zero *)

(** X9.  A rate of zero is an error of the item, not a skip.  When the
    probe returns a rate equal to zero (ffprobe printed a rate such as
    [0/1]), the division [1 / fps] of the turn raises [ZeroDivisionError]:
    either worker prints the error of the item and returns the count as it
    was, with no name reserved and no command run. *)
Theorem zero_rate_turn (E : Env) (output_dir : string) (total_videos i : Z)
        (video_path : string) (n : Z) (s : App) (dur fps : float) :
  total_videos <> 0 ->
  path_exists E video_path = true ->
  probe E video_path = Ret (dur, fps) ->
  (fps =? 0)%float = true ->
  extract_item E output_dir total_videos i video_path n s =
  (Ret n,
   set_printed (printed s ++ [Printed ("Error processing " ++ video_path ++ ": ")
                                      (Some ZeroDivisionError)])
               (reported i total_videos video_path s))
  /\ trim_item E output_dir total_videos i video_path n s =
     (Ret n,
      set_printed (printed s ++ [Printed ("Error processing " ++ video_path ++ ": ")
                                         (Some ZeroDivisionError)])
                  (reported i total_videos video_path s)).
Proof.
  intros Htotal Hexists Hprobe Hzero.
  assert (Hdiv : float_div 1 fps = Raise ZeroDivisionError)
    by (unfold float_div; rewrite Hzero; reflexivity).
  split.
  - unfold extract_item.
    rewrite (try_except_bind_returns _ _ _ _ _ _
               (report_progress_run i total_videos video_path s Htotal)).
    fold (reported i total_videos video_path s).
    rewrite Hexists. cbn [negb].
    rewrite (try_except_bind_returns _ _ _ _ _ _
               (get_video_info_of_probe E video_path _ dur fps Hprobe)).
    cbv iota beta. rewrite Hdiv. reflexivity.
  - unfold trim_item.
    rewrite (try_except_bind_returns _ _ _ _ _ _
               (report_progress_run i total_videos video_path s Htotal)).
    fold (reported i total_videos video_path s).
    rewrite Hexists. cbn [negb].
    rewrite (try_except_bind_returns _ _ _ _ _ _
               (get_video_info_of_probe E video_path _ dur fps Hprobe)).
    cbv iota beta. rewrite Hdiv. reflexivity.
Qed.

Lemma zero_rate_turn_witness :
  get_video_info (quiet_env (fun _ => Ret (ten_seconds (Some "0/1")))) "a.mp4" frames_dir
  = (Ret (Some 10%float, Some 0%float), frames_dir)
  /\ extract_item (quiet_env (fun _ => Ret (ten_seconds (Some "0/1")))) "out" 1 0
                  "a.mp4" 0 frames_dir =
     (Ret 0,
      set_printed [Printed "Error processing a.mp4: " (Some ZeroDivisionError)]
                  (reported 0 1 "a.mp4" frames_dir)).
Proof.
  split; [reflexivity|].
  exact (proj1 (zero_rate_turn (quiet_env (fun _ => Ret (ten_seconds (Some "0/1"))))
                  "out" 1 0 "a.mp4" 0 frames_dir 10%float 0%float
                  ltac:(discriminate) eq_refl eq_refl eq_refl)).
Defined.

(** ** StabilityGate: when the gate answers *)

Lemma wait_loop_not_ready_time (polls : nat -> option N) (max_wait check_interval : Z)
      (fuel k : nat) (now last_size : Z) :
  now < max_wait + check_interval ->
  fst (wait_loop fuel polls max_wait check_interval k now last_size) = false ->
  snd (wait_loop fuel polls max_wait check_interval k now last_size)
  < max_wait + check_interval.
Proof.
  revert k now last_size. induction fuel as [|fuel IH]; intros k now last_size Hnow;
    cbn [wait_loop]; [intros _; exact Hnow|].
  destruct (Z.ltb_spec now max_wait) as [Hlt|Hge]; [|intros _; exact Hnow].
  destruct (polls k) as [size|].
  - destruct (_ && _); [discriminate|]. apply IH. lia.
  - apply IH. lia.
Qed.

Lemma not_stable_at_first (polls : nat -> option N) : ~ stable_at polls 0.
Proof. intros (size & _ & _ & Heq). cbn [previously_observed] in Heq. lia. Qed.

(** X10.  When the gate answers.  With a window that is not positive the
    gate answers Not Ready at once, without a poll.  Otherwise, with a
    positive poll interval, a Ready answer comes no earlier than one
    interval and the confirmation delay after the start (the first poll has
    nothing to be compared with) and earlier than the end of the window
    plus the delay; a Not Ready answer comes at or after the end of the
    window and less than one interval after it. *)
Theorem wait_for_file_ready_timing (polls : nat -> option N) (max_wait check_interval : Z) :
  (max_wait <= 0 -> wait_for_file_ready polls max_wait check_interval = (false, 0))
  /\ (0 < check_interval ->
      fst (wait_for_file_ready polls max_wait check_interval) = true ->
      check_interval + 500 <= snd (wait_for_file_ready polls max_wait check_interval)
      < max_wait + 500)
  /\ (0 < check_interval -> 0 < max_wait ->
      fst (wait_for_file_ready polls max_wait check_interval) = false ->
      max_wait <= snd (wait_for_file_ready polls max_wait check_interval)
      < max_wait + check_interval).
Proof.
  split; [|split].
  - intros Hle. unfold wait_for_file_ready.
    replace (Z.to_nat max_wait) with 0%nat by lia. reflexivity.
  - intros Hci Hready.
    pose proof (wait_loop_spec polls max_wait check_interval Hci (Z.to_nat max_wait) 0
                  ltac:(lia)) as Hspec.
    cbv zeta in Hspec. change (Z.of_nat 0 * check_interval) with 0 in Hspec.
    cbn [previously_observed] in Hspec. fold (wait_for_file_ready polls max_wait check_interval)
      in Hspec.
    destruct Hspec as [(j & _ & Hin & Hstable & _ & Hr)|(_ & Hfalse & _)];
      [|congruence].
    rewrite Hr. cbn [snd].
    destruct j as [|j]; [destruct (not_stable_at_first polls Hstable)|]. nia.
  - intros Hci Hmax Hnot.
    pose proof (wait_loop_spec polls max_wait check_interval Hci (Z.to_nat max_wait) 0
                  ltac:(lia)) as Hspec.
    cbv zeta in Hspec. change (Z.of_nat 0 * check_interval) with 0 in Hspec.
    cbn [previously_observed] in Hspec. fold (wait_for_file_ready polls max_wait check_interval)
      in Hspec.
    destruct Hspec as [(j & _ & _ & _ & _ & Hr)|(_ & _ & Hge)].
    + rewrite Hr in Hnot. discriminate.
    + split; [exact Hge|].
      apply wait_loop_not_ready_time; [lia | exact Hnot].
Qed.

Lemma wait_for_file_ready_timing_witness :
  wait_for_file_ready steady_file 0 1000 = (false, 0)
  /\ 1000 + 500 <= snd (wait_for_file_ready steady_file 60000 1000) < 60000 + 500
  /\ 60000 <= snd (wait_for_file_ready (fun _ => Some 0%N) 60000 1000) < 60000 + 1000.
Proof.
  split; [|split].
  - exact (proj1 (wait_for_file_ready_timing steady_file 0 1000) ltac:(discriminate)).
  - exact (proj1 (proj2 (wait_for_file_ready_timing steady_file 60000 1000))
                 eq_refl eq_refl).
  - exact (proj2 (proj2 (wait_for_file_ready_timing (fun _ => Some 0%N) 60000 1000))
                 eq_refl eq_refl eq_refl).
Defined.

(** ** The front end: the list [load_videos] builds *)

Lemma set_heap_same (s : App) : set_heap (heap s) s = s.
Proof. destruct s; reflexivity. Qed.

Lemma update_nth_same {A : Type} (n : nat) (x d : A) (l : list A) :
  (n < List.length l)%nat -> nth n (update_nth n x l) d = x.
Proof.
  revert l. induction n as [|n IH]; intros [|y l] Hn; cbn in *; try lia; [reflexivity|].
  apply IH. lia.
Qed.

(** Appending to [self.videos] changes the list object it is bound to, and
    nothing else. *)
Lemma videos_append_all_run (xs : list string) (s : App) :
  (videos s < List.length (heap s))%nat ->
  exists h,
    videos_append_all xs s = (Ret tt, set_heap h s)
    /\ list_at h (videos s) = (list_at (heap s) (videos s) ++ xs)%list
    /\ List.length h = List.length (heap s)
    /\ forall l, l <> videos s -> list_at h l = list_at (heap s) l.
Proof.
  revert s. induction xs as [|x rest IH]; intros s Hv.
  - exists (heap s). cbn [videos_append_all ret]. rewrite set_heap_same, app_nil_r.
    repeat split; reflexivity.
  - set (s1 := set_heap (update_nth (videos s) (list_at (heap s) (videos s) ++ [x])%list
                                    (heap s)) s).
    assert (Hv1 : (videos s1 < List.length (heap s1))%nat)
      by (cbn; rewrite update_nth_length; exact Hv).
    destruct (IH s1 Hv1) as (h & Hrun & Hlist & Hlen & Hother).
    exists h.
    change (videos_append_all (x :: rest) s) with (videos_append_all rest s1).
    rewrite Hrun. split; [reflexivity|].
    cbn [videos heap s1 set_heap] in Hlist, Hlen, Hother.
    unfold s1 in Hlist, Hlen, Hother. cbn [videos heap set_heap] in Hlist, Hlen, Hother.
    rewrite update_nth_length in Hlen.
    split; [|split; [exact Hlen|]].
    + rewrite Hlist. unfold list_at at 1. rewrite update_nth_same by exact Hv.
      rewrite <- app_assoc. reflexivity.
    + intros l Hl. rewrite (Hother l Hl). unfold list_at. apply update_nth_other. exact Hl.
Qed.

Lemma insert_sorted_perm (x : string) (l : list string) :
  Permutation (x :: l) (insert_sorted x l).
Proof.
  induction l as [|y rest IH]; cbn [insert_sorted]; [apply Permutation_refl|].
  destruct (String.leb x y); [apply Permutation_refl|].
  eapply Permutation_trans; [apply perm_swap | apply perm_skip, IH].
Qed.

Lemma sort_strings_perm (l : list string) : Permutation (sort_strings l) l.
Proof.
  induction l as [|x rest IH]; cbn [sort_strings fold_right]; [constructor|].
  eapply Permutation_trans; [apply Permutation_sym, insert_sorted_perm|].
  apply perm_skip, IH.
Qed.

Lemma insert_sorted_hd (x y : string) (l : list string) :
  string_le y x -> HdRel string_le y l -> HdRel string_le y (insert_sorted x l).
Proof.
  intros Hyx Hhd. destruct l as [|z rest]; cbn [insert_sorted]; [constructor; exact Hyx|].
  destruct (String.leb x z); constructor; [exact Hyx|].
  inversion Hhd; assumption.
Qed.

Lemma insert_sorted_sorted (x : string) (l : list string) :
  Sorted string_le l -> Sorted string_le (insert_sorted x l).
Proof.
  induction 1 as [|y rest Hsorted IH Hhd]; cbn [insert_sorted].
  - repeat constructor.
  - destruct (String.leb x y) eqn:Hxy.
    + constructor; [constructor; assumption | constructor; exact Hxy].
    + constructor; [exact IH|]. apply insert_sorted_hd; [|exact Hhd].
      destruct (String.leb_total x y) as [H|H]; [congruence | exact H].
Qed.

Lemma sort_strings_sorted (l : list string) : Sorted string_le (sort_strings l).
Proof.
  induction l as [|x rest IH]; cbn [sort_strings fold_right]; [constructor|].
  apply insert_sorted_sorted, IH.
Qed.

(** [start_file_watching] where there is something to watch. *)
Lemma start_file_watching_run (E : Env) (s : App) :
  watchdog_available E = true ->
  video_dir s <> EmptyString ->
  dir_exists (video_dir s) s = true ->
  start_file_watching E s =
  (Ret tt,
   set_status_var (if auto_process_var s then "Auto-processing enabled..."
                   else "Watching for new videos...")
     (set_watching true
        (set_observer (Some (video_dir s))
           match observer s with
           | Some _ => set_status_var "Ready" (set_watching false (set_observer None s))
           | None => s
           end))).
Proof.
  intros Hw Hne Hthere. unfold start_file_watching. rewrite Hw. cbn [negb].
  unfold bind at 1. cbn [gets]. unfold bind at 1. cbn [gets]. rewrite Hthere.
  destruct (String.eqb_spec (video_dir s) EmptyString) as [Heq|_]; [contradiction|].
  cbn [orb negb]. unfold stop_watching. unfold bind, gets, try_except, modify, ret.
  destruct (observer s) eqn:Ho; rewrite ?Ho; reflexivity.
Qed.

(** [load_videos] on a directory that is there, up to the restart of the
    watcher. *)
Lemma load_videos_run (E : Env) (s : App) (entries : list string) :
  video_dir s <> EmptyString ->
  lookup_dir (video_dir s) (fs s) = Some entries ->
  let loaded := map (path_join (video_dir s)) (sort_strings (filter is_video entries)) in
  exists h,
    list_at h (List.length (heap s)) = loaded
    /\ List.length h = S (List.length (heap s))
    /\ (forall l, (l < List.length (heap s))%nat -> list_at h l = list_at (heap s) l)
    /\ load_videos E s =
       start_file_watching E
         (match loaded with
          | [] => set_dialogs
                    (dialogs s ++
                     [ShowInfo "Info" "No supported video files found in the directory."])
          | _ => fun a => a
          end (set_heap h (set_videos (List.length (heap s)) s))).
Proof.
  intros Hne Hdir loaded.
  set (s1 := set_videos (List.length (heap s)) (set_heap (heap s ++ [[]]) s)).
  assert (Hv1 : (videos s1 < List.length (heap s1))%nat)
    by (cbn; rewrite length_app; cbn; lia).
  destruct (videos_append_all_run loaded s1 Hv1) as (h & Hrun & Hlist & Hlen & Hother).
  cbn [videos heap s1 set_videos set_heap] in Hlist, Hlen, Hother.
  unfold s1 in Hlist, Hlen, Hother. cbn [videos heap set_videos set_heap] in Hlist, Hlen, Hother.
  rewrite nth_app_new in Hlist. cbn [app] in Hlist.
  rewrite length_app in Hlen. cbn [List.length] in Hlen.
  exists h. split; [exact Hlist|]. split; [lia|]. split.
  - intros l Hl. rewrite (Hother l ltac:(lia)). apply nth_app_old. exact Hl.
  - unfold load_videos.
    rewrite (bind_returns (gets video_dir) _ s s (video_dir s) eq_refl).
    destruct (String.eqb_spec (video_dir s) EmptyString) as [Heq|_]; [contradiction|].
    rewrite (bind_returns (gets (dir_exists (video_dir s))) _ s s true)
      by (unfold gets, dir_exists; rewrite Hdir; reflexivity).
    cbn [negb].
    unfold bind at 1. unfold try_except.
    rewrite (bind_returns (alloc []) _ s (set_heap (heap s ++ [[]]) s)
               (List.length (heap s)) eq_refl).
    rewrite (bind_returns (modify (set_videos (List.length (heap s)))) _ _ s1 tt eq_refl).
    rewrite (bind_returns (listdir (video_dir s)) _ s1 s1 entries)
      by (unfold listdir; cbn [fs s1 set_videos set_heap]; rewrite Hdir; reflexivity).
    fold is_video. fold loaded.
    rewrite (bind_returns _ _ _ _ _ Hrun).
    rewrite (bind_returns (gets videos) _ (set_heap h s1) (set_heap h s1)
               (List.length (heap s)) eq_refl).
    rewrite (bind_returns (gets (fun a => list_at (heap a) (List.length (heap s)))) _
               (set_heap h s1) (set_heap h s1) loaded)
      by (unfold gets; cbn [heap set_heap]; rewrite Hlist; reflexivity).
    destruct loaded; reflexivity.
Qed.

(** The watcher leaves the lists alone and removes no dialog. *)
Lemma start_file_watching_lists (E : Env) (s : App) :
  fst (start_file_watching E s) = Ret tt
  /\ heap (snd (start_file_watching E s)) = heap s
  /\ videos (snd (start_file_watching E s)) = videos s
  /\ incl (dialogs s) (dialogs (snd (start_file_watching E s))).
Proof.
  unfold start_file_watching, stop_watching.
  unfold bind, gets, try_except, modify, ret, messagebox, modify.
  destruct (watchdog_available E); cbn [negb fst snd heap videos dialogs set_dialogs].
  2:{ repeat split; try reflexivity. apply incl_appl, incl_refl. }
  destruct (_ || _); cbn [fst snd heap videos dialogs set_dialogs].
  { repeat split; try reflexivity. apply incl_appl, incl_refl. }
  destruct (observer s) eqn:Ho; rewrite ?Ho; cbn; repeat split; try reflexivity;
    apply incl_refl.
Qed.

(** X11.  [load_videos] lists the videos of the directory, sorted.  On a
    directory that is there, [self.videos] is bound to a new list object
    that holds the entries whose suffix, lower-cased, is a video extension,
    each joined to the directory, in ascending order of their names; every
    list object that existed before is as it was; and when the directory
    holds no video the Info box is shown. *)
Theorem load_videos_lists_videos (E : Env) (s : App) (entries : list string) :
  video_dir s <> EmptyString ->
  lookup_dir (video_dir s) (fs s) = Some entries ->
  let s' := snd (load_videos E s) in
  let names := sort_strings (filter is_video entries) in
  fst (load_videos E s) = Ret tt
  /\ videos s' = List.length (heap s)
  /\ list_at (heap s') (videos s') = map (path_join (video_dir s)) names
  /\ Permutation names (filter is_video entries)
  /\ Sorted string_le names
  /\ (forall l, (l < List.length (heap s))%nat -> list_at (heap s') l = list_at (heap s) l)
  /\ (names = [] ->
      In (ShowInfo "Info" "No supported video files found in the directory.")
         (dialogs s')).
Proof.
  intros Hne Hdir s' names.
  destruct (load_videos_run E s entries Hne Hdir) as (h & Hlist & Hlen & Hother & Hrun).
  cbv zeta in Hlist, Hrun. fold names in Hlist, Hrun. subst s'. rewrite Hrun.
  match goal with
  | |- context [start_file_watching E ?a] =>
      destruct (start_file_watching_lists E a) as (Hret & Hheap & Hvideos & Hdialogs);
      set (s3 := a) in *
  end.
  assert (Hheap3 : heap s3 = h)
    by (unfold s3; destruct (map _ names); reflexivity).
  assert (Hvideos3 : videos s3 = List.length (heap s))
    by (unfold s3; destruct (map _ names); reflexivity).
  split; [exact Hret|]. split; [congruence|].
  split; [rewrite Hheap, Hvideos, Hheap3, Hvideos3; exact Hlist|].
  split; [apply sort_strings_perm|]. split; [apply sort_strings_sorted|].
  split; [intros l Hl; rewrite Hheap, Hheap3; apply Hother, Hl|].
  intros Hnone. apply Hdialogs. unfold s3. rewrite Hnone. cbn [map dialogs set_dialogs].
  apply in_or_app. right. left. reflexivity.
Qed.

Lemma load_videos_lists_videos_witness :
  list_at (heap (snd (load_videos b_fails_env two_videos)))
          (videos (snd (load_videos b_fails_env two_videos))) =
  map (path_join (video_dir two_videos))
      (sort_strings (filter is_video ["a.mp4"; "b.mov"; "c.txt"])).
Proof.
  exact (proj1 (proj2 (proj2 (load_videos_lists_videos b_fails_env two_videos
                                ["a.mp4"; "b.mov"; "c.txt"]
                                ltac:(discriminate) eq_refl)))).
Defined.

(** X12.  [load_videos] always restarts the watcher on the directory it
    listed.  With watchdog installed the application ends up watching the
    directory, whether or not it was watching before, with the status text
    of the auto-process setting; without it the watcher is as it was and
    the last dialog shown is the warning that asks for the package. *)
Theorem load_videos_restarts_watcher (E : Env) (s : App) (entries : list string) :
  video_dir s <> EmptyString ->
  lookup_dir (video_dir s) (fs s) = Some entries ->
  let s' := snd (load_videos E s) in
  (watchdog_available E = true ->
   observer s' = Some (video_dir s) /\ watching s' = true
   /\ status_var s' = if auto_process_var s then "Auto-processing enabled..."
                      else "Watching for new videos...")
  /\ (watchdog_available E = false ->
      observer s' = observer s /\ watching s' = watching s
      /\ status_var s' = status_var s
      /\ exists before,
           dialogs s' =
           (before ++
            [ShowWarning "Warning"
               "File watching requires the 'watchdog' package. Please install it with: pip install watchdog"])%list).
Proof.
  intros Hne Hdir s'.
  destruct (load_videos_run E s entries Hne Hdir) as (h & _ & _ & _ & Hrun).
  cbv zeta in Hrun. subst s'. rewrite Hrun.
  set (loaded := map _ _) in *. split.
  - intros Hw. rewrite start_file_watching_run.
    + destruct loaded; cbn; destruct (observer s); repeat split; reflexivity.
    + exact Hw.
    + destruct loaded; exact Hne.
    + unfold dir_exists. destruct loaded; cbn; rewrite Hdir; reflexivity.
  - intros Hw. unfold start_file_watching. rewrite Hw. cbn [negb].
    destruct loaded; cbn; repeat split; eexists; reflexivity.
Qed.

Lemma load_videos_restarts_watcher_witness :
  observer (snd (load_videos b_fails_env two_videos)) = Some (video_dir two_videos)
  /\ watching (snd (load_videos b_fails_env two_videos)) = true
  /\ status_var (snd (load_videos b_fails_env two_videos)) =
     if auto_process_var two_videos then "Auto-processing enabled..."
     else "Watching for new videos...".
Proof.
  exact (proj1 (load_videos_restarts_watcher b_fails_env two_videos
                  ["a.mp4"; "b.mov"; "c.txt"] ltac:(discriminate) eq_refl) eq_refl).
Defined.

Lemma stop_watching_run (s : App) :
  stop_watching s =
  (Ret tt,
   match observer s with
   | Some _ => set_status_var "Ready" (set_watching false (set_observer None s))
   | None => s
   end).
Proof. unfold stop_watching, bind, gets, modify, ret. destruct (observer s); reflexivity. Qed.

Lemma load_videos_missing (E : Env) (s : App) :
  video_dir s <> EmptyString ->
  lookup_dir (video_dir s) (fs s) = None ->
  load_videos E s =
  (Ret tt,
   set_dialogs (dialogs s ++ [ShowError "Error" "Selected directory does not exist."]) s).
Proof.
  intros Hne Hdir. unfold load_videos.
  rewrite (bind_returns (gets video_dir) _ s s (video_dir s) eq_refl).
  destruct (String.eqb_spec (video_dir s) EmptyString) as [Heq|_]; [contradiction|].
  rewrite (bind_returns (gets (dir_exists (video_dir s))) _ s s false)
    by (unfold gets, dir_exists; rewrite Hdir; reflexivity).
  reflexivity.
Qed.

(** X13.  A directory that cannot be used.  A cancelled browse dialog
    changes nothing.  Browsing to a directory that does not exist stops the
    watcher, sets the directory and shows one error box: the list of videos
    stays the one of the directory loaded before, and no watcher is
    started.  [load_videos] with no directory chosen, or with one that does
    not exist, shows one dialog and does nothing else: the list is not
    cleared and the watcher is not restarted. *)
Theorem unusable_directory (E : Env) (s : App) :
  browse_dir E EmptyString s = (Ret tt, s)
  /\ (forall directory,
        directory <> EmptyString ->
        lookup_dir directory (fs s) = None ->
        let s' := snd (browse_dir E directory s) in
        fst (browse_dir E directory s) = Ret tt
        /\ video_dir s' = directory
        /\ videos s' = videos s /\ heap s' = heap s
        /\ observer s' = None
        /\ dialogs s' =
           (dialogs s ++ [ShowError "Error" "Selected directory does not exist."])%list)
  /\ (video_dir s = EmptyString ->
      load_videos E s =
      (Ret tt,
       set_dialogs (dialogs s ++ [ShowWarning "Warning" "Please select a directory first."])
                   s))
  /\ (video_dir s <> EmptyString ->
      lookup_dir (video_dir s) (fs s) = None ->
      load_videos E s =
      (Ret tt,
       set_dialogs (dialogs s ++ [ShowError "Error" "Selected directory does not exist."])
                   s)).
Proof.
  split; [reflexivity|]. split; [|split].
  - intros directory Hne Hdir s'. subst s'. unfold browse_dir.
    destruct (String.eqb_spec directory EmptyString) as [Heq|_]; [contradiction|].
    rewrite (bind_returns _ _ _ _ _ (stop_watching_run s)).
    set (s0 := match observer s with
               | Some _ => set_status_var "Ready" (set_watching false (set_observer None s))
               | None => s
               end).
    rewrite (bind_returns (modify (set_video_dir directory)) _ s0
               (set_video_dir directory s0) tt eq_refl).
    assert (Hfs : fs (set_video_dir directory s0) = fs s)
      by (unfold s0; destruct (observer s); reflexivity).
    rewrite load_videos_missing; [|exact Hne|].
    2:{ cbn [video_dir set_video_dir]. rewrite Hfs. exact Hdir. }
    unfold s0. destruct (observer s) eqn:Ho; cbn; rewrite ?Ho; repeat split; reflexivity.
  - intros Hnone. unfold load_videos, bind, gets. rewrite Hnone. reflexivity.
  - apply load_videos_missing.
Qed.

Lemma unusable_directory_witness :
  video_dir (snd (browse_dir b_fails_env "/gone" two_videos)) = "/gone"
  /\ list_at (heap (snd (browse_dir b_fails_env "/gone" two_videos)))
             (videos (snd (browse_dir b_fails_env "/gone" two_videos))) =
     ["/v/a.mp4"; "/v/b.mov"]
  /\ load_videos b_fails_env init_app =
     (Ret tt,
      set_dialogs (dialogs init_app
                   ++ [ShowWarning "Warning" "Please select a directory first."]) init_app)
  /\ load_videos b_fails_env (set_video_dir "/gone" two_videos) =
     (Ret tt,
      set_dialogs (dialogs (set_video_dir "/gone" two_videos)
                   ++ [ShowError "Error" "Selected directory does not exist."])
                  (set_video_dir "/gone" two_videos)).
Proof.
  pose proof (unusable_directory b_fails_env two_videos) as (_ & Hmissing & _).
  pose proof (unusable_directory b_fails_env init_app) as (_ & _ & Hnone & _).
  pose proof (unusable_directory b_fails_env (set_video_dir "/gone" two_videos))
    as (_ & _ & _ & Hgone).
  destruct (Hmissing "/gone" ltac:(discriminate) eq_refl) as (_ & Hd & Hv & Hh & _).
  split; [exact Hd|]. split; [|split; [exact (Hnone eq_refl)|]].
  - rewrite Hv, Hh. reflexivity.
  - exact (Hgone ltac:(discriminate) eq_refl).
Defined.

(** ** The front end: the list a run is started with *)

Lemma list_select_in_range (l : loc) (indices : list nat) (s : App) :
  Forall (fun i => (i < List.length (list_at (heap s) l))%nat) indices ->
  list_select l indices s =
  (Ret (map (fun i => nth i (list_at (heap s) l) EmptyString) indices), s).
Proof.
  induction 1 as [|i rest Hi _ IH]; [reflexivity|].
  cbn [list_select map]. unfold bind, list_get.
  destruct (nth_error (list_at (heap s) l) i) as [x|] eqn:Hnth.
  - rewrite IH. unfold ret. rewrite (nth_error_nth _ _ _ Hnth). reflexivity.
  - apply nth_error_None in Hnth. lia.
Qed.

Lemma list_select_out_of_range (l : loc) (indices : list nat) (s : App) :
  Exists (fun i => (List.length (list_at (heap s) l) <= i)%nat) indices ->
  list_select l indices s = (Raise IndexError, s).
Proof.
  induction 1 as [i rest Hi|i rest _ IH]; cbn [list_select]; unfold bind, list_get.
  - apply nth_error_None in Hi. rewrite Hi. reflexivity.
  - destruct (nth_error (list_at (heap s) l) i); [|reflexivity].
    rewrite IH. reflexivity.
Qed.

Lemma eq_frame : FrameRel (@eq App).
Proof. split; [reflexivity | intros; congruence]. Qed.

(** X14.  The selection a run is started with.  [get_selected_videos(True)]
    returns a new list object that holds the videos at the selected
    indices, in the order of the selection; an index past the end of the
    list raises [IndexError] and allocates nothing.  The list returned is
    never the object [self.videos] is bound to, so what is appended to
    [self.videos] afterwards does not reach it. *)
Theorem get_selected_videos_selection (s : App) :
  (Forall (fun i => (i < List.length (list_at (heap s) (videos s)))%nat) (selection s) ->
   get_selected_videos true s =
   (Ret (List.length (heap s)),
    set_heap (heap s ++
              [map (fun i => nth i (list_at (heap s) (videos s)) EmptyString) (selection s)])
             s))
  /\ (Exists (fun i => (List.length (list_at (heap s) (videos s)) <= i)%nat) (selection s) ->
      get_selected_videos true s = (Raise IndexError, s))
  /\ (forall (selected : bool) (l : loc) (s1 : App) (xs : list string),
        (videos s < List.length (heap s))%nat ->
        get_selected_videos selected s = (Ret l, s1) ->
        l <> videos s1
        /\ list_at (heap (snd (videos_append_all xs s1))) l = list_at (heap s1) l).
Proof.
  split; [|split].
  - intros Hin. unfold get_selected_videos.
    rewrite (bind_returns (gets selection) _ s s _ eq_refl).
    rewrite (bind_returns (gets videos) _ s s _ eq_refl).
    rewrite (bind_returns _ _ _ _ _ (list_select_in_range _ _ s Hin)). reflexivity.
  - intros Hout. unfold get_selected_videos.
    rewrite (bind_returns (gets selection) _ s s _ eq_refl).
    rewrite (bind_returns (gets videos) _ s s _ eq_refl).
    apply bind_raises. apply list_select_out_of_range, Hout.
  - intros selected l s1 xs Hv Hrun.
    assert (Hres : l = List.length (heap s) /\ videos s1 = videos s
                   /\ List.length (heap s1) = S (List.length (heap s))).
    { unfold get_selected_videos in Hrun. destruct selected.
      - rewrite (bind_returns (gets selection) _ s s _ eq_refl) in Hrun.
        rewrite (bind_returns (gets videos) _ s s _ eq_refl) in Hrun.
        unfold bind in Hrun.
        pose proof (@list_select_keeps eq eq_frame (videos s) (selection s) s) as Hkeep.
        destruct (list_select (videos s) (selection s) s) as [[ys|e] s0]; [|discriminate].
        cbn [snd] in Hkeep. subst s0. inversion Hrun; subst.
        cbn. rewrite length_app. cbn. repeat split; lia.
      - inversion Hrun; subst. cbn. rewrite length_app. cbn. repeat split; lia. }
    destruct Hres as (-> & Hv1 & Hlen1). split; [lia|].
    destruct (videos_append_all_run xs s1 ltac:(lia)) as (h & Hrun' & _ & _ & Hother).
    rewrite Hrun'. cbn [snd heap set_heap]. apply Hother. lia.
Qed.

Lemma get_selected_videos_selection_witness :
  get_selected_videos true (set_selection [1; 0]%nat two_videos) =
  (Ret 2%nat,
   set_heap (heap two_videos ++ [["/v/b.mov"; "/v/a.mp4"]])
            (set_selection [1; 0]%nat two_videos))
  /\ get_selected_videos true (set_selection [2]%nat two_videos) =
     (Raise IndexError, set_selection [2]%nat two_videos)
  /\ (2%nat <> videos (snd (get_selected_videos false two_videos))
      /\ list_at (heap (snd (videos_append_all ["/v/z.mp4"]
                               (snd (get_selected_videos false two_videos))))) 2%nat =
         list_at (heap (snd (get_selected_videos false two_videos))) 2%nat).
Proof.
  split; [|split].
  - refine (proj1 (get_selected_videos_selection (set_selection [1; 0]%nat two_videos)) _).
    repeat constructor.
  - refine (proj1 (proj2 (get_selected_videos_selection (set_selection [2]%nat two_videos))) _).
    constructor. cbn. lia.
  - exact (proj2 (proj2 (get_selected_videos_selection two_videos)) false 2%nat
                 (snd (get_selected_videos false two_videos)) ["/v/z.mp4"]
                 ltac:(cbn; lia) eq_refl).
Defined.

(** ** The front end: when a run is started *)

Lemma list_select_result (l : loc) (indices : list nat) (s : App) :
  (exists xs, list_select l indices s = (Ret xs, s))
  \/ list_select l indices s = (Raise IndexError, s).
Proof.
  induction indices as [|i rest IH]; [left; exists []; reflexivity|].
  cbn [list_select]. unfold bind, list_get.
  destruct (nth_error (list_at (heap s) l) i) as [x|]; [|right; reflexivity].
  destruct IH as [(xs & ->)| ->]; [left; exists (x :: xs) | right]; reflexivity.
Qed.

Lemma get_selected_videos_result (selected : bool) (s : App) :
  (exists xs, get_selected_videos selected s =
              (Ret (List.length (heap s)), set_heap (heap s ++ [xs]) s))
  \/ get_selected_videos selected s = (Raise IndexError, s).
Proof.
  unfold get_selected_videos. destruct selected.
  - rewrite (bind_returns (gets selection) _ s s _ eq_refl).
    rewrite (bind_returns (gets videos) _ s s _ eq_refl).
    destruct (list_select_result (videos s) (selection s) s) as [(xs & Hxs)|Hraise].
    + left. exists xs. rewrite (bind_returns _ _ _ _ _ Hxs). reflexivity.
    + right. apply bind_raises, Hraise.
  - left. eexists. reflexivity.
Qed.

Lemma not_in_appended {A : Type} (x y : A) (l : list A) :
  In x (l ++ [y]) -> In x l \/ x = y.
Proof.
  intros H. apply in_app_or in H. destruct H as [H|[H|[]]]; [left; exact H | right; auto].
Qed.

(** X15.  When a run is started.  Neither entry point touches the
    processing flag: it is the worker that raises it once it runs, so two
    requests made before the first worker has started both start a run.
    A trim run is started only when the application is not processing,
    ffmpeg answers, and the user confirms; an extraction run only when the
    application is not processing; and in both cases only with a new list
    that is not empty. *)
Theorem start_of_a_run (E : Env) (selected : bool) (s : App) :
  (is_processing (snd (extract_last_frames selected s)) = is_processing s
   /\ is_processing (snd (trim_last_frames E selected s)) = is_processing s)
  /\ (forall t, In t (threads (snd (extract_last_frames selected s))) ->
        In t (threads s)
        \/ (t = ExtractThread (List.length (heap s))
            /\ is_processing s = false
            /\ list_at (heap (snd (extract_last_frames selected s))) (List.length (heap s))
               <> []))
  /\ (forall t, In t (threads (snd (trim_last_frames E selected s))) ->
        In t (threads s)
        \/ (t = TrimThread (List.length (heap s))
            /\ is_processing s = false
            /\ ffmpeg_version E = Ret tt
            /\ askyesno E = true
            /\ list_at (heap (snd (trim_last_frames E selected s))) (List.length (heap s))
               <> []))
  /\ (is_processing s = false ->
      list_at (heap s) (videos s) <> [] ->
      threads (snd (extract_last_frames false (snd (extract_last_frames false s)))) =
      (threads s ++ [ExtractThread (List.length (heap s));
                     ExtractThread (S (List.length (heap s)))])%list).
Proof.
  assert (Hextract :
    extract_last_frames selected s =
    if is_processing s then (Ret tt, set_dialogs (dialogs s ++ [busy_warning]) s)
    else match get_selected_videos selected s with
         | (Ret l, s1) =>
             match list_at (heap s1) l with
             | [] => (Ret tt, set_dialogs (dialogs s1 ++ [no_videos_warning]) s1)
             | _ => (Ret tt, set_threads (threads s1 ++ [ExtractThread l]) s1)
             end
         | (Raise e, s1) => (Raise e, s1)
         end).
  { unfold extract_last_frames.
    rewrite (bind_returns (gets is_processing) _ s s _ eq_refl).
    destruct (is_processing s); [reflexivity|]. unfold bind at 1.
    destruct (get_selected_videos selected s) as [[l|e] s1]; [|reflexivity].
    unfold bind, gets. destruct (list_at (heap s1) l); reflexivity. }
  assert (Htrim :
    trim_last_frames E selected s =
    if is_processing s then (Ret tt, set_dialogs (dialogs s ++ [busy_warning]) s)
    else match get_selected_videos selected s with
         | (Ret l, s1) =>
             match list_at (heap s1) l with
             | [] => (Ret tt, set_dialogs (dialogs s1 ++ [no_videos_warning]) s1)
             | _ =>
                 match check_ffmpeg E s1 with
                 | (Ret true, s2) =>
                     if askyesno E then (Ret tt, set_threads (threads s2 ++ [TrimThread l]) s2)
                     else (Ret tt, s2)
                 | (Ret false, s2) => (Ret tt, s2)
                 | (Raise e, s2) => (Raise e, s2)
                 end
             end
         | (Raise e, s1) => (Raise e, s1)
         end).
  { unfold trim_last_frames.
    rewrite (bind_returns (gets is_processing) _ s s _ eq_refl).
    destruct (is_processing s); [reflexivity|]. unfold bind at 1.
    destruct (get_selected_videos selected s) as [[l|e] s1]; [|reflexivity].
    unfold bind at 1. cbn [gets]. destruct (list_at (heap s1) l); [reflexivity|].
    unfold bind. destruct (check_ffmpeg E s1) as [[[]|e] s2]; cbn [negb];
      [destruct (askyesno E)| |]; reflexivity. }
  assert (Hcheck : forall s1,
    check_ffmpeg E s1 =
    match ffmpeg_version E with
    | Ret _ => (Ret true, s1)
    | Raise e =>
        match e with
        | CalledProcessError | FileNotFoundError | TimeoutExpired =>
            (Ret false,
             set_dialogs (dialogs s1 ++
               [ShowError "Error"
                  "FFmpeg is not installed or not available. Please install FFmpeg to use trimming functionality."])
               s1)
        | _ => (Raise e, s1)
        end
    end).
  { intros s1. unfold check_ffmpeg. destruct (ffmpeg_version E) as [u|e]; [reflexivity|].
    destruct e; reflexivity. }
  split; [|split; [|split]].
  - rewrite Hextract, Htrim. destruct (is_processing s) eqn:Hbusy; [split; exact Hbusy|].
    destruct (get_selected_videos_result selected s) as [(xs & ->)| ->];
      [|split; exact Hbusy].
    destruct (list_at _ _); [split; exact Hbusy|]. split; [exact Hbusy|].
    rewrite Hcheck. destruct (ffmpeg_version E) as [u|e];
      [destruct (askyesno E); exact Hbusy|].
    destruct e; exact Hbusy.
  - intros t. rewrite Hextract. destruct (is_processing s) eqn:Hbusy; [left; assumption|].
    destruct (get_selected_videos_result selected s) as [(xs & ->)| ->];
      [|left; assumption].
    destruct (list_at _ _) eqn:Hchosen; [left; assumption|].
    cbn [snd threads set_threads heap set_heap]. intros Hin.
    destruct (not_in_appended _ _ _ Hin) as [H| ->]; [left; exact H | right].
    split; [reflexivity | split; [reflexivity|]].
    cbn [heap set_heap] in Hchosen. rewrite Hchosen. discriminate.
  - intros t. rewrite Htrim. destruct (is_processing s) eqn:Hbusy; [left; assumption|].
    destruct (get_selected_videos_result selected s) as [(xs & ->)| ->];
      [|left; assumption].
    destruct (list_at _ _) eqn:Hchosen; [left; assumption|].
    rewrite Hcheck. destruct (ffmpeg_version E) as [[]|e] eqn:Hff.
    + destruct (askyesno E) eqn:Hyes; [|left; assumption].
      cbn [snd threads set_threads heap set_heap]. intros Hin.
      destruct (not_in_appended _ _ _ Hin) as [H| ->]; [left; exact H | right].
      split; [reflexivity | split; [reflexivity | split; [reflexivity|]]].
      split; [reflexivity|].
      cbn [heap set_heap] in Hchosen. rewrite Hchosen. discriminate.
    + destruct e; left; assumption.
  - intros Hidle Hloaded.
    assert (Hv : (videos s < List.length (heap s))%nat).
    { destruct (Nat.lt_ge_cases (videos s) (List.length (heap s))) as [H|H]; [exact H|].
      unfold list_at in Hloaded. rewrite nth_overflow in Hloaded by exact H.
      contradiction. }
    assert (Hfirst : extract_last_frames false s =
              (Ret tt, set_threads (threads s ++ [ExtractThread (List.length (heap s))])
                         (set_heap (heap s ++ [list_at (heap s) (videos s)]) s))).
    { unfold extract_last_frames.
      rewrite (bind_returns (gets is_processing) _ s s _ eq_refl). rewrite Hidle.
      unfold get_selected_videos, bind, gets, alloc. cbn [heap set_heap].
      rewrite nth_app_new. destruct (list_at (heap s) (videos s)); [contradiction|].
      reflexivity. }
    rewrite Hfirst. cbn [snd].
    set (s1 := set_threads _ _).
    unfold extract_last_frames.
    rewrite (bind_returns (gets is_processing) _ s1 s1 _ eq_refl).
    change (is_processing s1) with (is_processing s). rewrite Hidle.
    unfold get_selected_videos, bind, gets, alloc.
    change (videos s1) with (videos s).
    change (heap s1) with (heap s ++ [list_at (heap s) (videos s)])%list.
    cbn [heap set_heap]. rewrite nth_app_new.
    rewrite (nth_app_old (heap s) _ (videos s) Hv).
    destruct (list_at (heap s) (videos s)); [contradiction|].
    cbn [snd thread_start modify threads set_threads set_heap s1].
    rewrite length_app, <- app_assoc. cbn [List.length app].
    rewrite Nat.add_1_r. reflexivity.
Qed.

Lemma start_of_a_run_witness :
  threads (snd (extract_last_frames false (snd (extract_last_frames false two_videos)))) =
  (threads two_videos ++ [ExtractThread 2%nat; ExtractThread 3%nat])%list.
Proof.
  exact (proj2 (proj2 (proj2 (start_of_a_run b_fails_env false two_videos)))
               eq_refl ltac:(discriminate)).
Defined.

(** ** DirectoryWatcher: the task run for a new file *)

Lemma process_new_video_steps (E : Env) (polls : nat -> option N) (video_path : string) :
  process_new_video E polls video_path =
  if negb (fst (wait_for_file_ready polls 60000 1000)) then
    print ("Timeout waiting for " ++ video_path ++ " to stabilize; skipping auto-processing.")
          None
  else
    returned <- auto_extract E video_path ;;
    if returned then ret tt else auto_trim E video_path.
Proof. reflexivity. Qed.

Lemma try_except_returns {A : Type} (body : M A) (handler : pyexn -> M A) (s : App) :
  (forall e s1, exists a, fst (handler e s1) = Ret a) ->
  exists a, fst (try_except body handler s) = Ret a.
Proof.
  intros Hh. unfold try_except. destruct (body s) as [[a|e] s1]; [exists a; reflexivity|].
  apply Hh.
Qed.

Lemma makedirs_run (E : Env) (d : string) (s : App) :
  makedirs_raises E d = None -> makedirs E d s = (Ret tt, made d s).
Proof.
  intros Hmk. unfold makedirs, modify, made. rewrite Hmk.
  destruct (lookup_dir d (fs s)); reflexivity.
Qed.



Lemma check_ffmpeg_present (E : Env) (s : App) :
  ffmpeg_version E = Ret tt -> check_ffmpeg E s = (Ret true, s).
Proof. intros H. unfold check_ffmpeg. rewrite H. reflexivity. Qed.

Lemma string_app_inv_head (a b c : string) : a ++ b = a ++ c -> b = c.
Proof.
  induction a as [|x a IH]; cbn; [exact (fun H => H)|].
  intros H. inversion H. apply IH. assumption.
Qed.






(** X17.  Where auto-processing stops.  [process_new_video] never lets an
    exception out.  For a file that does not become stable within the
    window it prints one line and does nothing else.  Without ffmpeg it
    shows the error box once and returns from the first step, so the
    second step is not run.  When the probe of the file fails, it prints
    the probe's line and returns from the first step too: the directory of
    the frames has been made, no name is reserved, no command is run, and
    the directory of the trimmed videos is not made. *)
Theorem process_new_video_stops (E : Env) (polls : nat -> option N)
        (video_path : string) (s : App) :
  fst (process_new_video E polls video_path s) = Ret tt
  /\ (fst (wait_for_file_ready polls 60000 1000) = false ->
      process_new_video E polls video_path s =
      (Ret tt,
       set_printed (printed s ++
         [Printed ("Timeout waiting for " ++ video_path
                   ++ " to stabilize; skipping auto-processing.") None]) s))
  /\ (fst (wait_for_file_ready polls 60000 1000) = true ->
      ffmpeg_version E = Raise FileNotFoundError ->
      process_new_video E polls video_path s =
      (Ret tt,
       set_dialogs (dialogs s ++
         [ShowError "Error"
            "FFmpeg is not installed or not available. Please install FFmpeg to use trimming functionality."])
         s))
  /\ (forall e,
        fst (wait_for_file_ready polls 60000 1000) = true ->
        ffmpeg_version E = Ret tt ->
        makedirs_raises E (path_join (video_dir s) "last_frames") = None ->
        probe E video_path = Raise e ->
        probe_failure e = true ->
        process_new_video E polls video_path s =
        (Ret tt,
         set_printed (printed s ++
           [Printed ("Error getting info for " ++ path_name video_path ++ ": ") (Some e)])
           (made (path_join (video_dir s) "last_frames") s))).
Proof.
  split; [|split; [|split]].
  - rewrite process_new_video_steps.
    destruct (fst (wait_for_file_ready polls 60000 1000)); cbn [negb]; [|reflexivity].
    unfold bind.
    destruct (try_except_returns
                (ok <- check_ffmpeg E ;;
                 if negb ok then ret true
                 else
                   dir_path <- gets video_dir ;;
                   makedirs E (path_join dir_path "last_frames") ;;
                   info <- get_video_info E video_path ;;
                   match info with
                   | (Some dur, Some fps) =>
                       frame <- lift (float_div 1 fps) ;;
                       if (dur <=? frame)%float then ret true
                       else
                         seek_offset <- lift (float_div 1 fps) ;;
                         reserved <- reserve_output (path_join dir_path "last_frames")
                                       (path_stem video_path) "_last_" ".jpg" ;;
                         run_tool E (extract_cmd E seek_offset video_path (snd reserved)) ;;
                         ret false
                   | _ => ret true
                   end)
                (fun e => print ("Error extracting frame from " ++ video_path ++ ": ")
                                (Some e) ;; ret false) s
                (fun e s1 => ex_intro _ false eq_refl)) as (returned & Hfirst).
    fold (auto_extract E video_path) in Hfirst.
    destruct (auto_extract E video_path s) as [[r|e] s1]; cbn [fst] in Hfirst;
      [|discriminate].
    destruct r; [reflexivity|].
    unfold auto_trim.
    match goal with
    | |- fst (try_except ?body ?handler s1) = Ret tt =>
        destruct (try_except_returns body handler s1
                    (fun e s2 => ex_intro _ tt eq_refl)) as ([] & Hsecond)
    end.
    exact Hsecond.
  - intros Hnot. rewrite process_new_video_steps, Hnot. reflexivity.
  - intros Hready Hff. rewrite process_new_video_steps, Hready. cbn [negb].
    unfold auto_extract, check_ffmpeg. rewrite Hff. reflexivity.
  - intros e Hready Hff Hmk Hprobe Hfail.
    rewrite process_new_video_steps, Hready. cbn [negb].
    assert (Hfirst : auto_extract E video_path s =
              (Ret true,
               set_printed (printed s ++
                 [Printed ("Error getting info for " ++ path_name video_path ++ ": ")
                          (Some e)])
                 (made (path_join (video_dir s) "last_frames") s))).
    { unfold auto_extract.
      rewrite (try_except_bind_returns _ _ _ _ _ _ (check_ffmpeg_present E s Hff)).
      cbn [negb].
      rewrite (try_except_bind_returns (gets video_dir) _ _ s s (video_dir s) eq_refl).
      rewrite (try_except_bind_returns _ _ _ _ _ _ (makedirs_run E _ s Hmk)).
      set (s1 := made _ s).
      assert (Hp : printed s1 = printed s)
        by (unfold s1, made; destruct (lookup_dir _ (fs s)); reflexivity).
      unfold get_video_info. rewrite Hprobe.
      destruct e; try discriminate Hfail;
        unfold try_except, bind, print, modify, ret; cbn [probe_failure fst snd];
        rewrite Hp; reflexivity. }
    rewrite (bind_returns _ _ _ _ _ Hfirst). reflexivity.
Qed.

Lemma process_new_video_stops_witness :
  process_new_video no_ffmpeg_env (fun _ => None) "/v/a.mp4" two_videos =
  (Ret tt,
   set_printed (printed two_videos ++
     [Printed ("Timeout waiting for " ++ "/v/a.mp4"
               ++ " to stabilize; skipping auto-processing.") None]) two_videos)
  /\ process_new_video no_ffmpeg_env steady_file "/v/a.mp4" two_videos =
     (Ret tt,
      set_dialogs (dialogs two_videos ++
        [ShowError "Error"
           "FFmpeg is not installed or not available. Please install FFmpeg to use trimming functionality."])
        two_videos)
  /\ process_new_video (quiet_env (fun _ => Raise CalledProcessError)) steady_file
       "/v/a.mp4" two_videos =
     (Ret tt,
      set_printed (printed two_videos ++
        [Printed ("Error getting info for " ++ path_name "/v/a.mp4" ++ ": ")
                 (Some CalledProcessError)])
        (made (path_join (video_dir two_videos) "last_frames") two_videos)).
Proof.
  split; [|split].
  - exact (proj1 (proj2 (process_new_video_stops no_ffmpeg_env (fun _ => None) "/v/a.mp4"
                           two_videos)) eq_refl).
  - exact (proj1 (proj2 (proj2 (process_new_video_stops no_ffmpeg_env steady_file "/v/a.mp4"
                                  two_videos))) eq_refl eq_refl).
  - exact (proj2 (proj2 (proj2 (process_new_video_stops
                                  (quiet_env (fun _ => Raise CalledProcessError))
                                  steady_file "/v/a.mp4" two_videos)))
                 CalledProcessError eq_refl eq_refl eq_refl eq_refl eq_refl).
Defined.

(** ** Paths: the name of a file in a directory *)

Lemma split_char_nonnil (sep : ascii) (s : string) : split_char sep s <> [].
Proof.
  destruct s as [|c s]; cbn [split_char]; [discriminate|].
  destruct (Ascii.eqb c sep); [discriminate|].
  destruct (split_char sep s); discriminate.
Qed.

Lemma split_char_app (sep : ascii) (a b : string) :
  split_char sep (a ++ String sep b) = (split_char sep a ++ split_char sep b)%list.
Proof.
  induction a as [|c a IH]; cbn [append split_char].
  - rewrite Ascii.eqb_refl. reflexivity.
  - destruct (Ascii.eqb c sep); [rewrite IH; reflexivity|].
    rewrite IH. pose proof (split_char_nonnil sep a) as Hne.
    destruct (split_char sep a) as [|part parts]; [contradiction | reflexivity].
Qed.

Lemma split_char_lacks (sep : ascii) (s : string) :
  lacks sep s = true -> split_char sep s = [s].
Proof.
  induction s as [|c s IH]; cbn [lacks split_char]; [reflexivity|].
  intros H. apply andb_prop in H. destruct H as [Hc Hs].
  apply negb_true_iff in Hc. rewrite Hc, (IH Hs). reflexivity.
Qed.

Lemma split_char_parts (sep : ascii) (s : string) :
  Forall (fun part => lacks sep part = true) (split_char sep s).
Proof.
  induction s as [|c s IH]; cbn [split_char]; [repeat constructor|].
  destruct (Ascii.eqb c sep) eqn:Hc; [constructor; [reflexivity | exact IH]|].
  destruct (split_char sep s) as [|part parts]; [repeat constructor; cbn; rewrite Hc; reflexivity|].
  inversion IH; subst. constructor; [|assumption].
  cbn [lacks]. rewrite Hc. cbn. assumption.
Qed.

Lemma ends_with_slash_app (a : string) :
  ends_with_slash a = true -> exists a', a = a' ++ "/".
Proof.
  induction a as [|c a IH]; cbn [ends_with_slash]; [discriminate|].
  destruct a as [|c' a].
  - intros H. apply Ascii.eqb_eq in H. subst c. exists EmptyString. reflexivity.
  - intros H. destruct (IH H) as (a' & Ha'). exists (String c a'). cbn [append].
    rewrite <- Ha'. reflexivity.
Qed.

Lemma string_app_assoc (a b c : string) : (a ++ b) ++ c = a ++ b ++ c.
Proof. induction a as [|x a IH]; cbn; [reflexivity | rewrite IH; reflexivity]. Qed.

(** A component that [pathlib] keeps. *)
Lemma last_kept (parts : list string) (name : string) :
  name <> EmptyString -> name <> "." ->
  last (filter (fun c => negb (String.eqb c EmptyString || String.eqb c "."))
               (parts ++ [name])) EmptyString = name.
Proof.
  intros Hne Hdot. rewrite filter_app. cbn [filter].
  destruct (String.eqb_spec name EmptyString); [contradiction|].
  destruct (String.eqb_spec name "."); [contradiction|].
  cbn [orb negb]. apply last_last.
Qed.

(** The name of [os.path.join(d, name)] is [name], for a [name] that is one
    component. *)
Lemma path_name_join (d name : string) :
  lacks "/" name = true -> name <> EmptyString -> name <> "." ->
  path_name (path_join d name) = name.
Proof.
  intros Hlacks Hne Hdot.
  assert (Hone : path_name name = name).
  { unfold path_name. rewrite (split_char_lacks _ _ Hlacks).
    apply (last_kept [] name Hne Hdot). }
  assert (Hsep : forall a, path_name (a ++ "/" ++ name) = name).
  { intros a. unfold path_name. cbn [append]. rewrite split_char_app.
    rewrite (split_char_lacks _ _ Hlacks). apply last_kept; assumption. }
  unfold path_join.
  destruct name as [|c name]; [contradiction|].
  assert (Hc : Ascii.eqb c "/" = false).
  { cbn [lacks] in Hlacks. apply andb_prop in Hlacks. destruct Hlacks as [H _].
    apply negb_true_iff in H. exact H. }
  cbn [prefix].
  destruct (ascii_dec "/" c) as [Heq|_].
  { subst c. rewrite Ascii.eqb_refl in Hc. discriminate. }
  destruct (String.eqb_spec d EmptyString) as [->|_]; [exact Hone|].
  cbn [orb]. destruct (ends_with_slash d) eqn:Hslash.
  - destruct (ends_with_slash_app d Hslash) as (a & ->).
    rewrite string_app_assoc. apply Hsep.
  - apply Hsep.
Qed.

Lemma lacks_take (c : ascii) (n : nat) (s : string) :
  lacks c s = true -> lacks c (take n s) = true.
Proof.
  revert s. induction n as [|n IH]; intros [|a s]; cbn [take lacks]; try reflexivity.
  intros H. apply andb_prop in H. destruct H as [Ha Hs]. rewrite Ha, (IH s Hs). reflexivity.
Qed.

Lemma lacks_drop (c : ascii) (n : nat) (s : string) :
  lacks c s = true -> lacks c (drop n s) = true.
Proof.
  revert s. induction n as [|n IH]; intros [|a s]; cbn [drop lacks]; try reflexivity;
    [exact (fun H => H)|].
  intros H. apply andb_prop in H. destruct H as [_ Hs]. exact (IH s Hs).
Qed.

Lemma path_name_lacks (p : string) : lacks "/" (path_name p) = true.
Proof.
  unfold path_name.
  pose proof (split_char_parts "/" p) as Hparts.
  set (keep := fun c => negb (String.eqb c EmptyString || String.eqb c ".")).
  assert (Hall : Forall (fun part => lacks "/" part = true) (filter keep (split_char "/" p))).
  { apply Forall_forall. intros x Hx. apply filter_In in Hx.
    rewrite Forall_forall in Hparts. apply Hparts, Hx. }
  induction Hall as [|x l Hx _ IH]; [reflexivity|].
  destruct l as [|y l]; [exact Hx | exact IH].
Qed.

Lemma take_drop (n : nat) (s : string) : take n s ++ drop n s = s.
Proof.
  revert s. induction n as [|n IH]; intros [|a s]; cbn [take drop append]; try reflexivity.
  rewrite IH. reflexivity.
Qed.

(** [Path(p).stem + Path(p).suffix == Path(p).name] *)
Lemma path_stem_suffix (p : string) : path_stem p ++ path_suffix p = path_name p.
Proof.
  unfold path_stem, path_suffix.
  destruct (_ && _); [apply take_drop | apply append_empty_r].
Qed.

Lemma path_stem_lacks (p : string) : lacks "/" (path_stem p) = true.
Proof.
  unfold path_stem. destruct (_ && _); [apply lacks_take|]; apply path_name_lacks.
Qed.

Lemma path_suffix_lacks (p : string) : lacks "/" (path_suffix p) = true.
Proof.
  unfold path_suffix. destruct (_ && _); [apply lacks_drop, path_name_lacks | reflexivity].
Qed.

(** Where [rfind] finds the character, it is there. *)
Lemma rfind_from_found (c : ascii) (s : string) (i found : Z) :
  rfind_from c s i found = found
  \/ exists a b, s = a ++ String c b
                 /\ rfind_from c s i found = i + Z.of_nat (String.length a).
Proof.
  revert i found. induction s as [|x s IH]; intros i found; cbn [rfind_from];
    [left; reflexivity|].
  destruct (IH (i + 1) (if Ascii.eqb x c then i else found)) as [Hsame|(a & b & Hs & Hr)].
  - rewrite Hsame. destruct (Ascii.eqb_spec x c) as [->|_]; [right | left; reflexivity].
    exists EmptyString, s. split; [reflexivity | cbn; lia].
  - right. exists (String x a), b. split; [cbn; rewrite Hs; reflexivity|].
    rewrite Hr. cbn [String.length]. lia.
Qed.

(** A suffix is empty or starts with its dot. *)
Lemma path_suffix_shape (p : string) :
  path_suffix p = EmptyString \/ exists r, path_suffix p = String "." r.
Proof.
  unfold path_suffix. set (name := path_name p).
  destruct (_ && _) eqn:Hcond; [|left; reflexivity].
  apply andb_prop in Hcond. destruct Hcond as [Hpos _]. apply Z.ltb_lt in Hpos.
  unfold rfind in *.
  destruct (rfind_from_found "." name 0 (-1)) as [Hnone|(a & b & Hname & Hr)]; [lia|].
  right. exists b. rewrite Hr, Hname. cbn [Z.add]. rewrite Nat2Z.id.
  apply drop_app_length.
Qed.

(** X18.  The watcher reacts to the files [load_videos] lists.  For a file
    created in a directory, the test of [on_created] on the path of the
    event and the test of [load_videos] on the entry agree: the handler
    does nothing for an entry that [load_videos] would leave out, and for
    one it would list it schedules the reload of the list, and starts the
    auto-processing task exactly when auto-processing is on.  An event
    about a directory is ignored. *)
Theorem watcher_agrees_with_listing (start : outcome unit) (d name : string) (s : App) :
  lacks "/" name = true ->
  name <> EmptyString ->
  name <> "." ->
  path_suffix (path_join d name) = path_suffix name
  /\ (is_video name = false -> on_created start false (path_join d name) s = [])
  /\ (is_video name = true ->
      on_created start false (path_join d name) s =
      ScheduleLoadVideos ::
      (if auto_process_var s then
         match start with
         | Ret _ => [StartProcessNewVideo (path_join d name)]
         | Raise e => [PrintThreadWarning e]
         end
       else []))
  /\ on_created start true (path_join d name) s = [].
Proof.
  intros Hlacks Hne Hdot.
  assert (Hname : path_name (path_join d name) = path_name name).
  { rewrite (path_name_join d name Hlacks Hne Hdot).
    unfold path_name. rewrite (split_char_lacks _ _ Hlacks).
    symmetry. apply (last_kept [] name Hne Hdot). }
  assert (Hsuffix : path_suffix (path_join d name) = path_suffix name)
    by (unfold path_suffix; rewrite Hname; reflexivity).
  split; [exact Hsuffix|].
  unfold on_created, is_video. rewrite Hsuffix.
  split; [intros ->; reflexivity|]. split; [intros ->; reflexivity | reflexivity].
Qed.

Lemma watcher_agrees_with_listing_witness :
  path_suffix (path_join "/v" "New.MP4") = path_suffix "New.MP4"
  /\ on_created (Ret tt) false (path_join "/v" "New.MP4") two_videos = [ScheduleLoadVideos]
  /\ on_created (Ret tt) false (path_join "/v" "notes.txt") two_videos = [].
Proof.
  pose proof (watcher_agrees_with_listing (Ret tt) "/v" "New.MP4" two_videos
                eq_refl ltac:(discriminate) ltac:(discriminate)) as (H1 & _ & H3 & _).
  pose proof (watcher_agrees_with_listing (Ret tt) "/v" "notes.txt" two_videos
                eq_refl ltac:(discriminate) ltac:(discriminate)) as (_ & H2 & _).
  split; [exact H1|]. split; [exact (H3 eq_refl) | exact (H2 eq_refl)].
Defined.

(** ** The output of a command is not its input *)

Lemma string_length_app (a b : string) :
  String.length (a ++ b) = (String.length a + String.length b)%nat.
Proof. induction a as [|x a IH]; cbn; [reflexivity | rewrite IH; reflexivity]. Qed.

Lemma str_of_Z_lacks_slash (c : Z) : lacks "/" (str_of_Z c) = true.
Proof.
  destruct (str_of_Z_shape c) as (a & w & -> & Hplain & _).
  apply (plain_lacks _ Hplain).
Qed.

(** X19.  A command never writes over the video it reads.  Whatever the
    output directory, the video and the counter, the path reserved for the
    frame and the path reserved for the trimmed video differ from the path
    of the video itself; and the name of each is the stem of the video, the
    tag, the counter and the extension, a single component in the output
    directory. *)
Theorem output_is_not_the_input (output_dir video_path : string) (c : Z) :
  let frame_name := path_stem video_path ++ "_last_" ++ str_of_Z c ++ ".jpg" in
  let out_name := path_stem video_path ++ "_trimmed_" ++ str_of_Z c
                  ++ path_suffix video_path in
  path_name (path_join output_dir frame_name) = frame_name
  /\ path_name (path_join output_dir out_name) = out_name
  /\ path_join output_dir frame_name <> video_path
  /\ path_join output_dir out_name <> video_path.
Proof.
  intros frame_name out_name.
  assert (Hname : forall tag ext,
            (tag = "_last_" \/ tag = "_trimmed_") ->
            lacks "/" ext = true ->
            let name := path_stem video_path ++ tag ++ str_of_Z c ++ ext in
            path_name (path_join output_dir name) = name).
  { intros tag ext Htag Hext name. apply path_name_join.
    - unfold name. rewrite !lacks_app, path_stem_lacks, str_of_Z_lacks_slash, Hext.
      destruct Htag as [->| ->]; reflexivity.
    - unfold name. intros H.
      apply (f_equal String.length) in H. rewrite !string_length_app in H.
      destruct Htag as [->| ->]; cbn in H; lia.
    - unfold name. intros H.
      apply (f_equal String.length) in H. rewrite !string_length_app in H.
      destruct Htag as [->| ->]; cbn in H; lia. }
  pose proof (Hname "_last_" ".jpg" (or_introl eq_refl) eq_refl) as Hframe.
  pose proof (Hname "_trimmed_" (path_suffix video_path) (or_intror eq_refl)
                (path_suffix_lacks video_path)) as Hout.
  cbv zeta in Hframe, Hout. fold frame_name in Hframe. fold out_name in Hout.
  split; [exact Hframe|]. split; [exact Hout|]. split.
  - intros Heq. rewrite Heq in Hframe.
    rewrite <- (path_stem_suffix video_path) in Hframe. unfold frame_name in Hframe.
    apply string_app_inv_head in Hframe.
    destruct (path_suffix_shape video_path) as [Hs|(r & Hs)]; rewrite Hs in Hframe;
      discriminate.
  - intros Heq. rewrite Heq in Hout.
    rewrite <- (path_stem_suffix video_path) in Hout. unfold out_name in Hout.
    apply string_app_inv_head in Hout.
    apply (f_equal String.length) in Hout. rewrite !string_length_app in Hout.
    cbn in Hout. lia.
Qed.

(** ** What the user sees at the end of a run *)



(** ** An output directory that is gone *)

(** X21.  An output directory that is gone.  [get_max_counter] does not
    guard [os.listdir]: on a directory that is not there it raises
    [FileNotFoundError], and so does the reservation, which creates
    nothing.  In a turn of a worker the exception is the error of the item:
    the turn prints it and returns the count as it was, and no command is
    run. *)
Theorem missing_output_directory (E : Env) (output_dir : string) (total_videos i : Z)
        (video_path : string) (n : Z) (s : App) (dur fps frame : float) :
  lookup_dir output_dir (fs s) = None ->
  (forall tag, get_max_counter output_dir tag s = (Raise FileNotFoundError, s))
  /\ (forall filename tag ext,
        reserve_output output_dir filename tag ext s = (Raise FileNotFoundError, s))
  /\ (total_videos <> 0 ->
      path_exists E video_path = true ->
      probe E video_path = Ret (dur, fps) ->
      float_div 1 fps = Ret frame ->
      (dur <=? frame)%float = false ->
      extract_item E output_dir total_videos i video_path n s =
      (Ret n,
       set_printed (printed s ++ [Printed ("Error processing " ++ video_path ++ ": ")
                                          (Some FileNotFoundError)])
                   (reported i total_videos video_path s))
      /\ trim_item E output_dir total_videos i video_path n s =
         (Ret n,
          set_printed (printed s ++ [Printed ("Error processing " ++ video_path ++ ": ")
                                             (Some FileNotFoundError)])
                      (reported i total_videos video_path s))).
Proof.
  intros Hdir.
  assert (Hmax : forall s0 tag, lookup_dir output_dir (fs s0) = None ->
                   get_max_counter output_dir tag s0 = (Raise FileNotFoundError, s0)).
  { intros s0 tag H0. unfold get_max_counter, bind, listdir. rewrite H0. reflexivity. }
  assert (Hres : forall s0 filename tag ext, lookup_dir output_dir (fs s0) = None ->
                   reserve_output output_dir filename tag ext s0
                   = (Raise FileNotFoundError, s0)).
  { intros s0 filename tag ext H0. unfold reserve_output.
    apply bind_raises, Hmax, H0. }
  split; [intros tag; apply Hmax, Hdir|]. split; [intros; apply Hres, Hdir|].
  intros Htotal Hexists Hprobe Hdiv Hlong. split.
  - unfold extract_item.
    rewrite (try_except_bind_returns _ _ _ _ _ _
               (report_progress_run i total_videos video_path s Htotal)).
    fold (reported i total_videos video_path s).
    set (s1 := reported i total_videos video_path s).
    rewrite Hexists. cbn [negb].
    rewrite (try_except_bind_returns _ _ _ _ _ _
               (get_video_info_of_probe E video_path s1 dur fps Hprobe)).
    cbv iota beta. rewrite Hdiv.
    rewrite (try_except_bind_returns (lift (Ret frame)) _ _ s1 s1 frame eq_refl).
    rewrite Hlong.
    rewrite (try_except_bind_returns (lift (Ret frame)) _ _ s1 s1 frame eq_refl).
    unfold try_except. rewrite (bind_raises _ _ _ _ _ (Hres s1 _ _ _ Hdir)).
    reflexivity.
  - unfold trim_item.
    rewrite (try_except_bind_returns _ _ _ _ _ _
               (report_progress_run i total_videos video_path s Htotal)).
    fold (reported i total_videos video_path s).
    set (s1 := reported i total_videos video_path s).
    rewrite Hexists. cbn [negb].
    rewrite (try_except_bind_returns _ _ _ _ _ _
               (get_video_info_of_probe E video_path s1 dur fps Hprobe)).
    cbv iota beta. rewrite Hdiv.
    rewrite (try_except_bind_returns (lift (Ret frame)) _ _ s1 s1 frame eq_refl).
    rewrite Hlong.
    rewrite (try_except_bind_returns (lift (Ret frame)) _ _ s1 s1 frame eq_refl).
    unfold try_except. rewrite (bind_raises _ _ _ _ _ (Hres s1 _ _ _ Hdir)).
    reflexivity.
Qed.

Lemma missing_output_directory_witness :
  get_max_counter "gone" "_last_" frames_dir = (Raise FileNotFoundError, frames_dir)
  /\ extract_item (quiet_env (fun _ => Ret (ten_seconds (Some "25/1")))) "gone" 1 0
                  "a.mp4" 0 frames_dir =
     (Ret 0,
      set_printed (printed frames_dir ++
                   [Printed ("Error processing " ++ "a.mp4" ++ ": ")
                            (Some FileNotFoundError)])
                  (reported 0 1 "a.mp4" frames_dir)).
Proof.
  pose proof (missing_output_directory
                (quiet_env (fun _ => Ret (ten_seconds (Some "25/1")))) "gone" 1 0
                "a.mp4" 0 frames_dir 10%float 25%float (1 / 25)%float eq_refl)
    as (Hmax & _ & Hturn).
  split; [exact (Hmax "_last_")|].
  exact (proj1 (Hturn ltac:(discriminate) eq_refl eq_refl eq_refl eq_refl)).
Defined.

(** ** The exit paths of the workers *)






(** ** Reservation prevents reuse while the reservation is in place *)

(** C1, as the code has it.  When an allocation under the lock computed
    the counter [c] (one more than [get_max_counter]) and created the
    placeholder, whose remainder after the last occurrence of the tag
    parses to [c], then [c] is at least [1], the placeholder is an entry of
    the directory, and every later allocation for the same directory and
    tag made while the placeholder is still an entry returns a counter
    strictly greater than [c], whether read by [next_counter] or reserved
    by another [reserve_output]; so does every allocation in a state the
    directories have grown into.  The program only lets them grow: the two
    workers, the watcher's [process_new_video] and the front end's events
    add entries and remove none.  The names the callers build do parse to
    their counter: for the tags [_last_] and [_trimmed_], any stem, and the
    extension of a frame or of a listed video.  No allocation returns the
    number of an entry that is there, and on a directory where no entry
    carries a number the counter is [1].  A number is not protected by the
    other files of its tag: in a directory where every number carried is
    below [c], whatever files of the tag remain, the allocation returns a
    counter that is at most [c]. *)
Theorem reservation_prevents_reuse :
  (forall (s s1 : App) (output_dir filename tag ext p : string) (c : Z),
      reserve_output output_dir filename tag ext s = (Ret (c, p), s1) ->
      parsed_counter tag (filename ++ tag ++ str_of_Z c ++ ext) = Some c ->
      1 <= c
      /\ (exists entries1, lookup_dir output_dir (fs s1) = Some entries1
                           /\ In (filename ++ tag ++ str_of_Z c ++ ext) entries1)
      /\ (forall (s2 : App) (entries2 : list string),
             lookup_dir output_dir (fs s2) = Some entries2 ->
             In (filename ++ tag ++ str_of_Z c ++ ext) entries2 ->
             (exists n, next_counter output_dir tag s2 = (Ret n, s2) /\ c < n)
             /\ forall (s3 : App) (filename' ext' p' : string) (c' : Z),
                 reserve_output output_dir filename' tag ext' s2 = (Ret (c', p'), s3) ->
                 c < c')
      /\ (forall s2 : App,
             grows s1 s2 ->
             (exists n, next_counter output_dir tag s2 = (Ret n, s2) /\ c < n)
             /\ forall (s3 : App) (filename' ext' p' : string) (c' : Z),
                 reserve_output output_dir filename' tag ext' s2 = (Ret (c', p'), s3) ->
                 c < c'))
  /\ (forall (E : Env) (videos : loc) (polls : nat -> option N) (video_path : string)
             (evs : list front_event) (s : App),
         grows s (snd (extract_last_frames_thread E videos s))
         /\ grows s (snd (trim_last_frames_thread E videos s))
         /\ grows s (snd (process_new_video E polls video_path s))
         /\ grows s (run_events E evs s))
  /\ (forall (stem tag ext : string) (c : Z),
         tag = "_last_" \/ tag = "_trimmed_" ->
         mem_string (lower ext) video_extensions = true \/ ext = ".jpg" ->
         parsed_counter tag (stem ++ tag ++ str_of_Z c ++ ext) = Some c)
  /\ (forall (s : App) (output_dir tag file : string) (entries : list string) (k : Z),
         lookup_dir output_dir (fs s) = Some entries ->
         In file entries ->
         parsed_counter tag file = Some k ->
         exists n, next_counter output_dir tag s = (Ret n, s) /\ k < n)
  /\ (forall (s : App) (output_dir tag : string) (entries : list string),
         tag <> EmptyString ->
         lookup_dir output_dir (fs s) = Some entries ->
         parsed_counters tag entries = [] ->
         next_counter output_dir tag s = (Ret 1, s))
  /\ (forall (s : App) (output_dir tag : string) (entries : list string) (c : Z),
         tag <> EmptyString ->
         1 <= c ->
         lookup_dir output_dir (fs s) = Some entries ->
         (forall k, In k (parsed_counters tag entries) -> k < c) ->
         exists n, next_counter output_dir tag s = (Ret n, s) /\ 1 <= n <= c).
Proof.
  assert (Hlater : forall (s2 : App) (output_dir tag file : string)
                          (entries2 : list string) (c : Z),
             parsed_counter tag file = Some c ->
             lookup_dir output_dir (fs s2) = Some entries2 ->
             In file entries2 ->
             (exists n, next_counter output_dir tag s2 = (Ret n, s2) /\ c < n)
             /\ forall (s3 : App) (filename' ext' p' : string) (c' : Z),
                 reserve_output output_dir filename' tag ext' s2 = (Ret (c', p'), s3) ->
                 c < c').
  { intros s2 output_dir tag file entries2 c Hparse Hdir2 Hin2.
    destruct (next_counter_above_entry _ _ _ _ _ _ Hdir2 Hin2 Hparse) as (n & Hn & Hlt).
    split; [exists n; split; assumption|].
    intros s3 filename' ext' p' c' Hres'.
    destruct (reserve_output_inv _ _ _ _ _ _ _ _ Hres') as (Hmax' & _ & _).
    unfold next_counter, bind, ret in Hn. rewrite Hmax' in Hn.
    inversion Hn. lia. }
  split; [|split; [|split; [|split; [|split]]]].
  - intros s s1 output_dir filename tag ext p c Hres Hparse.
    destruct (reserve_output_inv _ _ _ _ _ _ _ _ Hres) as (Hmax & _ & Hentry).
    split; [|split; [exact Hentry|split]].
    + pose proof (get_max_counter_ret_nonneg _ _ _ _ _ Hmax). lia.
    + intros s2 entries2. apply Hlater. exact Hparse.
    + intros s2 Hgrows. destruct Hentry as (entries1 & Hdir1 & Hin1).
      destruct (Hgrows _ _ Hdir1) as (entries2 & Hdir2 & Hincl).
      apply (Hlater s2 output_dir tag _ entries2 c Hparse Hdir2). apply Hincl, Hin1.
  - intros E videos polls video_path evs s.
    split; [apply extract_thread_grows|].
    split; [apply trim_thread_grows|].
    split; [apply process_new_video_grows | apply run_events_grows].
  - intros stem tag ext c Htag Hext.
    apply reserved_name_parses; [exact Htag | apply video_extension_plain, Hext].
  - intros s output_dir tag file entries k. apply next_counter_above_entry.
  - intros s output_dir tag entries Htag Hdir Hnone.
    rewrite (next_counter_contract_aux _ _ _ _ Htag Hdir), Hnone. reflexivity.
  - intros s output_dir tag entries c Htag Hc Hdir Hbelow.
    eexists. split; [apply next_counter_contract_aux; eassumption|].
    pose proof (fold_right_max_nonneg (parsed_counters tag entries)).
    pose proof (fold_right_max_least (parsed_counters tag entries) (c - 1) ltac:(lia)
                  (fun x Hx => ltac:(pose proof (Hbelow x Hx); lia))).
    lia.
Qed.

Lemma reservation_prevents_reuse_witness :
  1 <= 3
  /\ (exists entries1,
        lookup_dir "out" (fs (snd (reserve_output "out" "clip" "_last_" ".jpg" frames_dir)))
        = Some entries1
        /\ In ("clip" ++ "_last_" ++ str_of_Z 3 ++ ".jpg") entries1)
  /\ (forall (s2 : App) (entries2 : list string),
        lookup_dir "out" (fs s2) = Some entries2 ->
        In ("clip" ++ "_last_" ++ str_of_Z 3 ++ ".jpg") entries2 ->
        (exists n, next_counter "out" "_last_" s2 = (Ret n, s2) /\ 3 < n)
        /\ forall (s3 : App) (filename' ext' p' : string) (c' : Z),
            reserve_output "out" filename' "_last_" ext' s2 = (Ret (c', p'), s3) ->
            3 < c')
  /\ (forall s2 : App,
        grows (snd (reserve_output "out" "clip" "_last_" ".jpg" frames_dir)) s2 ->
        (exists n, next_counter "out" "_last_" s2 = (Ret n, s2) /\ 3 < n)
        /\ forall (s3 : App) (filename' ext' p' : string) (c' : Z),
            reserve_output "out" filename' "_last_" ext' s2 = (Ret (c', p'), s3) ->
            3 < c').
Proof.
  exact (proj1 reservation_prevents_reuse frames_dir
           (snd (reserve_output "out" "clip" "_last_" ".jpg" frames_dir))
           "out" "clip" "_last_" ".jpg" "out/clip_last_3.jpg" 3 eq_refl eq_refl).
Defined.

(** C1 as stated fails once a file is removed from outside.  An
    allocation computes [2] in a directory that holds [a_last_1.jpg] and
    creates [b_last_2.jpg].  When that file has been deleted and
    [a_last_1.jpg], a prior file with the tag, remains, the next allocation
    returns [2] again: not a counter greater than [2], and a reuse while a
    prior file with that tag remains. *)
Lemma counter_reused_after_deletion :
  reserve_output "out" "b" "_last_" ".jpg" (set_fs [("out", ["a_last_1.jpg"])] init_app) =
  (Ret (2, "out/b_last_2.jpg"),
   set_fs [("out", ["a_last_1.jpg"; "b_last_2.jpg"])] init_app)
  /\ parsed_counter "_last_" "b_last_2.jpg" = Some 2
  /\ parsed_counter "_last_" "a_last_1.jpg" = Some 1
  /\ reserve_output "out" "c" "_last_" ".jpg" (set_fs [("out", ["a_last_1.jpg"])] init_app) =
     (Ret (2, "out/c_last_2.jpg"),
      set_fs [("out", ["a_last_1.jpg"; "c_last_2.jpg"])] init_app).
Proof. repeat split; vm_compute; reflexivity. Qed.

(** Consecutive counters need the condition on the extensions: one that
    carries the tag and a number of its own is what the next allocation
    reads, and the counters are [3] and then [10]. *)
Example reserve_output_extension_with_tag :
  fst (reserve_output "out" "clip" "_last_" "_last_9.jpg" frames_dir) =
  Ret (3, "out/clip_last_3_last_9.jpg")
  /\ fst (reserve_output "out" "clip" "_last_" "_last_9.jpg"
            (snd (reserve_output "out" "clip" "_last_" "_last_9.jpg" frames_dir))) =
     Ret (10, "out/clip_last_10_last_9.jpg").
Proof. split; vm_compute; reflexivity. Qed.
